(** * The rendering engine of the Minetest client

    A shallow embedding of [src/client/renderingengine.cpp]: the
    process-wide [RenderingEngine] singleton that owns the Irrlicht device,
    the driver catalogue, the loading and menu screens and the video-mode
    probes, together with the properties its specification states.

    Conventions of the embedding:
    - [u32], [s32] and [int] values are integers in [Z]; every conversion and
      every operation that can leave the range is written with [wrap_u32] or
      [wrap_s32];
    - pointers are [option addr]; the pointee lives in a store of the process
      state ([engines], [devices]); [None] is the null pointer;
    - a function of the source is a computation in the monad [M]: it reads the
      environment of external collaborators ([Env]), threads the process
      state ([World]) and either returns or stops the process with a
      [fault];
    - calls into the video driver, the cloud scene and the UI layer are
      recorded, with the arguments they received, in [video_log]. *)

From Stdlib Require Import ZArith Ascii String List Lia.
From Stdlib Require Import Floats.SpecFloat.
From stdpp Require Import base option list gmap strings.

Local Open Scope Z_scope.

(** ** Machine integers *)

Module Int.

Definition wrap_u32 (z : Z) : Z := z mod 2 ^ 32.

Definition wrap_s32 (z : Z) : Z := (z + 2 ^ 31) mod 2 ^ 32 - 2 ^ 31.

Definition in_u32 (z : Z) : Prop := 0 <= z < 2 ^ 32.

Definition in_s32 (z : Z) : Prop := - 2 ^ 31 <= z < 2 ^ 31.

End Int.

Import Int.

(** Modelled from the spec: the [rangelim] macro of [util/numeric.h], which is
    not among the sources; the progress bar is "sized to fixed min/max
    bounds", so [rangelim d min max] is [d] limited to the range from [min]
    to [max]. *)
Definition rangelim (d min max : Z) : Z :=
  if d <? min then min else if d >? max then max else d.

(** ** C strings *)

Module CStr.

Definition code (c : ascii) : Z := Z.of_nat (nat_of_ascii c).

(** [tolower] of the C locale: the letters A to Z move to a to z. *)
Definition tolower (c : ascii) : ascii :=
  if (65 <=? code c) && (code c <=? 90)
  then ascii_of_nat (nat_of_ascii c + 32)
  else c.

(** [std::string::c_str] read as a C string: the characters before the
    first NUL. *)
Fixpoint c_str (s : string) : string :=
  match s with
  | EmptyString => EmptyString
  | String c s' =>
      if Ascii.eqb c zero then EmptyString else String c (c_str s')
  end.

(** [strcasecmp]: walks both strings, compares the lower-cased characters
    and returns their difference at the first position where they differ
    (the end of a string reads as the terminating NUL, code 0). *)
Fixpoint strcasecmp (a b : string) : Z :=
  match a, b with
  | EmptyString, EmptyString => 0
  | EmptyString, String d _ => 0 - code (tolower d)
  | String c _, EmptyString => code (tolower c) - 0
  | String c a', String d b' =>
      if Ascii.eqb (tolower c) (tolower d)
      then strcasecmp a' b'
      else code (tolower c) - code (tolower d)
  end.

Fixpoint lower (s : string) : string :=
  match s with
  | EmptyString => EmptyString
  | String c s' => String (tolower c) (lower s')
  end.

Fixpoint nul_free (s : string) : Prop :=
  match s with
  | EmptyString => True
  | String c s' => c <> zero /\ nul_free s'
  end.

End CStr.

Import CStr.

(** ** Irrlicht value types *)

Definition addr := nat.

(** [core::dimension2d<u32>] *)
Record dimension2d := mk_dim { Width : Z; Height : Z }.

(** [core::vector2d<T>], used at [u32] ([v2u32]) and [s32] ([v2s32]) *)
Record vector2d := mk_v2 { X : Z; Y : Z }.

(** The conversion from [dimension2d<u32>] to [v2u32]. *)
Definition v2u32_of_dimension (d : dimension2d) : vector2d :=
  mk_v2 (Width d) (Height d).

Definition v2s32_add (a b : vector2d) : vector2d :=
  mk_v2 (wrap_s32 (X a + X b)) (wrap_s32 (Y a + Y b)).

Definition v2s32_sub (a b : vector2d) : vector2d :=
  mk_v2 (wrap_s32 (X a - X b)) (wrap_s32 (Y a - Y b)).

(** [operator/(s32)]: C++ integer division truncates towards zero. *)
Definition v2s32_div (a : vector2d) (k : Z) : vector2d :=
  mk_v2 (wrap_s32 (Z.quot (X a) k)) (wrap_s32 (Z.quot (Y a) k)).

(** [core::rect<s32>] *)
Record rect := mk_rect { UpperLeftCorner : vector2d; LowerRightCorner : vector2d }.

(** [rect(x, y, x2, y2)] *)
Definition rect_xyxy (x y x2 y2 : Z) : rect :=
  mk_rect (mk_v2 x y) (mk_v2 x2 y2).

(** [rect::getWidth]: [LowerRightCorner.X - UpperLeftCorner.X] in [s32]. *)
Definition getWidth (r : rect) : Z :=
  wrap_s32 (X (LowerRightCorner r) - X (UpperLeftCorner r)).

(** [video::SColor(alpha, red, green, blue)] *)
Record SColor := mk_SColor { alpha : Z; red : Z; green : Z; blue : Z }.

(** [float]: IEEE 754 binary32 *)
Definition float := spec_float.

Definition float_mul (a b : float) : float := SFmul 24 128 a b.

(** The [int] 3 converted to [float]: 3.0f. *)
Definition float_of_3 : float := S754_finite false 12582912 (-22).

(** [std::wstring]: a sequence of wide characters *)
Definition wstring := list Z.

(** [std::wstring::c_str] read as a wide C string. *)
Fixpoint c_wstr (s : wstring) : wstring :=
  match s with
  | [] => []
  | c :: s' => if c =? 0 then [] else c :: c_wstr s'
  end.

(** ** The driver catalogue *)

(** [irr::video::E_DRIVER_TYPE], in the order of its enumerators; the
    constructors are the entries of the [driver_ids] table of
    [getVideoDriverName]. *)
Inductive E_DRIVER_TYPE :=
| EDT_NULL
| EDT_SOFTWARE
| EDT_BURNINGSVIDEO
| EDT_DIRECT3D8
| EDT_DIRECT3D9
| EDT_OPENGL
| EDT_OGLES1
| EDT_OGLES2.

#[global] Instance E_DRIVER_TYPE_eq_dec : EqDecision E_DRIVER_TYPE.
Proof. solve_decision. Defined.

Definition driver_types : list E_DRIVER_TYPE :=
  [EDT_NULL; EDT_SOFTWARE; EDT_BURNINGSVIDEO; EDT_DIRECT3D8; EDT_DIRECT3D9;
   EDT_OPENGL; EDT_OGLES1; EDT_OGLES2].

Definition EDT_COUNT : nat := 8.

(** The enumerator's integer value. *)
Definition driver_index (t : E_DRIVER_TYPE) : nat :=
  match t with
  | EDT_NULL => 0
  | EDT_SOFTWARE => 1
  | EDT_BURNINGSVIDEO => 2
  | EDT_DIRECT3D8 => 3
  | EDT_DIRECT3D9 => 4
  | EDT_OPENGL => 5
  | EDT_OGLES1 => 6
  | EDT_OGLES2 => 7
  end.

(** The cast [(irr::video::E_DRIVER_TYPE)i]. *)
Definition driver_of_index (i : nat) : option E_DRIVER_TYPE := driver_types !! i.

Definition driver_ids : list string :=
  ["null"; "software"; "burningsvideo"; "direct3d8"; "direct3d9"; "opengl";
   "ogles1"; "ogles2"]%string.

Definition driver_names : list string :=
  ["NULL Driver"; "Software Renderer"; "Burning's Video"; "Direct3D 8";
   "Direct3D 9"; "OpenGL"; "OpenGL ES1"; "OpenGL ES2"]%string.

Definition getVideoDriverName (type : E_DRIVER_TYPE) : string :=
  nth (driver_index type) driver_ids EmptyString.

Definition getVideoDriverFriendlyName (type : E_DRIVER_TYPE) : string :=
  nth (driver_index type) driver_names EmptyString.

(** The driver loop of the constructor.  [i] is the loop counter, [drivers]
    the part of the vector from position [i] on; the result is the driver
    type and the counter when the loop is left. *)
Fixpoint find_driver (driverstring : string) (drivers : list E_DRIVER_TYPE)
    (i : nat) (driverType : E_DRIVER_TYPE) : E_DRIVER_TYPE * nat :=
  match drivers with
  | [] => (driverType, i)
  | d :: rest =>
      if strcasecmp (c_str driverstring) (c_str (getVideoDriverName d)) =? 0
      then (d, i)
      else find_driver driverstring rest (S i) driverType
  end.

(** ** Objects of the process *)

(** [irr::SIrrlichtCreationParameters]: the members this file sets or leaves
    at the value of Irrlicht's default constructor.  [Bits], [ZBufferBits] and
    [AntiAlias] are [u8] members. *)
Record SIrrlichtCreationParameters := mk_params {
  DriverType : E_DRIVER_TYPE;
  WindowSize : dimension2d;
  Bits : Z;
  ZBufferBits : Z;
  Fullscreen : bool;
  Stencilbuffer : bool;
  Vsync : bool;
  AntiAlias : Z;
  Stereobuffer : bool;
  HighPrecisionFPU : bool;
  EventReceiver : option addr
}.

(** [video::IVideoModeList] *)
Record IVideoModeList := mk_modelist {
  VideoModes : list (dimension2d * Z);
  getDesktopResolution : dimension2d;
  getDesktopDepth : Z
}.

(** [video::IVideoDriver] *)
Record IVideoDriver := mk_driver {
  getDriverType : E_DRIVER_TYPE;
  getScreenSize : dimension2d
}.

(** [IrrlichtDevice]: a reference-counted object; [drop] releases one
    reference and destroys the device with the last one. *)
Record IrrlichtDevice := mk_device {
  getVideoDriver : IVideoDriver;
  getVideoModeList : option IVideoModeList;
  ReferenceCounter : nat
}.

(** [video::ITexture] *)
Record ITexture := mk_texture { texture_name : string; getSize : dimension2d }.

(** [ITextureSource]: [getTexture] returns null for a texture it cannot
    supply. *)
Definition ITextureSource := string -> option ITexture.

(** [RenderingCore] of [render/core.h], the rendering strategy the engine
    holds in [core]: what it was created with, and the size
    [getVirtualSize] reports. *)
Record RenderingCore := mk_core {
  core_mode : string;
  core_device : option addr;
  core_client : addr;
  core_hud : addr;
  getVirtualSize : vector2d
}.

Record RenderingEngine := mk_engine {
  m_device : option addr;
  driver : option addr;
  core : option RenderingCore
}.

Inductive EGUI_ALIGNMENT :=
| EGUIA_UPPERLEFT
| EGUIA_LOWERRIGHT
| EGUIA_CENTER
| EGUIA_SCALE.

(** A node of the UI layer: the static texts [addStaticText] creates, and
    whatever else the layer holds. *)
Inductive IGUIElement :=
| StaticText (text : wstring) (rectangle : rect) (border wordWrap : bool)
    (horizontal vertical : EGUI_ALIGNMENT)
| OtherElement (name : string).

Definition is_static_text (e : addr * IGUIElement) : bool :=
  match e.2 with StaticText _ _ _ _ _ _ => true | OtherElement _ => false end.

(** The calls that reach the video driver, the menu cloud scene, the UI layer
    and the rendering strategy, with the arguments received. *)
Inductive VideoCall :=
| CloudsStep (dtime : float)
| CloudsRender
| CloudsMgrDrawAll
| BeginScene (backBuffer zBuffer : bool) (color : SColor)
| Draw2DImageFilterScaled (texture : ITexture) (destrect srcrect : rect)
    (usealpha : bool)
| GuiDrawAll (elements : list (addr * IGUIElement))
| EndScene
| CoreInitialize (c : RenderingCore)
| CoreDraw (c : RenderingCore) (skycolor : SColor)
    (show_hud show_minimap draw_wield_tool draw_crosshair : bool).

(** What [std::cout] receives from [print_video_modes]. *)
Inductive CoutLine :=
| Line (s : string)
| ModeLine (w h d : Z).

(** ** The process state *)

Record World := mk_world {
  s_singleton : option addr;
  engines : gmap addr RenderingEngine;
  devices : gmap addr IrrlichtDevice;
  receivers : gset addr;
  guienv : list (addr * IGUIElement);
  video_log : list VideoCall;
  cout : list CoutLine;
  errorstream : list string
}.

Definition set_s_singleton (v : option addr) (w : World) : World :=
  mk_world v (engines w) (devices w) (receivers w) (guienv w) (video_log w)
    (cout w) (errorstream w).

Definition set_engines (v : gmap addr RenderingEngine) (w : World) : World :=
  mk_world (s_singleton w) v (devices w) (receivers w) (guienv w) (video_log w)
    (cout w) (errorstream w).

Definition set_devices (v : gmap addr IrrlichtDevice) (w : World) : World :=
  mk_world (s_singleton w) (engines w) v (receivers w) (guienv w) (video_log w)
    (cout w) (errorstream w).

Definition set_receivers (v : gset addr) (w : World) : World :=
  mk_world (s_singleton w) (engines w) (devices w) v (guienv w) (video_log w)
    (cout w) (errorstream w).

Definition set_guienv (v : list (addr * IGUIElement)) (w : World) : World :=
  mk_world (s_singleton w) (engines w) (devices w) (receivers w) v (video_log w)
    (cout w) (errorstream w).

Definition set_video_log (v : list VideoCall) (w : World) : World :=
  mk_world (s_singleton w) (engines w) (devices w) (receivers w) (guienv w) v
    (cout w) (errorstream w).

Definition set_cout (v : list CoutLine) (w : World) : World :=
  mk_world (s_singleton w) (engines w) (devices w) (receivers w) (guienv w)
    (video_log w) v (errorstream w).

Definition set_errorstream (v : list string) (w : World) : World :=
  mk_world (s_singleton w) (engines w) (devices w) (receivers w) (guienv w)
    (video_log w) (cout w) v.

(** The process at start-up: no engine, no device, an empty UI layer. *)
Definition initial_world : World :=
  mk_world None ∅ ∅ ∅ [] [] [] [].

(** ** External collaborators *)

(** [Settings]: the store behind [g_settings]. *)
Record Settings := mk_settings {
  getBool : string -> bool;
  getU16 : string -> Z;
  get : string -> string
}.

(** [FontEngine]: the object behind [g_fontengine]. *)
Record FontEngine := mk_fontengine {
  getTextWidth : wstring -> Z;
  getLineHeight : Z
}.

(** What the platform and the other modules answer.  [createDeviceEx] and
    [createDevice] give the device Irrlicht would build, or [None] when it
    returns null. *)
Record Env := mk_env {
  g_settings : Settings;
  g_fontengine : FontEngine;
  isDriverSupported : E_DRIVER_TYPE -> bool;
  createDeviceEx : SIrrlichtCreationParameters -> option IrrlichtDevice;
  createDevice : E_DRIVER_TYPE -> option IrrlichtDevice;
  createRenderingCore : string -> option addr -> addr -> addr -> RenderingCore
}.

(** ** The monad of the embedding *)

(** The ways the process stops: a failed [sanity_check], and an access
    through a pointer that is null or whose object is gone.  The latter two
    are undefined behaviour in C++; the embedding takes them as the memory
    fault that ends the process. *)
Inductive fault :=
| SanityCheckFailed (assertion : string)
| NullDereference (pointer : string)
| DanglingPointer (pointer : string).

Inductive outcome (A : Type) :=
| Done (a : A) (w : World)
| Fatal (f : fault) (w : World).

Arguments Done {A} a w.
Arguments Fatal {A} f w.

Definition M (A : Type) : Type := Env -> World -> outcome A.

#[global] Instance M_ret : MRet M := fun A a _ w => Done a w.

#[global] Instance M_bind : MBind M := fun A B f m env w =>
  match m env w with
  | Done a w' => f a env w'
  | Fatal e w' => Fatal e w'
  end.

Definition ask : M Env := fun env w => Done env w.

Definition gets {A} (f : World -> A) : M A := fun _ w => Done (f w) w.

Definition modify (f : World -> World) : M unit := fun _ w => Done tt (f w).

Definition crash {A} (f : fault) : M A := fun _ w => Fatal f w.

(** Modelled from the spec: the [sanity_check] macro of [debug.h], which is
    not among the sources; a "fatal assertion", after which "the process is
    expected to terminate rather than continue": a check that fails stops the
    process, naming the expression. *)
Definition sanity_check (cond : bool) (assertion : string) : M unit :=
  if cond then mret tt else crash (SanityCheckFailed assertion).

Definition is_done {A} (o : outcome A) : bool :=
  match o with Done _ _ => true | Fatal _ _ => false end.

Definition final_world {A} (o : outcome A) : World :=
  match o with Done _ w => w | Fatal _ w => w end.

(** ** Devices *)

(** The result of [createDeviceEx] or [createDevice] enters the process: a
    device Irrlicht built is placed at a fresh address and holds one
    reference; null stays null. *)
Definition new_device (made : option IrrlichtDevice) : M (option addr) :=
  match made with
  | None => mret None
  | Some d =>
      devs ← gets devices;
      let a := fresh (dom devs) in
      modify (set_devices
                (<[a := mk_device (getVideoDriver d) (getVideoModeList d) 1]> devs));;
      mret (Some a)
  end.

(** Access through a device pointer. *)
Definition deref_device (pointer : string) (p : option addr) : M IrrlichtDevice :=
  match p with
  | None => crash (NullDereference pointer)
  | Some a =>
      devs ← gets devices;
      match devs !! a with
      | None => crash (DanglingPointer pointer)
      | Some d => mret d
      end
  end.

(** [IReferenceCounted::drop] *)
Definition drop (pointer : string) (p : option addr) : M bool :=
  d ← deref_device pointer p;
  match p with
  | None => mret false
  | Some a =>
      if (ReferenceCounter d <=? 1)%nat
      then modify (fun w => set_devices (delete a (devices w)) w);; mret true
      else
        modify (fun w => set_devices
          (<[a := mk_device (getVideoDriver d) (getVideoModeList d)
                    (ReferenceCounter d - 1)]> (devices w)) w);;
        mret false
  end.

(** [new MyEventReceiver()] and [delete receiver] *)
Definition new_MyEventReceiver : M addr :=
  rs ← gets receivers;
  let a := fresh rs in
  modify (set_receivers ({[a]} ∪ rs));;
  mret a.

Definition delete_receiver (a : addr) : M unit :=
  modify (fun w => set_receivers (receivers w ∖ {[a]}) w).

Definition call (c : VideoCall) : M unit :=
  modify (fun w => set_video_log (video_log w ++ [c]) w).

Definition print (l : CoutLine) : M unit :=
  modify (fun w => set_cout (cout w ++ [l]) w).

Definition log_error (msg : string) : M unit :=
  modify (fun w => set_errorstream (errorstream w ++ [msg]) w).

(** ** The UI layer: [gui::IGUIEnvironment] *)

Definition addStaticText (text : wstring) (rectangle : rect)
    (border wordWrap : bool) : M addr :=
  els ← gets guienv;
  let a := fresh (els.*1) in
  modify (set_guienv
    (els ++ [(a, StaticText text rectangle border wordWrap
                   EGUIA_UPPERLEFT EGUIA_UPPERLEFT)]));;
  mret a.

Definition align_element (a : addr) (h v : EGUI_ALIGNMENT)
    (e : addr * IGUIElement) : addr * IGUIElement :=
  if decide (e.1 = a) then
    match e.2 with
    | StaticText t r b ww _ _ => (e.1, StaticText t r b ww h v)
    | OtherElement n => e
    end
  else e.

Definition setTextAlignment (a : addr) (h v : EGUI_ALIGNMENT) : M unit :=
  modify (fun w => set_guienv (align_element a h v <$> guienv w) w).

(** [IGUIElement::remove]: the element leaves its parent. *)
Definition remove (a : addr) : M unit :=
  modify (fun w => set_guienv (filter (fun e => e.1 ≠ a) (guienv w)) w).

Definition drawAll : M unit :=
  els ← gets guienv;
  call (GuiDrawAll els).

(** ** The driver catalogue, continued *)

(** [RenderingEngine::getSupportedVideoDrivers] *)
Definition getSupportedVideoDrivers (env : Env) : list E_DRIVER_TYPE :=
  fold_left
    (fun drivers i =>
       match driver_of_index i with
       | Some t => if isDriverSupported env t then drivers ++ [t] else drivers
       | None => drivers
       end)
    (seq 0 EDT_COUNT) [].

(** ** The engine *)

Definition deref_engine (pointer : string) (p : option addr) : M RenderingEngine :=
  match p with
  | None => crash (NullDereference pointer)
  | Some a =>
      es ← gets engines;
      match es !! a with
      | None => crash (DanglingPointer pointer)
      | Some e => mret e
      end
  end.

Definition store_engine (this : addr) (e : RenderingEngine) : M unit :=
  modify (fun w => set_engines (<[this := e]> (engines w)) w).

(** The constructor up to the call of [createDeviceEx]: the settings are
    read, the driver is determined and the creation parameters are filled
    in. *)
Definition creation_parameters (receiver : option addr)
    : M SIrrlichtCreationParameters :=
  env ← ask;
  let settings := g_settings env in
  let fullscreen := getBool settings "fullscreen" in
  let screen_w := getU16 settings "screen_w" in
  let screen_h := getU16 settings "screen_h" in
  let vsync := getBool settings "vsync" in
  let bits := getU16 settings "fullscreen_bpp" in
  let fsaa := getU16 settings "fsaa" in
  let stereo_buffer := String.eqb (get settings "3d_mode") "pageflip" in
  let driverstring := get settings "video_driver" in
  let drivers := getSupportedVideoDrivers env in
  let found := find_driver driverstring drivers 0 EDT_OPENGL in
  (if (found.2 =? length drivers)%nat
   then log_error "Invalid video_driver specified; defaulting to opengl"
   else mret tt);;
  mret {| DriverType := found.1;
          WindowSize := mk_dim screen_w screen_h;
          Bits := bits mod 256;
          ZBufferBits := 24;
          Fullscreen := fullscreen;
          Stencilbuffer := false;
          Vsync := vsync;
          AntiAlias := fsaa mod 256;
          Stereobuffer := stereo_buffer;
          HighPrecisionFPU := getBool settings "high_precision_fpu";
          EventReceiver := receiver |}.

(** [RenderingEngine::RenderingEngine]; the object at [this] exists once the
    constructor has returned. *)
Definition RenderingEngine_ctor (this : addr) (receiver : option addr) : M unit :=
  s ← gets s_singleton;
  sanity_check (bool_decide (s = None)) "!s_singleton";;
  params ← creation_parameters receiver;
  env ← ask;
  device ← new_device (createDeviceEx env params);
  _ ← deref_device "m_device" device;
  store_engine this (mk_engine device device None);;
  modify (set_s_singleton (Some this)).

(** [new RenderingEngine(receiver)] *)
Definition new_RenderingEngine (receiver : option addr) : M addr :=
  es ← gets engines;
  let this := fresh (dom es) in
  RenderingEngine_ctor this receiver;;
  mret this.

(** [RenderingEngine::~RenderingEngine]; the object at [this] is gone when
    the destructor has returned. *)
Definition RenderingEngine_dtor (this : addr) : M unit :=
  e ← deref_engine "this" (Some this);
  store_engine this (mk_engine (m_device e) (driver e) None);;
  drop "m_device" (m_device e);;
  modify (set_s_singleton None);;
  modify (fun w => set_engines (delete this (engines w)) w).

Definition getWindowSize (this : option addr) : M vector2d :=
  e ← deref_engine "this" this;
  match core e with
  | Some c => mret (getVirtualSize c)
  | None =>
      d ← deref_device "m_device" (m_device e);
      mret (v2u32_of_dimension (getScreenSize (getVideoDriver d)))
  end.

Definition _initialize (this : option addr) (client hud : addr) : M unit :=
  e ← deref_engine "this" this;
  env ← ask;
  let draw_mode := get (g_settings env) "3d_mode" in
  let c := createRenderingCore env draw_mode (m_device e) client hud in
  match this with
  | Some a => store_engine a (mk_engine (m_device e) (driver e) (Some c))
  | None => mret tt
  end;;
  call (CoreInitialize c).

Definition _finalize (this : option addr) : M unit :=
  e ← deref_engine "this" this;
  match this with
  | Some a => store_engine a (mk_engine (m_device e) (driver e) None)
  | None => mret tt
  end.

Definition _draw_scene (this : option addr) (skycolor : SColor)
    (show_hud show_minimap draw_wield_tool draw_crosshair : bool) : M unit :=
  e ← deref_engine "this" this;
  match core e with
  | None => crash (NullDereference "core")
  | Some c =>
      call (CoreDraw c skycolor show_hud show_minimap draw_wield_tool
              draw_crosshair)
  end.

(** Modelled from the spec: the static accessors of [renderingengine.h],
    which is not among the sources.  [get_instance] returns the singleton
    pointer; the screens "draw directly against the owned device", so
    [get_video_driver] is the video driver of the singleton's device (named
    by the address of that device), reached through both pointers. *)
Definition get_instance : M (option addr) := gets s_singleton.

Definition get_video_driver : M addr :=
  s ← gets s_singleton;
  e ← deref_engine "s_singleton" s;
  _ ← deref_device "m_device" (m_device e);
  match m_device e with
  | Some a => mret a
  | None => crash (NullDereference "m_device")
  end.

(** ** The loading screen and the menu scene *)

(** [RenderingEngine::_draw_load_screen], the desktop build.  [guienv] is the
    UI layer of the process state. *)
Definition _draw_load_screen (text : wstring) (tsrc : ITextureSource)
    (dtime : float) (percent : Z) (clouds : bool) : M unit :=
  instance ← get_instance;
  screensize ← getWindowSize instance;
  env ← ask;
  let textsize := mk_v2 (wrap_s32 (getTextWidth (g_fontengine env) text))
                        (wrap_s32 (getLineHeight (g_fontengine env))) in
  let center := mk_v2 (wrap_s32 (X screensize / 2))
                      (wrap_s32 (Y screensize / 2)) in
  let textrect := mk_rect (v2s32_sub center (v2s32_div textsize 2))
                          (v2s32_add center (v2s32_div textsize 2)) in
  guitext ← addStaticText (c_wstr text) textrect false false;
  setTextAlignment guitext EGUIA_CENTER EGUIA_UPPERLEFT;;
  let cloud_menu_background :=
    clouds && getBool (g_settings env) "menu_clouds" in
  (if cloud_menu_background then
     call (CloudsStep (float_mul dtime float_of_3));;
     call CloudsRender;;
     _ ← get_video_driver;
     call (BeginScene true true (mk_SColor 255 140 186 250));;
     call CloudsMgrDrawAll
   else
     _ ← get_video_driver;
     call (BeginScene true true (mk_SColor 255 0 0 0)));;
  (if (percent >=? 0) && (percent <=? 100) then
     let progress_img := tsrc "progress_bar.png"%string in
     let progress_img_bg := tsrc "progress_bar_bg.png"%string in
     match progress_img, progress_img_bg with
     | Some img, Some img_bg =>
         let img_size := getSize img_bg in
         let imgW := rangelim (Width img_size) 200 600 in
         let imgH := rangelim (Height img_size) 24 72 in
         let img_pos :=
           mk_v2 (wrap_s32 (wrap_u32 (X screensize - imgW) / 2))
                 (wrap_s32 (wrap_u32 (Y screensize - imgH) / 2)) in
         _ ← get_video_driver;
         call (Draw2DImageFilterScaled img_bg
                 (rect_xyxy (X img_pos) (Y img_pos)
                    (wrap_s32 (wrap_u32 (wrap_u32 (X img_pos) + imgW)))
                    (wrap_s32 (wrap_u32 (wrap_u32 (Y img_pos) + imgH))))
                 (rect_xyxy 0 0 (wrap_s32 (Width img_size))
                    (wrap_s32 (Height img_size)))
                 true);;
         _ ← get_video_driver;
         call (Draw2DImageFilterScaled img
                 (rect_xyxy (X img_pos) (Y img_pos)
                    (wrap_s32 (wrap_u32 (wrap_u32 (X img_pos)
                       + wrap_u32 (wrap_u32 percent * imgW) / 100)))
                    (wrap_s32 (wrap_u32 (wrap_u32 (Y img_pos) + imgH))))
                 (rect_xyxy 0 0
                    (wrap_s32 (wrap_u32 (wrap_u32 percent * Width img_size) / 100))
                    (wrap_s32 (Height img_size)))
                 true)
     | _, _ => mret tt
     end
   else mret tt);;
  drawAll;;
  _ ← get_video_driver;
  call EndScene;;
  remove guitext.

(** [RenderingEngine::_draw_menu_scene] *)
Definition _draw_menu_scene (dtime : float) (clouds : bool) : M unit :=
  env ← ask;
  let cloud_menu_background :=
    clouds && getBool (g_settings env) "menu_clouds" in
  (if cloud_menu_background then
     call (CloudsStep (float_mul dtime float_of_3));;
     call CloudsRender;;
     _ ← get_video_driver;
     call (BeginScene true true (mk_SColor 255 140 186 250));;
     call CloudsMgrDrawAll
   else
     _ ← get_video_driver;
     call (BeginScene true true (mk_SColor 255 0 0 0)));;
  drawAll;;
  _ ← get_video_driver;
  call EndScene.

(** ** Probes of the platform through a null device *)

Definition print_mode (m : dimension2d * Z) : M unit :=
  print (ModeLine (Width m.1) (Height m.1) m.2).

(** The loops over [0 .. getVideoModeCount()) visit the modes in order. *)
Fixpoint print_modes (modes : list (dimension2d * Z)) : M unit :=
  match modes with
  | [] => mret tt
  | m :: rest => print_mode m;; print_modes rest
  end.

(** [RenderingEngine::print_video_modes] *)
Definition print_video_modes : M bool :=
  env ← ask;
  let vsync := getBool (g_settings env) "vsync" in
  let fsaa := getU16 (g_settings env) "fsaa" in
  receiver ← new_MyEventReceiver;
  let params :=
    {| DriverType := EDT_NULL;
       WindowSize := mk_dim 640 480;
       Bits := 24;
       ZBufferBits := 16;
       Fullscreen := false;
       Stencilbuffer := false;
       Vsync := vsync;
       AntiAlias := fsaa mod 256;
       Stereobuffer := false;
       HighPrecisionFPU := getBool (g_settings env) "high_precision_fpu";
       EventReceiver := Some receiver |} in
  nulldevice ← new_device (createDeviceEx env params);
  match nulldevice with
  | None =>
      delete_receiver receiver;;
      mret false
  | Some _ =>
      print (Line "Available video modes (WxHxD):");;
      d ← deref_device "nulldevice" nulldevice;
      let videomode_list := getVideoModeList d in
      match videomode_list with
      | Some l =>
          print_modes (VideoModes l);;
          print (Line "Active video mode (WxHxD):");;
          print (ModeLine (Width (getDesktopResolution l))
                   (Height (getDesktopResolution l)) (getDesktopDepth l))
      | None => mret tt
      end;;
      drop "nulldevice" nulldevice;;
      delete_receiver receiver;;
      mret (bool_decide (videomode_list <> None))
  end.

(** [RenderingEngine::getSupportedVideoModes] *)
Definition getSupportedVideoModes : M (list (Z * Z * Z)) :=
  env ← ask;
  nulldevice ← new_device (createDevice env EDT_NULL);
  sanity_check (bool_decide (nulldevice <> None)) "nulldevice";;
  d ← deref_device "nulldevice" nulldevice;
  match getVideoModeList d with
  | None => crash (NullDereference "modelist")
  | Some modelist =>
      let mlist :=
        map (fun m => (Width m.1, Height m.1, wrap_u32 m.2))
          (VideoModes modelist) in
      drop "nulldevice" nulldevice;;
      mret mlist
  end.

(** [RenderingEngine::getDisplaySize] *)
Definition getDisplaySize : M vector2d :=
  env ← ask;
  nulldevice ← new_device (createDevice env EDT_NULL);
  d ← deref_device "nulldevice" nulldevice;
  match getVideoModeList d with
  | None => crash (NullDereference "getVideoModeList()")
  | Some l =>
      let deskres := getDesktopResolution l in
      drop "nulldevice" nulldevice;;
      mret (v2u32_of_dimension deskres)
  end.

(** ** The life of the process *)

(** What the client does with the rendering layer. *)
Inductive Action :=
| Construct (receiver : option addr)
| Destroy (this : addr)
| Initialize (client hud : addr)
| Finalize
| DrawScene (skycolor : SColor)
    (show_hud show_minimap draw_wield_tool draw_crosshair : bool)
| DrawLoadScreen (text : wstring) (tsrc : ITextureSource) (dtime : float)
    (percent : Z) (clouds : bool)
| DrawMenuScene (dtime : float) (clouds : bool)
| PrintVideoModes
| GetSupportedVideoModes
| GetDisplaySize.

Definition perform (a : Action) : M unit :=
  match a with
  | Construct receiver => new_RenderingEngine receiver;; mret tt
  | Destroy this => RenderingEngine_dtor this
  | Initialize client hud => s ← get_instance; _initialize s client hud
  | Finalize => s ← get_instance; _finalize s
  | DrawScene c h m t x => s ← get_instance; _draw_scene s c h m t x
  | DrawLoadScreen text tsrc dtime percent clouds =>
      _draw_load_screen text tsrc dtime percent clouds
  | DrawMenuScene dtime clouds => _draw_menu_scene dtime clouds
  | PrintVideoModes => print_video_modes;; mret tt
  | GetSupportedVideoModes => getSupportedVideoModes;; mret tt
  | GetDisplaySize => getDisplaySize;; mret tt
  end.

(** The states a running process can be in: the initial one and those an
    action that returned leads to. *)
Inductive reachable (env : Env) : World -> Prop :=
| reachable_initial : reachable env initial_world
| reachable_step w a w' :
    reachable env w ->
    perform a env w = Done tt w' ->
    reachable env w'.

(** The number of [RenderingEngine] objects alive. *)
Definition live_engines (w : World) : nat := size (engines w).

(** The static texts in the UI layer. *)
Definition static_texts (w : World) : list (addr * IGUIElement) :=
  filter (fun e => is_static_text e = true) (guienv w).

(** The engine at [a] is the singleton, the only engine alive, and its device
    handle points to the live device [d] at [da]. *)
Definition engine_ready (w : World) (a : addr) (e : RenderingEngine)
    (da : addr) (d : IrrlichtDevice) : Prop :=
  s_singleton w = Some a /\ engines w = {[a := e]} /\
  m_device e = Some da /\ devices w !! da = Some d.

(** The singleton pointer and the engines alive agree: no engine while the
    pointer is null, exactly the engine it points to otherwise. *)
Definition singleton_inv (w : World) : Prop :=
  match s_singleton w with
  | None => engines w = ∅
  | Some a => exists e da d, engine_ready w a e da d
  end.

(** The size [getWindowSize] reports for an engine. *)
Definition window_size (e : RenderingEngine) (d : IrrlichtDevice) : vector2d :=
  match core e with
  | Some c => getVirtualSize c
  | None => v2u32_of_dimension (getScreenSize (getVideoDriver d))
  end.

Definition is_draw_image (c : VideoCall) : bool :=
  match c with
  | Draw2DImageFilterScaled _ _ _ _ => true
  | _ => false
  end.

(** [wp m env w Q]: run from [w], the computation [m] returns, and its
    result and final state satisfy [Q]. *)
Definition wp {A} (m : M A) (env : Env) (w : World)
    (Q : A -> World -> Prop) : Prop :=
  match m env w with
  | Done a w' => Q a w'
  | Fatal _ _ => False
  end.

(** The calls that make the backdrop of a frame. *)
Definition is_backdrop_call (c : VideoCall) : bool :=
  match c with
  | CloudsStep _ | CloudsRender | CloudsMgrDrawAll | BeginScene _ _ _ => true
  | _ => false
  end.

(** Two states of the process with the same singleton pointer, engines and
    devices. *)
Definition same_process (w w' : World) : Prop :=
  s_singleton w' = s_singleton w /\ engines w' = engines w /\
  devices w' = devices w.

(** ** Example platforms *)

Definition example_settings (video_driver : string) : Settings :=
  {| getBool := fun k => String.eqb k "menu_clouds" || String.eqb k "vsync";
     getU16 := fun k =>
       if String.eqb k "screen_w" then 800
       else if String.eqb k "screen_h" then 600
       else if String.eqb k "fullscreen_bpp" then 24
       else 0;
     get := fun k =>
       if String.eqb k "video_driver" then video_driver else "mono"%string |}.

Definition example_font : FontEngine :=
  {| getTextWidth := fun text => 8 * Z.of_nat (length text);
     getLineHeight := 16 |}.

Definition example_modes : IVideoModeList :=
  {| VideoModes := [(mk_dim 640 480, 24); (mk_dim 800 600, 32)];
     getDesktopResolution := mk_dim 1920 1080;
     getDesktopDepth := 32 |}.

(** A desktop on which Irrlicht builds every device it is asked for. *)
Definition desktop (video_driver : string) : Env :=
  {| g_settings := example_settings video_driver;
     g_fontengine := example_font;
     isDriverSupported := fun t =>
       bool_decide (t ∈ [EDT_NULL; EDT_SOFTWARE; EDT_BURNINGSVIDEO; EDT_OPENGL]);
     createDeviceEx := fun p =>
       Some (mk_device (mk_driver (DriverType p) (WindowSize p))
               (Some example_modes) 1);
     createDevice := fun t =>
       Some (mk_device (mk_driver t (mk_dim 800 600)) (Some example_modes) 1);
     createRenderingCore := fun mode device client hud =>
       mk_core mode device client hud (mk_v2 800 600) |}.

(** A machine on which no device can be created. *)
Definition headless (video_driver : string) : Env :=
  {| g_settings := example_settings video_driver;
     g_fontengine := example_font;
     isDriverSupported := fun t => bool_decide (t = EDT_NULL);
     createDeviceEx := fun _ => None;
     createDevice := fun _ => None;
     createRenderingCore := fun mode device client hud =>
       mk_core mode device client hud (mk_v2 800 600) |}.

(** The process after [new RenderingEngine] on the desktop, and after
    [_initialize] on top of it. *)
Definition world_with_engine : World :=
  final_world (new_RenderingEngine None (desktop "opengl") initial_world).

Definition world_in_session : World :=
  final_world (_initialize (s_singleton world_with_engine) 1%nat 2%nat
                 (desktop "opengl") world_with_engine).

Definition example_textures : ITextureSource := fun name =>
  if String.eqb name "progress_bar.png"
  then Some (mk_texture name (mk_dim 201 30))
  else if String.eqb name "progress_bar_bg.png"
  then Some (mk_texture name (mk_dim 201 30))
  else None.

(** The message the constructor writes to [errorstream]. *)
Definition invalid_driver_message : string :=
  "Invalid video_driver specified; defaulting to opengl".

(** Case-insensitive equality of a configured name and a driver's name. *)
Definition same_name (driverstring : string) (d : E_DRIVER_TYPE) : Prop :=
  lower (c_str driverstring) = lower (getVideoDriverName d).

(** ** The window icon (X11 build) *)

(** [long] on the LP64 targets of the X11 build *)
Definition in_s64 (z : Z) : Prop := - 2 ^ 63 <= z < 2 ^ 63.

(** [io::IReadFile] *)
Record IReadFile := mk_file { getFileName : string }.

(** [video::IImage] *)
Record IImage := mk_image {
  getDimension : dimension2d;
  getPixel : Z -> Z -> SColor
}.

(** [video::IImageLoader]; [loadImage] returns null for a file it cannot
    decode. *)
Record IImageLoader := mk_loader {
  isALoadableFileExtension : string -> bool;
  loadImage : IReadFile -> option IImage
}.

(** What the driver, the file system, the X server and the build answer to
    the icon code. *)
Record IconPlatform := mk_icon_platform {
  ImageLoaders : list IImageLoader;
  createAndOpenFile : string -> option IReadFile;
  X11Display : option addr;
  X11Window : Z;
  ICON_DIR : string;
  PROJECT_NAME : string;
  path_share : string
}.

(** The objects the icon code acquires and has to release. *)
Inductive Resource :=
| FileObject (name : string)
| ImageObject (name : string)
| IconBuffer (len : Z).

#[global] Instance Resource_eq_dec : EqDecision Resource.
Proof. solve_decision. Defined.

(** [new long[len]]: the cells are not initialised. *)
Definition buffer := list (option Z).

(** A call of [XChangeProperty]. *)
Record XProperty := mk_xproperty {
  xp_display : addr;
  xp_window : Z;
  xp_property : string;
  xp_type : string;
  xp_format : Z;
  xp_data : buffer;
  xp_nelements : Z
}.

Record IconState := mk_icon_state {
  warningstream : list string;
  live : list Resource;
  file_opens : list string;
  x_properties : list XProperty
}.

(** How [setXorgWindowIconFromPath] ends: it returns, or it writes outside
    [icon_buffer]. *)
Inductive IconResult :=
| Returned (b : bool) (s : IconState)
| BufferOverrun (s : IconState).

Definition warn (msg : string) (s : IconState) : IconState :=
  mk_icon_state (warningstream s ++ [msg]) (live s) (file_opens s)
    (x_properties s).

Definition acquire (r : Resource) (s : IconState) : IconState :=
  mk_icon_state (warningstream s) (r :: live s) (file_opens s) (x_properties s).

Fixpoint remove_first (r : Resource) (l : list Resource) : list Resource :=
  match l with
  | [] => []
  | x :: l' => if decide (x = r) then l' else x :: remove_first r l'
  end.

Definition release (r : Resource) (s : IconState) : IconState :=
  mk_icon_state (warningstream s) (remove_first r (live s)) (file_opens s)
    (x_properties s).

Definition note_open (name : string) (s : IconState) : IconState :=
  mk_icon_state (warningstream s) (live s) (file_opens s ++ [name])
    (x_properties s).

Definition XChangeProperty (p : XProperty) (s : IconState) : IconState :=
  mk_icon_state (warningstream s) (live s) (file_opens s)
    (x_properties s ++ [p]).

(** The loop over the image loaders: the first one that accepts the file. *)
Fixpoint find_image_loader (loaders : list IImageLoader) (icon_file : string)
    : option IImageLoader :=
  match loaders with
  | [] => None
  | l :: rest =>
      if isALoadableFileExtension l icon_file then Some l
      else find_image_loader rest icon_file
  end.

(** The [long] built from a pixel: each channel is cast to [u8], shifted as
    an [int] and or-ed in. *)
Definition pixel_value (col : SColor) : Z :=
  let pixel_val := 0 in
  let pixel_val := Z.lor pixel_val (wrap_s32 (Z.shiftl (alpha col mod 256) 24)) in
  let pixel_val := Z.lor pixel_val (wrap_s32 (Z.shiftl (red col mod 256) 16)) in
  let pixel_val := Z.lor pixel_val (wrap_s32 (Z.shiftl (green col mod 256) 8)) in
  let pixel_val := Z.lor pixel_val (blue col mod 256) in
  pixel_val.

(** The subscript [2 + x + y * width], computed in [u32]. *)
Definition icon_index (x y width : Z) : Z :=
  wrap_u32 (wrap_u32 (2 + x) + wrap_u32 (y * width)).

(** [icon_buffer[i] = v]; [None] when [i] is outside the buffer. *)
Definition store (buf : buffer) (i v : Z) : option buffer :=
  if (0 <=? i) && (i <? Z.of_nat (length buf))
  then Some (<[Z.to_nat i := Some v]> buf)
  else None.

(** The inner loop, over [y], for the column [x]. *)
Fixpoint fill_column (img : IImage) (width x : Z) (ys : list Z) (buf : buffer)
    : option buffer :=
  match ys with
  | [] => Some buf
  | y :: ys' =>
      match store buf (icon_index x y width) (pixel_value (getPixel img x y)) with
      | Some buf' => fill_column img width x ys' buf'
      | None => None
      end
  end.

(** The outer loop, over [x]. *)
Fixpoint fill_columns (img : IImage) (width height : Z) (xs : list Z)
    (buf : buffer) : option buffer :=
  match xs with
  | [] => Some buf
  | x :: xs' =>
      match fill_column img width x (seqZ 0 height) buf with
      | Some buf' => fill_columns img width height xs' buf'
      | None => None
      end
  end.

(** The buffer from its allocation to the end of the loops. *)
Definition fill_icon_buffer (img : IImage) : option buffer :=
  let height := Height (getDimension img) in
  let width := Width (getDimension img) in
  let icon_buffer_len := wrap_u32 (2 + wrap_u32 (height * width)) in
  let icon_buffer : buffer := replicate (Z.to_nat icon_buffer_len) None in
  match store icon_buffer 0 width with
  | None => None
  | Some icon_buffer =>
      match store icon_buffer 1 height with
      | None => None
      | Some icon_buffer =>
          fill_columns img width height (seqZ 0 width) icon_buffer
      end
  end.

(** [RenderingEngine::setXorgWindowIconFromPath], the X11 build *)
Definition setXorgWindowIconFromPath (P : IconPlatform) (icon_file : string)
    (s : IconState) : IconResult :=
  match find_image_loader (ImageLoaders P) icon_file with
  | None =>
      Returned false
        (warn ("Could not find image loader for file '" ++ icon_file ++ "'") s)
  | Some image_loader =>
      let s := note_open icon_file s in
      match createAndOpenFile P icon_file with
      | None =>
          Returned false
            (warn ("Could not load icon file '" ++ icon_file ++ "'") s)
      | Some icon_f =>
          let s := acquire (FileObject (getFileName icon_f)) s in
          match loadImage image_loader icon_f with
          | None =>
              let s := warn ("Could not load icon file '" ++ icon_file ++ "'") s in
              Returned false (release (FileObject (getFileName icon_f)) s)
          | Some img =>
              let s := acquire (ImageObject (getFileName icon_f)) s in
              let height := Height (getDimension img) in
              let width := Width (getDimension img) in
              let icon_buffer_len := wrap_u32 (2 + wrap_u32 (height * width)) in
              let s := acquire (IconBuffer icon_buffer_len) s in
              match fill_icon_buffer img with
              | None => BufferOverrun s
              | Some icon_buffer =>
                  let s := release (ImageObject (getFileName icon_f)) s in
                  let s := release (FileObject (getFileName icon_f)) s in
                  match X11Display P with
                  | None =>
                      let s :=
                        warn "Could not find x11 display for setting its icon." s in
                      Returned false (release (IconBuffer icon_buffer_len) s)
                  | Some x11_dpl =>
                      let s :=
                        XChangeProperty
                          (mk_xproperty x11_dpl (X11Window P) "_NET_WM_ICON"
                             "CARDINAL" 32 icon_buffer
                             (wrap_s32 icon_buffer_len)) s in
                      Returned true (release (IconBuffer icon_buffer_len) s)
                  end
              end
          end
      end
  end.

(** [RenderingEngine::setWindowIcon], the X11 build, with and without
    [RUN_IN_PLACE] *)
Definition setWindowIcon (run_in_place : bool) (P : IconPlatform)
    (s : IconState) : IconResult :=
  let share_icon :=
    (path_share P ++ "/misc/" ++ PROJECT_NAME P ++ "-xorg-icon-128.png")%string in
  if run_in_place then setXorgWindowIconFromPath P share_icon s
  else
    match setXorgWindowIconFromPath P
            (ICON_DIR P ++ "/hicolor/128x128/apps/" ++ PROJECT_NAME P ++ ".png") s with
    | Returned true s' => Returned true s'
    | Returned false s' => setXorgWindowIconFromPath P share_icon s'
    | BufferOverrun s' => BufferOverrun s'
    end.

(** The alpha channel as the [int] shift leaves it: from 128 on, negative. *)
Definition signed_alpha (a : Z) : Z := if a <? 128 then a else a - 256.

(** The writes of the two loops, in the order they are made. *)
Definition column_writes (img : IImage) (width x : Z) (ys : list Z)
    : list (Z * Z) :=
  map (fun y => (icon_index x y width, pixel_value (getPixel img x y))) ys.

Definition icon_writes (img : IImage) (width height : Z) (xs : list Z)
    : list (Z * Z) :=
  flat_map (fun x => column_writes img width x (seqZ 0 height)) xs.

Fixpoint store_all (buf : buffer) (writes : list (Z * Z)) : option buffer :=
  match writes with
  | [] => Some buf
  | iv :: rest =>
      match store buf iv.1 iv.2 with
      | Some buf' => store_all buf' rest
      | None => None
      end
  end.

(** The image [setXorgWindowIconFromPath] gets for a file, if any: from the
    first loader that accepts the file, when the file opens and decodes. *)
Definition icon_image (P : IconPlatform) (icon_file : string) : option IImage :=
  match find_image_loader (ImageLoaders P) icon_file with
  | None => None
  | Some image_loader =>
      match createAndOpenFile P icon_file with
      | None => None
      | Some icon_f => loadImage image_loader icon_f
      end
  end.

(** The images whose cell count [2 + height * width] does not wrap around
    in [u32]. *)
Definition icon_fits (img : IImage) : Prop :=
  0 <= Width (getDimension img) /\ 0 <= Height (getDimension img) /\
  2 + Width (getDimension img) * Height (getDimension img) < 2 ^ 32.

(** ** Observations on the process *)

(** No device and no event receiver is alive beyond the engine's own device,
    which holds one reference and is the device of the cached driver. *)
Definition tidy (w : World) : Prop :=
  receivers w = ∅ /\
  match s_singleton w with
  | None => engines w = ∅ /\ devices w = ∅
  | Some a =>
      exists e da d,
        engines w = {[a := e]} /\ m_device e = Some da /\ driver e = Some da /\
        devices w = {[da := d]} /\ ReferenceCounter d = 1%nat
  end.

(** Reading the log of calls as scenes: [beginScene] opens one, [endScene]
    closes it; 2D images, the UI layer and the cloud scene manager draw inside
    a scene, the rendering strategy works outside. [scan] gives whether a
    scene is open after the calls, or [None] when a call is out of place. *)
Definition scan_call (open : bool) (c : VideoCall) : option bool :=
  match c with
  | BeginScene _ _ _ => if open then None else Some true
  | EndScene => if open then Some false else None
  | Draw2DImageFilterScaled _ _ _ _ | GuiDrawAll _ | CloudsMgrDrawAll =>
      if open then Some true else None
  | CoreInitialize _ | CoreDraw _ _ _ _ _ _ => if open then None else Some false
  | CloudsStep _ | CloudsRender => Some open
  end.

Fixpoint scan (open : bool) (calls : list VideoCall) : option bool :=
  match calls with
  | [] => Some open
  | c :: rest =>
      match scan_call open c with
      | Some open' => scan open' rest
      | None => None
      end
  end.

(** [rect::getHeight]: [LowerRightCorner.Y - UpperLeftCorner.Y] in [s32]. *)
Definition getHeight (r : rect) : Z :=
  wrap_s32 (Y (LowerRightCorner r) - Y (UpperLeftCorner r)).

(** The destination rectangles of the images drawn by a list of calls. *)
Definition image_rects (calls : list VideoCall) : list rect :=
  omap (fun c => match c with
                 | Draw2DImageFilterScaled _ dest _ _ => Some dest
                 | _ => None
                 end) calls.

(** The rectangles of the static texts the UI layer held when it was drawn. *)
Definition text_rects (calls : list VideoCall) : list rect :=
  mjoin (omap (fun c => match c with
                | GuiDrawAll elements =>
                    Some (omap (fun e => match e.2 with
                                         | StaticText _ r _ _ _ _ => Some r
                                         | OtherElement _ => None
                                         end) elements)
                | _ => None
                end) calls).

(** ** Example icon platforms *)

Definition example_image : IImage :=
  {| getDimension := mk_dim 2 3;
     getPixel := fun x y => mk_SColor 255 (10 * x) (10 * y) 7 |}.

Definition png_loader : IImageLoader :=
  {| isALoadableFileExtension := fun f => String.eqb (substring (String.length f - 4) 4 f) ".png";
     loadImage := fun f => Some example_image |}.

Definition bmp_loader : IImageLoader :=
  {| isALoadableFileExtension := fun f => String.eqb (substring (String.length f - 4) 4 f) ".bmp";
     loadImage := fun f => None |}.

(** An X11 desktop where only the icon under [path_share] is installed. *)
Definition example_icon_platform : IconPlatform :=
  {| ImageLoaders := [bmp_loader; png_loader];
     createAndOpenFile := fun f =>
       if String.eqb f "/usr/share/minetest/misc/minetest-xorg-icon-128.png"
       then Some (mk_file f) else None;
     X11Display := Some 7%nat;
     X11Window := 42;
     ICON_DIR := "/usr/share/icons";
     PROJECT_NAME := "minetest";
     path_share := "/usr/share/minetest" |}.

Definition empty_icon_state : IconState := mk_icon_state [] [] [] [].

(** An image of 65536 x 65536 pixels, and a desktop whose loader decodes
    every file to it. *)
Definition huge_image : IImage :=
  {| getDimension := mk_dim 65536 65536;
     getPixel := fun x y => mk_SColor 255 0 0 0 |}.

Definition huge_icon_platform : IconPlatform :=
  {| ImageLoaders := [{| isALoadableFileExtension := fun f => true;
                         loadImage := fun f => Some huge_image |}];
     createAndOpenFile := fun f => Some (mk_file f);
     X11Display := Some 7%nat;
     X11Window := 42;
     ICON_DIR := "/usr/share/icons";
     PROJECT_NAME := "minetest";
     path_share := "/usr/share/minetest" |}.

(** * Properties *)

(** ** Machine integers *)

Lemma wrap_u32_range z : in_u32 (wrap_u32 z).
Proof. unfold in_u32, wrap_u32. apply Z.mod_pos_bound. lia. Qed.

Lemma wrap_u32_small z : in_u32 z -> wrap_u32 z = z.
Proof. unfold in_u32, wrap_u32. intros H. apply Z.mod_small. lia. Qed.

Lemma wrap_s32_range z : in_s32 (wrap_s32 z).
Proof.
  unfold in_s32, wrap_s32.
  pose proof (Z.mod_pos_bound (z + 2 ^ 31) (2 ^ 32)). lia.
Qed.

Lemma wrap_s32_small z : in_s32 z -> wrap_s32 z = z.
Proof.
  unfold in_s32, wrap_s32. intros H.
  rewrite Z.mod_small by lia. lia.
Qed.

(** Converting to [u32] first does not change the [s32] that comes out. *)
Lemma wrap_s32_u32 z : wrap_s32 (wrap_u32 z) = wrap_s32 z.
Proof.
  unfold wrap_s32, wrap_u32.
  rewrite Zplus_mod_idemp_l. reflexivity.
Qed.

Lemma wrap_u32_add_l a b : wrap_u32 (wrap_u32 a + b) = wrap_u32 (a + b).
Proof. unfold wrap_u32. apply Zplus_mod_idemp_l. Qed.

(** Two's-complement subtraction forgets an earlier wrap of its left
    operand. *)
Lemma wrap_s32_sub_l a b : wrap_s32 (wrap_s32 a - b) = wrap_s32 (a - b).
Proof.
  unfold wrap_s32.
  replace ((a + 2 ^ 31) mod 2 ^ 32 - 2 ^ 31 - b + 2 ^ 31)
    with ((a + 2 ^ 31) mod 2 ^ 32 + - b) by lia.
  rewrite Zplus_mod_idemp_l. f_equal. f_equal. lia.
Qed.

Lemma rangelim_bounds d lo hi : lo <= hi -> lo <= rangelim d lo hi <= hi.
Proof.
  intros H. unfold rangelim.
  destruct (Z.ltb_spec d lo); [lia |].
  rewrite Z.gtb_ltb.
  destruct (Z.ltb_spec hi d); lia.
Qed.

(** ** Case-insensitive comparison *)

Lemma code_inj c d : code c = code d -> c = d.
Proof.
  unfold code. intros H. apply Nat2Z.inj in H.
  rewrite <- (ascii_nat_embedding c), <- (ascii_nat_embedding d).
  now rewrite H.
Qed.

Lemma code_zero c : code c = 0 -> c = zero.
Proof. intros H. apply code_inj. exact H. Qed.

Lemma tolower_not_zero c : c <> zero -> tolower c <> zero.
Proof.
  destruct c as [[] [] [] [] [] [] [] []]; vm_compute; congruence.
Qed.

Lemma c_str_nul_free s : nul_free (c_str s).
Proof.
  induction s as [| c s IH]; simpl; [exact I |].
  destruct (Ascii.eqb_spec c zero); simpl; auto.
Qed.

Lemma c_str_of_nul_free s : nul_free s -> c_str s = s.
Proof.
  induction s as [| c s IH]; simpl; [reflexivity |].
  intros [Hc Hs]. destruct (Ascii.eqb_spec c zero); [contradiction |].
  now rewrite IH.
Qed.

(** [strcasecmp] returns 0 exactly on strings that are equal up to the case
    of their letters. *)
Lemma strcasecmp_zero a : forall b,
  nul_free a -> nul_free b -> (strcasecmp a b = 0 <-> lower a = lower b).
Proof.
  induction a as [| c a IH]; intros [| d b] Ha Hb; simpl in *.
  - tauto.
  - destruct Hb as [Hd _]. split; [| discriminate].
    intros H. exfalso. apply (tolower_not_zero d Hd), code_zero. lia.
  - destruct Ha as [Hc _]. split; [| discriminate].
    intros H. exfalso. apply (tolower_not_zero c Hc), code_zero. lia.
  - destruct Ha as [_ Ha], Hb as [_ Hb].
    destruct (Ascii.eqb_spec (tolower c) (tolower d)) as [E | E].
    + rewrite E, (IH b Ha Hb). split; [congruence |].
      intros H. now inversion H.
    + split.
      * intros H. exfalso. apply E, code_inj. lia.
      * intros H. inversion H. contradiction.
Qed.

Lemma driver_name_nul_free d : c_str (getVideoDriverName d) = getVideoDriverName d.
Proof. destruct d; reflexivity. Qed.

Lemma strcasecmp_same_name s d :
  strcasecmp (c_str s) (c_str (getVideoDriverName d)) = 0 <-> same_name s d.
Proof.
  unfold same_name. rewrite <- (driver_name_nul_free d) at 2.
  apply strcasecmp_zero; apply c_str_nul_free.
Qed.

(** ** The driver loop *)

Lemma getSupportedVideoDrivers_filter env :
  getSupportedVideoDrivers env =
  filter (fun t => isDriverSupported env t = true) driver_types.
Proof.
  unfold getSupportedVideoDrivers, driver_types. simpl.
  rewrite !filter_cons, filter_nil.
  repeat match goal with
  | |- context [isDriverSupported env ?t] =>
      destruct (isDriverSupported env t)
  end; reflexivity.
Qed.

Lemma find_driver_none s def : forall drivers i,
  (forall x, x ∈ drivers -> ~ same_name s x) ->
  find_driver s drivers i def = (def, (i + length drivers)%nat).
Proof.
  induction drivers as [| d rest IH]; intros i Hno; simpl.
  - f_equal. lia.
  - destruct (Z.eqb_spec (strcasecmp (c_str s) (c_str (getVideoDriverName d))) 0)
      as [E | E].
    + exfalso. apply (Hno d); [left |]. now apply strcasecmp_same_name.
    + rewrite IH; [f_equal; lia |].
      intros x Hx. apply Hno. now right.
Qed.

Lemma find_driver_first s def d post : forall pre i,
  (forall x, x ∈ pre -> ~ same_name s x) ->
  same_name s d ->
  find_driver s (pre ++ d :: post) i def = (d, (i + length pre)%nat).
Proof.
  induction pre as [| p pre IH]; intros i Hno Hd; simpl.
  - apply strcasecmp_same_name in Hd. rewrite Hd. simpl. f_equal. lia.
  - destruct (Z.eqb_spec (strcasecmp (c_str s) (c_str (getVideoDriverName p))) 0)
      as [E | E].
    + exfalso. apply (Hno p); [left |]. now apply strcasecmp_same_name.
    + rewrite IH; [f_equal; lia | | exact Hd].
      intros x Hx. apply Hno. now right.
Qed.

(** ** Running computations *)

Arguments wrap_u32 : simpl never.
Arguments wrap_s32 : simpl never.
Arguments rangelim : simpl never.
Arguments float_mul : simpl never.
Arguments fresh : simpl never.
Arguments creation_parameters : simpl never.
Arguments getSupportedVideoDrivers : simpl never.
Arguments find_driver : simpl never.

Ltac unfold_monad :=
  unfold mbind, M_bind, mret, M_ret, ask, gets, modify, crash, sanity_check,
    call, print, log_error, store_engine, get_instance in *.

Lemma bind_done {A B} (m : M A) (f : A -> M B) env w a w1 :
  m env w = Done a w1 -> (m ≫= f) env w = f a env w1.
Proof. intros H. unfold mbind, M_bind. now rewrite H. Qed.

Lemma bind_fatal {A B} (m : M A) (f : A -> M B) env w e w1 :
  m env w = Fatal e w1 -> (m ≫= f) env w = Fatal e w1.
Proof. intros H. unfold mbind, M_bind. now rewrite H. Qed.

Lemma bind_inv {A B} (m : M A) (f : A -> M B) env w b w2 :
  (m ≫= f) env w = Done b w2 ->
  exists a w1, m env w = Done a w1 /\ f a env w1 = Done b w2.
Proof.
  unfold mbind, M_bind. destruct (m env w) as [a w1 | e w1]; [| discriminate].
  intros H. now exists a, w1.
Qed.

(** ** The constructor *)

(** The constructor always reaches [createDeviceEx]: determining the
    parameters cannot fail, and touches nothing but the error stream. *)
Lemma creation_parameters_total receiver env w :
  exists p,
    let found := find_driver (get (g_settings env) "video_driver")
                   (getSupportedVideoDrivers env) 0 EDT_OPENGL in
    DriverType p = found.1 /\
    EventReceiver p = receiver /\
    creation_parameters receiver env w =
      Done p (if (found.2 =? length (getSupportedVideoDrivers env))%nat
              then set_errorstream (errorstream w ++ [invalid_driver_message]) w
              else w).
Proof.
  unfold creation_parameters. unfold_monad. cbn.
  destruct (_ =? _)%nat; eexists; cbn;
    refine (conj _ (conj _ eq_refl)); reflexivity.
Qed.

Lemma creation_parameters_frame receiver env w p w1 :
  creation_parameters receiver env w = Done p w1 ->
  s_singleton w1 = s_singleton w /\ engines w1 = engines w /\
  devices w1 = devices w /\ guienv w1 = guienv w.
Proof.
  destruct (creation_parameters_total receiver env w) as (p' & _ & _ & E).
  rewrite E. intros H. inversion H; subst.
  destruct (_ =? _)%nat; auto.
Qed.

Lemma ctor_second_instance this receiver env w :
  s_singleton w <> None ->
  RenderingEngine_ctor this receiver env w =
    Fatal (SanityCheckFailed "!s_singleton") w.
Proof.
  intros H. unfold RenderingEngine_ctor. unfold_monad. cbn.
  rewrite bool_decide_eq_false_2 by exact H. reflexivity.
Qed.

Lemma ctor_no_device this receiver env w p w1 :
  s_singleton w = None ->
  creation_parameters receiver env w = Done p w1 ->
  createDeviceEx env p = None ->
  RenderingEngine_ctor this receiver env w =
    Fatal (NullDereference "m_device") w1.
Proof.
  intros Hs Hp Hd. unfold RenderingEngine_ctor. unfold_monad. cbn.
  rewrite bool_decide_eq_true_2 by exact Hs. cbn. rewrite Hp. cbn.
  rewrite Hd. reflexivity.
Qed.

Lemma ctor_device this receiver env w p w1 d :
  s_singleton w = None ->
  creation_parameters receiver env w = Done p w1 ->
  createDeviceEx env p = Some d ->
  RenderingEngine_ctor this receiver env w =
    Done tt
      (let a := fresh (dom (devices w1)) in
       set_s_singleton (Some this)
         (set_engines (<[this := mk_engine (Some a) (Some a) None]> (engines w1))
            (set_devices
               (<[a := mk_device (getVideoDriver d) (getVideoModeList d) 1]>
                  (devices w1)) w1))).
Proof.
  intros Hs Hp Hd. unfold RenderingEngine_ctor. unfold_monad. cbn.
  rewrite bool_decide_eq_true_2 by exact Hs. cbn. rewrite Hp. cbn.
  rewrite Hd. unfold new_device, deref_device. unfold_monad. cbn.
  rewrite lookup_insert_eq. reflexivity.
Qed.

(** The three ways the constructor can end. *)
Lemma ctor_cases this receiver env w :
  exists p w1,
    creation_parameters receiver env w = Done p w1 /\
    match s_singleton w, createDeviceEx env p with
    | Some _, _ =>
        RenderingEngine_ctor this receiver env w =
          Fatal (SanityCheckFailed "!s_singleton") w
    | None, None =>
        RenderingEngine_ctor this receiver env w =
          Fatal (NullDereference "m_device") w1
    | None, Some d =>
        RenderingEngine_ctor this receiver env w =
          Done tt
            (let a := fresh (dom (devices w1)) in
             set_s_singleton (Some this)
               (set_engines
                  (<[this := mk_engine (Some a) (Some a) None]> (engines w1))
                  (set_devices
                     (<[a := mk_device (getVideoDriver d) (getVideoModeList d) 1]>
                        (devices w1)) w1)))
    end.
Proof.
  destruct (creation_parameters_total receiver env w) as (p & _ & _ & Hp).
  eexists p, _. split; [exact Hp |].
  destruct (s_singleton w) as [x |] eqn:Hs.
  - apply ctor_second_instance. congruence.
  - destruct (createDeviceEx env p) as [d |] eqn:Hd.
    + eapply ctor_device; eauto.
    + eapply ctor_no_device; eauto.
Qed.

(** ** Accessors on a ready engine *)

Lemma engine_ready_lookup w a e da d :
  engine_ready w a e da d -> engines w !! a = Some e.
Proof. intros (_ & He & _). rewrite He. apply lookup_singleton_eq. Qed.

Lemma getWindowSize_ready env w a e da d :
  engine_ready w a e da d ->
  getWindowSize (Some a) env w = Done (window_size e d) w.
Proof.
  intros H. pose proof (engine_ready_lookup _ _ _ _ _ H) as Hl.
  destruct H as (Hs & He & Hm & Hd).
  unfold getWindowSize, deref_engine, deref_device, window_size.
  unfold_monad. cbn. rewrite Hl. cbn.
  destruct (core e); [reflexivity |].
  rewrite Hm. cbn. rewrite Hd. reflexivity.
Qed.

Lemma get_video_driver_ready env w a e da d :
  engine_ready w a e da d ->
  get_video_driver env w = Done da w.
Proof.
  intros H. pose proof (engine_ready_lookup _ _ _ _ _ H) as Hl.
  destruct H as (Hs & He & Hm & Hd).
  unfold get_video_driver, deref_engine, deref_device.
  unfold_monad. cbn. rewrite Hs. cbn. rewrite Hl. cbn.
  rewrite Hm. cbn. rewrite Hd. reflexivity.
Qed.

Lemma engine_ready_video_log w a e da d l :
  engine_ready w a e da d -> engine_ready (set_video_log l w) a e da d.
Proof. intros H. exact H. Qed.

Lemma engine_ready_guienv w a e da d l :
  engine_ready w a e da d -> engine_ready (set_guienv l w) a e da d.
Proof. intros H. exact H. Qed.

Lemma engine_ready_cout w a e da d l :
  engine_ready w a e da d -> engine_ready (set_cout l w) a e da d.
Proof. intros H. exact H. Qed.

(** ** The UI layer *)

Lemma align_other a h v (e : addr * IGUIElement) :
  e.1 <> a -> align_element a h v e = e.
Proof. intros H. unfold align_element. now destruct (decide (e.1 = a)). Qed.

Lemma align_filter_others a h v (els : list (addr * IGUIElement)) :
  (forall e, e ∈ els -> e.1 <> a) ->
  filter (fun e => e.1 <> a) (align_element a h v <$> els) = els.
Proof.
  induction els as [| x els IH]; intros Hne; [reflexivity |].
  rewrite fmap_cons, align_other by (apply Hne; left).
  rewrite filter_cons_True by (apply Hne; left).
  f_equal. apply IH. intros e He. apply Hne. now right.
Qed.

Lemma fresh_not_in (els : list (addr * IGUIElement)) e :
  e ∈ els -> e.1 <> fresh (els.*1).
Proof.
  intros He Heq. apply (infinite_is_fresh (els.*1)).
  rewrite <- Heq. apply list_elem_of_fmap. now exists e.
Qed.

(** Aligning the text just added touches that text only. *)
Lemma align_added (els : list (addr * IGUIElement)) t r b ww h0 v0 h v :
  align_element (fresh (els.*1)) h v <$>
    (els ++ [(fresh (els.*1), StaticText t r b ww h0 v0)]) =
  els ++ [(fresh (els.*1), StaticText t r b ww h v)].
Proof.
  rewrite fmap_app. f_equal.
  - assert (H : forall e, e ∈ els -> e.1 <> fresh (els.*1))
      by apply fresh_not_in.
    revert H. generalize (fresh (els.*1)). intros a Ha.
    induction els as [| x els IH]; [reflexivity |].
    rewrite fmap_cons, align_other by (apply Ha; left).
    f_equal. apply IH. intros e He. apply Ha. now right.
  - cbn. unfold align_element. cbn.
    destruct (decide (fresh (els.*1) = fresh (els.*1))); [reflexivity |].
    contradiction.
Qed.

(** Adding a text at a fresh address, aligning it and removing it again
    leaves the layer as it was. *)
Lemma add_align_remove (els : list (addr * IGUIElement)) elem h v :
  filter (fun e => e.1 <> fresh (els.*1))
    (align_element (fresh (els.*1)) h v <$> (els ++ [(fresh (els.*1), elem)]))
  = els.
Proof.
  set (a := fresh (els.*1)).
  assert (Hfresh : forall e, e ∈ els -> e.1 <> a).
  { intros e He Heq. apply (infinite_is_fresh (els.*1)).
    fold a. rewrite <- Heq. apply list_elem_of_fmap. now exists e. }
  rewrite fmap_app, filter_app, align_filter_others by exact Hfresh.
  replace (filter (fun e => e.1 <> a) (align_element a h v <$> [(a, elem)]))
    with (@nil (addr * IGUIElement)); [apply app_nil_r |].
  change (align_element a h v <$> [(a, elem)])
    with [align_element a h v (a, elem)].
  rewrite filter_cons_False, filter_nil; [reflexivity |].
  intros Hne. apply Hne. unfold align_element. cbn.
  destruct (decide (a = a)); [| contradiction].
  destruct elem; reflexivity.
Qed.

(** ** Weakest preconditions *)

Lemma wp_bind {A B} (m : M A) (f : A -> M B) env w Q :
  wp m env w (fun a w1 => wp (f a) env w1 Q) -> wp (m ≫= f) env w Q.
Proof.
  unfold wp, mbind, M_bind. destruct (m env w); auto.
Qed.

Lemma wp_ret {A} (a : A) env w (Q : A -> World -> Prop) :
  Q a w -> wp (mret a) env w Q.
Proof. auto. Qed.

Lemma wp_ask env w (Q : Env -> World -> Prop) : Q env w -> wp ask env w Q.
Proof. auto. Qed.

Lemma wp_gets {A} (g : World -> A) env w (Q : A -> World -> Prop) :
  Q (g w) w -> wp (gets g) env w Q.
Proof. auto. Qed.

Lemma wp_modify (g : World -> World) env w (Q : unit -> World -> Prop) :
  Q tt (g w) -> wp (modify g) env w Q.
Proof. auto. Qed.

Lemma wp_run {A} (m : M A) env w a w1 (Q : A -> World -> Prop) :
  m env w = Done a w1 -> Q a w1 -> wp m env w Q.
Proof. unfold wp. intros ->. auto. Qed.

Lemma wp_elim {A} (m : M A) env w (Q : A -> World -> Prop) :
  wp m env w Q -> exists a w1, m env w = Done a w1 /\ Q a w1.
Proof. unfold wp. destruct (m env w); [eauto | contradiction]. Qed.

Lemma wp_done {A} (m : M A) env w a w1 :
  wp m env w (fun a' w' => a' = a /\ w' = w1) -> m env w = Done a w1.
Proof. intros H. apply wp_elim in H as (? & ? & -> & -> & ->). reflexivity. Qed.

Ltac simpl_world :=
  unfold set_s_singleton, set_engines, set_devices, set_receivers, set_guienv,
    set_video_log, set_cout, set_errorstream in *;
  cbn [s_singleton engines devices receivers guienv video_log cout
       errorstream] in *.

Ltac use_ready :=
  match goal with
  | H : engine_ready _ _ _ _ _ |- _ => exact H
  end.

Ltac wp_step :=
  lazymatch goal with
  | |- wp (_ ≫= _) _ _ _ => apply wp_bind
  | |- wp (mret _) _ _ _ => apply wp_ret
  | |- wp ask _ _ _ => apply wp_ask
  | |- wp get_instance _ _ _ => apply wp_gets
  | |- wp (gets _) _ _ _ => apply wp_gets
  | |- wp (modify _) _ _ _ => apply wp_modify
  | |- wp (call _) _ _ _ => apply wp_modify
  | |- wp (print _) _ _ _ => apply wp_modify
  | |- wp (log_error _) _ _ _ => apply wp_modify
  | |- wp (remove _) _ _ _ => apply wp_modify
  | |- wp (setTextAlignment _ _ _) _ _ _ => apply wp_modify
  | |- wp drawAll _ _ _ => unfold drawAll
  | |- wp (addStaticText _ _ _ _) _ _ _ => unfold addStaticText
  | |- wp get_video_driver _ _ _ =>
      eapply wp_run; [eapply get_video_driver_ready; use_ready |]
  | |- wp (getWindowSize _) _ _ _ =>
      eapply wp_run; [eapply getWindowSize_ready; use_ready |]
  | |- wp (if ?b then _ else _) _ _ _ => destruct b eqn:?
  | |- wp (match ?o with _ => _ end) _ _ _ => destruct o eqn:?
  end; cbv beta zeta; simpl_world.

Lemma draw_menu_scene_run env w a e da d dtime clouds :
  engine_ready w a e da d ->
  _draw_menu_scene dtime clouds env w =
    Done tt
      (set_video_log
         (video_log w ++
          (if clouds && getBool (g_settings env) "menu_clouds"
           then [CloudsStep (float_mul dtime float_of_3); CloudsRender;
                 BeginScene true true (mk_SColor 255 140 186 250);
                 CloudsMgrDrawAll]
           else [BeginScene true true (mk_SColor 255 0 0 0)]) ++
          [GuiDrawAll (guienv w); EndScene]) w).
Proof.
  intros H. apply wp_done. unfold _draw_menu_scene.
  destruct w as [sing es ds rs gui vlog co err].
  repeat wp_step; (split; [reflexivity |]);
    rewrite <- ?app_assoc; reflexivity.
Qed.

(** ** The progress bar *)

(** The width of a destination rectangle: whatever the position [p] of the
    left edge, and however the [u32] sum wrapped on its way to [s32], the
    rectangle is [k] pixels wide. *)
Lemma dest_width p y y2 k :
  in_s32 k ->
  getWidth (rect_xyxy p y (wrap_s32 (wrap_u32 (wrap_u32 p + k))) y2) = k.
Proof.
  intros Hk. unfold getWidth, rect_xyxy. cbn.
  rewrite wrap_s32_u32, wrap_s32_sub_l.
  rewrite <- (wrap_s32_small k Hk) at 2.
  unfold wrap_s32, wrap_u32. f_equal.
  rewrite (Z.mod_eq p (2 ^ 32)) by lia.
  replace (p - 2 ^ 32 * (p / 2 ^ 32) + k - p + 2 ^ 31)
    with (k + 2 ^ 31 + (- (p / 2 ^ 32)) * 2 ^ 32) by lia.
  apply Z.mod_add. lia.
Qed.

Lemma percent_range percent :
  (percent >=? 0) && (percent <=? 100) = true <-> 0 <= percent <= 100.
Proof.
  rewrite andb_true_iff, Z.geb_le, Z.leb_le. tauto.
Qed.

(** The filled part of a bar of width [imgW], as the code computes it. *)
Lemma filled_width percent imgW :
  0 <= percent <= 100 -> 200 <= imgW <= 600 ->
  wrap_u32 (wrap_u32 percent * imgW) / 100 = (percent * imgW) / 100 /\
  0 <= (percent * imgW) / 100 <= imgW.
Proof.
  intros Hp Hw.
  assert (0 <= percent * imgW <= 100 * imgW) by nia.
  rewrite (wrap_u32_small percent) by (unfold in_u32; lia).
  rewrite wrap_u32_small by (unfold in_u32; lia).
  split; [reflexivity |].
  split; [apply Z.div_pos; lia |].
  apply Z.div_le_upper_bound; lia.
Qed.

(** ** The loading screen, run on a ready engine *)

Ltac finish_frame :=
  split; [reflexivity |]; simpl_world;
  rewrite ?add_align_remove, ?align_added; rewrite <- ?app_assoc; cbn [app];
  reflexivity.

Lemma draw_load_screen_run env w a e da d text tsrc dtime percent clouds :
  engine_ready w a e da d ->
  exists textrect bar,
    _draw_load_screen text tsrc dtime percent clouds env w =
      Done tt
        (set_video_log
           (video_log w ++
            (if clouds && getBool (g_settings env) "menu_clouds"
             then [CloudsStep (float_mul dtime float_of_3); CloudsRender;
                   BeginScene true true (mk_SColor 255 140 186 250);
                   CloudsMgrDrawAll]
             else [BeginScene true true (mk_SColor 255 0 0 0)]) ++
            bar ++
            [GuiDrawAll
               (guienv w ++
                [(fresh ((guienv w).*1),
                  StaticText (c_wstr text) textrect false false
                    EGUIA_CENTER EGUIA_UPPERLEFT)]);
             EndScene]) w) /\
    match (percent >=? 0) && (percent <=? 100),
          tsrc "progress_bar.png"%string, tsrc "progress_bar_bg.png"%string with
    | true, Some img, Some img_bg =>
        exists dest_bg dest,
          bar =
            [Draw2DImageFilterScaled img_bg dest_bg
               (rect_xyxy 0 0 (wrap_s32 (Width (getSize img_bg)))
                  (wrap_s32 (Height (getSize img_bg)))) true;
             Draw2DImageFilterScaled img dest
               (rect_xyxy 0 0
                  (wrap_s32 (wrap_u32 (percent * Width (getSize img_bg)) / 100))
                  (wrap_s32 (Height (getSize img_bg)))) true] /\
          UpperLeftCorner dest = UpperLeftCorner dest_bg /\
          getWidth dest_bg = rangelim (Width (getSize img_bg)) 200 600 /\
          getWidth dest = (percent * rangelim (Width (getSize img_bg)) 200 600) / 100
    | _, _, _ => bar = []
    end.
Proof.
  intros H. unfold _draw_load_screen.
  destruct w as [sing es ds rs gui vlog co err].
  pose proof (proj1 H) as Hs. cbn in Hs. subst sing.
  destruct ((percent >=? 0) && (percent <=? 100)) eqn:Hp;
    try (destruct (tsrc "progress_bar.png"%string) as [img |] eqn:Himg;
         [destruct (tsrc "progress_bar_bg.png"%string) as [img_bg |] eqn:Hbg |]).
  all: try (eexists _, [];
            split; [apply wp_done; repeat wp_step; finish_frame | reflexivity]).
  eexists _, [Draw2DImageFilterScaled _ _ _ _; Draw2DImageFilterScaled _ _ _ _].
  split; [apply wp_done; repeat wp_step; finish_frame |].
  apply percent_range in Hp.
  pose proof (rangelim_bounds (Width (getSize img_bg)) 200 600 ltac:(lia)) as Hw.
  destruct (filled_width percent _ Hp Hw) as [Hf Hfb].
  rewrite Hf. rewrite (wrap_u32_small percent) by (unfold in_u32; lia).
  eexists _, _. split; [reflexivity |].
  split; [reflexivity |].
  split; apply dest_width; unfold in_s32; lia.
Qed.

(** ** Probe devices *)

Lemma fresh_device_free (ds : gmap addr IrrlichtDevice) :
  ds !! fresh (dom ds) = None.
Proof. apply not_elem_of_dom, is_fresh. Qed.

(** A device created and dropped within one call leaves the store as it
    was. *)
Lemma create_then_drop (ds : gmap addr IrrlichtDevice) d :
  delete (fresh (dom ds)) (<[fresh (dom ds) := d]> ds) = ds.
Proof. apply delete_insert_id, fresh_device_free. Qed.

Lemma new_then_delete_receiver (rs : gset addr) :
  ({[fresh rs]} ∪ rs) ∖ {[fresh rs]} = rs.
Proof.
  pose proof (is_fresh rs) as Hf. apply set_eq. intros x.
  rewrite elem_of_difference, elem_of_union, elem_of_singleton.
  split; [tauto |]. intros Hx. split; [tauto | congruence].
Qed.

Lemma print_modes_run modes : forall env w,
  print_modes modes env w =
    Done tt
      (set_cout
         (cout w ++ map (fun m => ModeLine (Width m.1) (Height m.1) m.2) modes)
         w).
Proof.
  induction modes as [| m rest IH]; intros env w.
  - cbn. rewrite app_nil_r. now destruct w.
  - cbn [print_modes]. erewrite bind_done by reflexivity.
    rewrite IH. destruct w. cbn. now rewrite <- app_assoc.
Qed.

(** The lines [print_video_modes] writes for a mode list. *)
Lemma print_video_modes_run env w :
  exists params,
    DriverType params = EDT_NULL /\
    match createDeviceEx env params with
    | None => print_video_modes env w = Done false w
    | Some dev =>
        print_video_modes env w =
          Done (bool_decide (getVideoModeList dev <> None))
            (set_cout
               (cout w ++ Line "Available video modes (WxHxD):" ::
                match getVideoModeList dev with
                | Some l =>
                    map (fun m => ModeLine (Width m.1) (Height m.1) m.2)
                      (VideoModes l) ++
                    [Line "Active video mode (WxHxD):";
                     ModeLine (Width (getDesktopResolution l))
                       (Height (getDesktopResolution l)) (getDesktopDepth l)]
                | None => []
                end) w)
    end.
Proof.
  exists {| DriverType := EDT_NULL;
            WindowSize := mk_dim 640 480;
            Bits := 24;
            ZBufferBits := 16;
            Fullscreen := false;
            Stencilbuffer := false;
            Vsync := getBool (g_settings env) "vsync";
            AntiAlias := getU16 (g_settings env) "fsaa" mod 256;
            Stereobuffer := false;
            HighPrecisionFPU := getBool (g_settings env) "high_precision_fpu";
            EventReceiver := Some (fresh (receivers w)) |}.
  split; [reflexivity |].
  unfold print_video_modes, new_MyEventReceiver, delete_receiver.
  unfold_monad. destruct w as [sing es ds rs gui vlog co err]. cbn.
  destruct (createDeviceEx env _) as [dev |] eqn:Hdev.
  - unfold new_device, drop, deref_device. unfold_monad. cbn.
    rewrite lookup_insert_eq. cbn.
    destruct (getVideoModeList dev) as [l |] eqn:Hl; cbn.
    + rewrite print_modes_run. cbn. rewrite lookup_insert_eq. cbn.
      rewrite create_then_drop, new_then_delete_receiver.
      rewrite <- !app_assoc. reflexivity.
    + rewrite lookup_insert_eq. cbn.
      rewrite create_then_drop, new_then_delete_receiver. reflexivity.
  - cbn. rewrite new_then_delete_receiver. reflexivity.
Qed.

Lemma getSupportedVideoModes_run env w :
  match createDevice env EDT_NULL with
  | None =>
      getSupportedVideoModes env w = Fatal (SanityCheckFailed "nulldevice") w
  | Some dev =>
      match getVideoModeList dev with
      | None =>
          exists w1,
            getSupportedVideoModes env w = Fatal (NullDereference "modelist") w1
      | Some modelist =>
          getSupportedVideoModes env w =
            Done (map (fun m => (Width m.1, Height m.1, wrap_u32 m.2))
                    (VideoModes modelist)) w
      end
  end.
Proof.
  unfold getSupportedVideoModes, new_device, drop, deref_device. unfold_monad.
  destruct w as [sing es ds rs gui vlog co err]. cbn.
  destruct (createDevice env EDT_NULL) as [dev |]; cbn; [| reflexivity].
  rewrite lookup_insert_eq. cbn.
  destruct (getVideoModeList dev) as [l |]; cbn; [| eauto].
  rewrite lookup_insert_eq. cbn. now rewrite create_then_drop.
Qed.

Lemma getDisplaySize_run env w :
  match createDevice env EDT_NULL with
  | None => getDisplaySize env w = Fatal (NullDereference "nulldevice") w
  | Some dev =>
      match getVideoModeList dev with
      | None =>
          exists w1,
            getDisplaySize env w =
              Fatal (NullDereference "getVideoModeList()") w1
      | Some l =>
          getDisplaySize env w =
            Done (v2u32_of_dimension (getDesktopResolution l)) w
      end
  end.
Proof.
  unfold getDisplaySize, new_device, drop, deref_device. unfold_monad.
  destruct w as [sing es ds rs gui vlog co err]. cbn.
  destruct (createDevice env EDT_NULL) as [dev |]; cbn; [| reflexivity].
  rewrite lookup_insert_eq. cbn.
  destruct (getVideoModeList dev) as [l |]; cbn; [| eauto].
  rewrite lookup_insert_eq. cbn. now rewrite create_then_drop.
Qed.

(** ** The strategy handle *)

Lemma draw_scene_run env w a e skycolor show_hud show_minimap draw_wield_tool
    draw_crosshair :
  engines w !! a = Some e ->
  _draw_scene (Some a) skycolor show_hud show_minimap draw_wield_tool
      draw_crosshair env w =
    match core e with
    | Some c =>
        Done tt
          (set_video_log
             (video_log w ++
              [CoreDraw c skycolor show_hud show_minimap draw_wield_tool
                 draw_crosshair]) w)
    | None => Fatal (NullDereference "core") w
    end.
Proof.
  intros He. unfold _draw_scene, deref_engine. unfold_monad. cbn.
  rewrite He. cbn. destruct (core e); reflexivity.
Qed.

Lemma initialize_run env w a e client hud :
  engines w !! a = Some e ->
  _initialize (Some a) client hud env w =
    let c := createRenderingCore env (get (g_settings env) "3d_mode")
               (m_device e) client hud in
    Done tt
      (set_video_log (video_log w ++ [CoreInitialize c])
         (set_engines
            (<[a := mk_engine (m_device e) (driver e) (Some c)]> (engines w)) w)).
Proof.
  intros He. unfold _initialize, deref_engine. unfold_monad. cbn.
  rewrite He. reflexivity.
Qed.

Lemma finalize_run env w a e :
  engines w !! a = Some e ->
  _finalize (Some a) env w =
    Done tt
      (set_engines (<[a := mk_engine (m_device e) (driver e) None]> (engines w)) w).
Proof.
  intros He. unfold _finalize, deref_engine. unfold_monad. cbn.
  rewrite He. reflexivity.
Qed.

(** ** The destructor *)

Lemma dtor_run env w a e da d :
  engine_ready w a e da d ->
  exists ds',
    RenderingEngine_dtor a env w =
      Done tt (set_s_singleton None (set_engines ∅ (set_devices ds' w))).
Proof.
  intros H. pose proof (engine_ready_lookup _ _ _ _ _ H) as Hl.
  destruct H as (Hs & He & Hm & Hd).
  destruct w as [sing es ds rs gui vlog co err]. cbn in *. subst sing es.
  unfold RenderingEngine_dtor, deref_engine, drop, deref_device.
  unfold_monad. cbn. rewrite lookup_singleton_eq. cbn.
  rewrite Hm. cbn. rewrite Hd. cbn.
  destruct (ReferenceCounter d <=? 1)%nat; cbn;
    rewrite insert_singleton_eq, delete_singleton_eq; eauto.
Qed.

Lemma dtor_needs_engine env w this w' :
  RenderingEngine_dtor this env w = Done tt w' ->
  exists e, engines w !! this = Some e.
Proof.
  unfold RenderingEngine_dtor, deref_engine. unfold_monad. cbn.
  destruct (engines w !! this) as [e |]; [eauto | discriminate].
Qed.

(** ** The singleton invariant *)

Lemma singleton_inv_initial : singleton_inv initial_world.
Proof. reflexivity. Qed.

Lemma singleton_inv_same w w' :
  same_process w w' -> singleton_inv w -> singleton_inv w'.
Proof.
  intros (Hs & He & Hd). unfold singleton_inv, engine_ready.
  now rewrite Hs, He, Hd.
Qed.

Lemma same_process_video_log w l : same_process w (set_video_log l w).
Proof. repeat split. Qed.

Lemma same_process_cout w l : same_process w (set_cout l w).
Proof. repeat split. Qed.

Lemma same_process_refl w : same_process w w.
Proof. repeat split. Qed.

Lemma without_singleton_load_screen env w text tsrc dtime percent clouds :
  s_singleton w = None ->
  _draw_load_screen text tsrc dtime percent clouds env w =
    Fatal (NullDereference "this") w.
Proof.
  intros Hs. unfold _draw_load_screen.
  erewrite bind_done by reflexivity.
  apply bind_fatal. rewrite Hs. reflexivity.
Qed.

Lemma without_singleton_menu_scene env w dtime clouds :
  s_singleton w = None ->
  is_done (_draw_menu_scene dtime clouds env w) = false.
Proof.
  intros Hs. unfold _draw_menu_scene, get_video_driver, deref_engine.
  unfold_monad. destruct w as [sing es ds rs gui vlog co err].
  cbn in *. subst sing.
  destruct (clouds && getBool (g_settings env) "menu_clouds"); reflexivity.
Qed.

Lemma new_RenderingEngine_inv env receiver w this w' :
  singleton_inv w ->
  new_RenderingEngine receiver env w = Done this w' ->
  exists e da d, engine_ready w' this e da d /\ core e = None.
Proof.
  intros Hinv. unfold new_RenderingEngine.
  erewrite bind_done by reflexivity. intros Hrun.
  apply bind_inv in Hrun as ([] & w1 & Hctor & Hret).
  inversion Hret; subst; clear Hret.
  destruct (ctor_cases (fresh (dom (engines w))) receiver env w)
    as (p & w0 & Hp & Hcase).
  apply creation_parameters_frame in Hp as (Hs0 & He0 & Hd0 & _).
  unfold singleton_inv in Hinv.
  destruct (s_singleton w) as [x |]; [congruence |].
  destruct (createDeviceEx env p) as [d |]; [| congruence].
  rewrite Hcase in Hctor. inversion Hctor; subst; clear Hctor.
  eexists _, _, _. split.
  - unfold engine_ready. cbn. rewrite He0, Hinv.
    split; [reflexivity |]. split; [reflexivity |]. split; [reflexivity |].
    apply lookup_insert_eq.
  - reflexivity.
Qed.

Lemma perform_preserves env w a w' :
  singleton_inv w -> perform a env w = Done tt w' -> singleton_inv w'.
Proof.
  intros Hinv Hrun. destruct a; cbn [perform] in Hrun.
  - (* Construct *)
    apply bind_inv in Hrun as (this & w1 & Hnew & Hret).
    inversion Hret; subst; clear Hret.
    destruct (new_RenderingEngine_inv _ _ _ _ _ Hinv Hnew) as (e & da & d & H & _).
    unfold singleton_inv. rewrite (proj1 H). eauto.
  - (* Destroy *)
    destruct (dtor_needs_engine _ _ _ _ Hrun) as (e & He).
    unfold singleton_inv in Hinv.
    destruct (s_singleton w) as [a |] eqn:Hs.
    + destruct Hinv as (e0 & da & d & H).
      assert (this = a) as ->.
      { destruct H as (_ & Hes & _). rewrite Hes in He.
        apply lookup_singleton_Some in He. symmetry. apply He. }
      destruct (dtor_run env _ _ _ _ _ H) as (ds' & Hd).
      rewrite Hd in Hrun. inversion Hrun; subst. reflexivity.
    + rewrite Hinv in He. rewrite lookup_empty in He. discriminate.
  - (* Initialize *)
    erewrite bind_done in Hrun by reflexivity.
    unfold singleton_inv in Hinv.
    destruct (s_singleton w) as [a |] eqn:Hs; [| discriminate].
    destruct Hinv as (e & da & d & H).
    rewrite (initialize_run _ _ _ _ _ _ (engine_ready_lookup _ _ _ _ _ H)) in Hrun.
    inversion Hrun; subst; clear Hrun.
    destruct H as (_ & Hes & Hm & Hd).
    unfold singleton_inv, engine_ready. cbn. rewrite Hs, Hes, insert_singleton_eq.
    eexists _, da, d. repeat split; assumption.
  - (* Finalize *)
    erewrite bind_done in Hrun by reflexivity.
    unfold singleton_inv in Hinv.
    destruct (s_singleton w) as [a |] eqn:Hs; [| discriminate].
    destruct Hinv as (e & da & d & H).
    rewrite (finalize_run _ _ _ _ (engine_ready_lookup _ _ _ _ _ H)) in Hrun.
    inversion Hrun; subst; clear Hrun.
    destruct H as (_ & Hes & Hm & Hd).
    unfold singleton_inv, engine_ready. cbn. rewrite Hs, Hes, insert_singleton_eq.
    eexists _, da, d. repeat split; assumption.
  - (* DrawScene *)
    erewrite bind_done in Hrun by reflexivity.
    unfold singleton_inv in Hinv.
    destruct (s_singleton w) as [a |] eqn:Hs; [| discriminate].
    destruct Hinv as (e & da & d & H).
    rewrite (draw_scene_run _ _ _ _ _ _ _ _ _ (engine_ready_lookup _ _ _ _ _ H))
      in Hrun.
    destruct (core e); inversion Hrun; subst.
    eapply singleton_inv_same; [apply same_process_video_log |].
    unfold singleton_inv. rewrite Hs. eauto.
  - (* DrawLoadScreen *)
    pose proof Hinv as Hinv'. unfold singleton_inv in Hinv.
    destruct (s_singleton w) as [a |] eqn:Hs.
    + destruct Hinv as (e & da & d & H).
      destruct (draw_load_screen_run env w a e da d text tsrc dtime percent
                  clouds H) as (r & bar & Hd & _).
      rewrite Hd in Hrun. inversion Hrun; subst.
      eapply singleton_inv_same; [apply same_process_video_log | exact Hinv'].
    + rewrite without_singleton_load_screen in Hrun by exact Hs. discriminate.
  - (* DrawMenuScene *)
    pose proof Hinv as Hinv'. unfold singleton_inv in Hinv.
    destruct (s_singleton w) as [a |] eqn:Hs.
    + destruct Hinv as (e & da & d & H).
      rewrite (draw_menu_scene_run env w a e da d dtime clouds H) in Hrun.
      inversion Hrun; subst.
      eapply singleton_inv_same; [apply same_process_video_log | exact Hinv'].
    + pose proof (without_singleton_menu_scene env w dtime clouds Hs) as Hf.
      rewrite Hrun in Hf. discriminate.
  - (* PrintVideoModes *)
    apply bind_inv in Hrun as (b & w1 & Hp & Hret).
    inversion Hret; subst; clear Hret.
    destruct (print_video_modes_run env w) as (params & _ & Hcase).
    destruct (createDeviceEx env params); rewrite Hcase in Hp;
      inversion Hp; subst; [| exact Hinv].
    eapply singleton_inv_same; [apply same_process_cout | exact Hinv].
  - (* GetSupportedVideoModes *)
    apply bind_inv in Hrun as (b & w1 & Hp & Hret).
    inversion Hret; subst; clear Hret.
    pose proof (getSupportedVideoModes_run env w) as Hcase.
    destruct (createDevice env EDT_NULL) as [dev |]; [| congruence].
    destruct (getVideoModeList dev); [| destruct Hcase; congruence].
    rewrite Hcase in Hp. inversion Hp; subst. exact Hinv.
  - (* GetDisplaySize *)
    apply bind_inv in Hrun as (b & w1 & Hp & Hret).
    inversion Hret; subst; clear Hret.
    pose proof (getDisplaySize_run env w) as Hcase.
    destruct (createDevice env EDT_NULL) as [dev |]; [| congruence].
    destruct (getVideoModeList dev); [| destruct Hcase; congruence].
    rewrite Hcase in Hp. inversion Hp; subst. exact Hinv.
Qed.

(** In every state of a running process the singleton pointer and the
    engines alive agree. *)
Lemma reachable_singleton_inv env w : reachable env w -> singleton_inv w.
Proof.
  induction 1 as [| w a w' _ IH Hstep].
  - apply singleton_inv_initial.
  - eapply perform_preserves; eauto.
Qed.

Lemma singleton_inv_size w : singleton_inv w -> (live_engines w <= 1)%nat.
Proof.
  unfold singleton_inv, live_engines.
  destruct (s_singleton w).
  - intros (e & da & d & _ & He & _). rewrite He, map_size_singleton. lia.
  - intros ->. rewrite map_size_empty. lia.
Qed.

(** * The claims *)

(** C1.  When [createDeviceEx] returns no device the constructor does not
    return: it stops at the access through the null [m_device] (a null
    dereference, fatal to the process), after the parameters were determined.
    Whenever the constructor does return, the engine it built holds a
    non-null handle to a live device, and this stays so in every state a
    running process reaches. *)
Theorem constructor_needs_device env this receiver w :
  exists p w1,
    creation_parameters receiver env w = Done p w1 /\
    (createDeviceEx env p = None ->
       is_done (RenderingEngine_ctor this receiver env w) = false /\
       (s_singleton w = None ->
          RenderingEngine_ctor this receiver env w =
            Fatal (NullDereference "m_device") w1)) /\
    (forall w',
       RenderingEngine_ctor this receiver env w = Done tt w' ->
       exists e da d,
         createDeviceEx env p = Some d /\
         engines w' !! this = Some e /\ m_device e = Some da /\
         is_Some (devices w' !! da)) /\
    (reachable env w ->
       forall a e, engines w !! a = Some e ->
       exists da, m_device e = Some da /\ is_Some (devices w !! da)).
Proof.
  destruct (ctor_cases this receiver env w) as (p & w1 & Hp & Hcase).
  exists p, w1. split; [exact Hp |]. split; [| split].
  - intros Hnone. rewrite Hnone in Hcase.
    destruct (s_singleton w); rewrite Hcase; split; auto; discriminate.
  - intros w' Hdone.
    destruct (s_singleton w); [congruence |].
    destruct (createDeviceEx env p) as [d |]; [| congruence].
    rewrite Hcase in Hdone. inversion Hdone; subst.
    eexists _, _, d. split; [reflexivity |]. cbn.
    split; [apply lookup_insert_eq |]. split; [reflexivity |].
    rewrite lookup_insert_eq. eauto.
  - intros Hreach a e He.
    apply reachable_singleton_inv in Hreach. unfold singleton_inv in Hreach.
    destruct (s_singleton w) as [a0 |].
    + destruct Hreach as (e0 & da & d & _ & Hes & Hm & Hd).
      rewrite Hes in He. apply lookup_singleton_Some in He as [_ <-].
      exists da. split; [exact Hm | eauto].
    + rewrite Hreach, lookup_empty in He. discriminate.
Qed.

Lemma constructor_needs_device_witness :
  RenderingEngine_ctor 0%nat None (headless "null") initial_world =
    Fatal (NullDereference "m_device") initial_world.
Proof.
  destruct (constructor_needs_device (headless "null") 0%nat None initial_world)
    as (p & w1 & Hp & Hnull & _).
  vm_compute in Hp. inversion Hp; subst; clear Hp.
  apply Hnull; reflexivity.
Defined.

(** C2.  In every state of a running process at most one [RenderingEngine]
    is alive, and it is the one [s_singleton] points to.  A constructor that
    starts while the pointer is non-null stops at [sanity_check(!s_singleton)];
    a construction that returns has set the pointer to the new engine; the
    teardown of the engine the pointer names returns, and it has cleared the
    pointer and left no engine alive; no other teardown returns. *)
Theorem single_instance env w :
  reachable env w ->
  (live_engines w <= 1)%nat /\
  (forall a, is_Some (engines w !! a) <-> s_singleton w = Some a) /\
  (forall this receiver,
     s_singleton w <> None ->
     RenderingEngine_ctor this receiver env w =
       Fatal (SanityCheckFailed "!s_singleton") w) /\
  (forall receiver this w',
     new_RenderingEngine receiver env w = Done this w' ->
     s_singleton w = None /\ s_singleton w' = Some this /\
     is_Some (engines w' !! this) /\ live_engines w' = 1%nat) /\
  (forall this,
     s_singleton w = Some this ->
     exists w',
       RenderingEngine_dtor this env w = Done tt w' /\
       s_singleton w' = None /\ engines w' = ∅ /\ live_engines w' = 0%nat) /\
  (forall this w',
     RenderingEngine_dtor this env w = Done tt w' ->
     s_singleton w = Some this /\ s_singleton w' = None /\ engines w' = ∅).
Proof.
  intros Hreach. pose proof (reachable_singleton_inv _ _ Hreach) as Hinv.
  split; [now apply singleton_inv_size |].
  split; [| split; [| split; [| split]]].
  - intros a. unfold singleton_inv in Hinv.
    destruct (s_singleton w) as [a0 |].
    + destruct Hinv as (e & da & d & _ & Hes & _). rewrite Hes. split.
      * intros [x Hx]. apply lookup_singleton_Some in Hx as [-> _]. reflexivity.
      * intros [= ->]. rewrite lookup_singleton_eq. eauto.
    + rewrite Hinv, lookup_empty. split; [intros [x Hx] |]; discriminate.
  - intros this receiver Hs. now apply ctor_second_instance.
  - intros receiver this w' Hnew.
    destruct (new_RenderingEngine_inv _ _ _ _ _ Hinv Hnew)
      as (e & da & d & (Hs' & Hes' & _) & _).
    split; [| split; [exact Hs' | split]].
    + destruct (s_singleton w) as [x |] eqn:Hs; [| reflexivity].
      unfold new_RenderingEngine in Hnew.
      erewrite bind_done in Hnew by reflexivity.
      erewrite bind_fatal in Hnew; [discriminate |].
      apply ctor_second_instance. congruence.
    + rewrite Hes', lookup_singleton_eq. eauto.
    + unfold live_engines. rewrite Hes'. apply map_size_singleton.
  - intros this Hs. unfold singleton_inv in Hinv. rewrite Hs in Hinv.
    destruct Hinv as (e & da & d & H).
    destruct (dtor_run env _ _ _ _ _ H) as (ds' & Hd).
    eexists. split; [exact Hd |]. repeat split.
  - intros this w' Hdtor.
    destruct (dtor_needs_engine _ _ _ _ Hdtor) as (e & He).
    unfold singleton_inv in Hinv.
    destruct (s_singleton w) as [a |] eqn:Hs.
    + destruct Hinv as (e0 & da & d & H).
      assert (this = a) as ->.
      { destruct H as (_ & Hes & _). rewrite Hes in He.
        apply lookup_singleton_Some in He. symmetry. apply He. }
      destruct (dtor_run env _ _ _ _ _ H) as (ds' & Hd).
      rewrite Hd in Hdtor. inversion Hdtor; subst. auto.
    + rewrite Hinv, lookup_empty in He. discriminate.
Qed.

Lemma reachable_world_with_engine :
  reachable (desktop "opengl") world_with_engine.
Proof.
  apply (reachable_step _ initial_world (Construct None));
    [apply reachable_initial | reflexivity].
Defined.

Lemma single_instance_witness :
  RenderingEngine_ctor 1%nat None (desktop "opengl") world_with_engine =
    Fatal (SanityCheckFailed "!s_singleton") world_with_engine /\
  exists w',
    RenderingEngine_dtor 0%nat (desktop "opengl") world_with_engine =
      Done tt w' /\
    s_singleton w' = None /\ engines w' = ∅ /\ live_engines w' = 0%nat.
Proof.
  destruct (single_instance (desktop "opengl") world_with_engine
              reachable_world_with_engine)
    as (_ & _ & Hctor & _ & Hdtor & _).
  split.
  - apply Hctor. vm_compute. discriminate.
  - apply Hdtor. reflexivity.
Defined.

(** C3.  [getWindowSize] on an engine returns the virtual size of the
    strategy in [core] when there is one, and the current screen size of the
    device's video driver when there is none; in every state a running
    process reaches that device exists, so the call always returns. *)
Theorem window_size_source env w this e :
  engines w !! this = Some e ->
  (forall c, core e = Some c ->
     getWindowSize (Some this) env w = Done (getVirtualSize c) w) /\
  (core e = None ->
     forall da d, m_device e = Some da -> devices w !! da = Some d ->
     getWindowSize (Some this) env w =
       Done (v2u32_of_dimension (getScreenSize (getVideoDriver d))) w) /\
  (reachable env w ->
     exists da d, m_device e = Some da /\ devices w !! da = Some d /\
       getWindowSize (Some this) env w = Done (window_size e d) w).
Proof.
  intros He. split; [| split].
  - intros c Hc. unfold getWindowSize, deref_engine. unfold_monad. cbn.
    rewrite He. cbn. now rewrite Hc.
  - intros Hc da d Hm Hd.
    unfold getWindowSize, deref_engine, deref_device. unfold_monad. cbn.
    rewrite He. cbn. rewrite Hc, Hm. cbn. now rewrite Hd.
  - intros Hreach.
    apply reachable_singleton_inv in Hreach. unfold singleton_inv in Hreach.
    destruct (s_singleton w) as [a0 |] eqn:Hs.
    + destruct Hreach as (e0 & da & d & H).
      pose proof H as (_ & Hes & Hm & Hd).
      rewrite Hes in He. apply lookup_singleton_Some in He as [<- <-].
      exists da, d. split; [exact Hm |]. split; [exact Hd |].
      now apply getWindowSize_ready with da.
    + rewrite Hreach, lookup_empty in He. discriminate.
Qed.

Lemma window_size_source_witness :
  getWindowSize (Some 0%nat) (desktop "opengl") world_in_session =
    Done (mk_v2 800 600) world_in_session.
Proof.
  pose (c := mk_core "mono" (Some 0%nat) 1%nat 2%nat (mk_v2 800 600)).
  apply (proj1 (window_size_source (desktop "opengl") world_in_session 0%nat
                  (mk_engine (Some 0%nat) (Some 0%nat) (Some c)) eq_refl)
           c eq_refl).
Defined.

(** C4.  The constructor compares the configured driver name with the name
    of each supported driver, in the order of the enumeration, by
    [strcasecmp], which is 0 exactly when the two names are equal up to the
    case of their letters, and takes the first driver that matches.  When no
    supported driver matches, it writes "Invalid video_driver specified;
    defaulting to opengl" to [errorstream], asks for the OpenGL driver, and
    goes on to create the device: with a device created, the constructor
    returns. *)
Theorem driver_resolution env receiver w :
  let s := get (g_settings env) "video_driver" in
  let drivers := getSupportedVideoDrivers env in
  drivers = filter (fun t => isDriverSupported env t = true) driver_types /\
  (forall d,
     strcasecmp (c_str s) (c_str (getVideoDriverName d)) = 0 <-> same_name s d) /\
  (forall pre d post,
     drivers = pre ++ d :: post ->
     (forall x, x ∈ pre -> ~ same_name s x) ->
     same_name s d ->
     exists p,
       creation_parameters receiver env w = Done p w /\ DriverType p = d) /\
  ((forall x, x ∈ drivers -> ~ same_name s x) ->
     exists p,
       creation_parameters receiver env w =
         Done p (set_errorstream (errorstream w ++ [invalid_driver_message]) w) /\
       DriverType p = EDT_OPENGL /\
       forall this dev,
         s_singleton w = None ->
         createDeviceEx env p = Some dev ->
         exists w',
           RenderingEngine_ctor this receiver env w = Done tt w' /\
           s_singleton w' = Some this /\
           errorstream w' = errorstream w ++ [invalid_driver_message]).
Proof.
  intros s drivers. split; [apply getSupportedVideoDrivers_filter |].
  split; [intros d; apply strcasecmp_same_name |].
  destruct (creation_parameters_total receiver env w) as (p & Hty & _ & Hp).
  cbv zeta in Hty, Hp. fold s drivers in Hty, Hp.
  split.
  - intros pre d post Hdrivers Hno Hd.
    rewrite Hdrivers in Hty, Hp.
    rewrite (find_driver_first s EDT_OPENGL d post pre 0 Hno Hd) in Hty, Hp.
    cbn [fst snd] in Hty, Hp.
    replace ((0 + length pre)%nat =? length (pre ++ d :: post))%nat
      with false in Hp.
    + exists p. split; assumption.
    + symmetry. apply Nat.eqb_neq. rewrite length_app. cbn. lia.
  - intros Hno.
    rewrite (find_driver_none s EDT_OPENGL drivers 0 Hno) in Hty, Hp.
    cbn [fst snd] in Hty, Hp. rewrite Nat.add_0_l, Nat.eqb_refl in Hp.
    exists p. split; [exact Hp |]. split; [exact Hty |].
    intros this dev Hs Hdev.
    rewrite (ctor_device _ _ _ _ _ _ _ Hs Hp Hdev).
    eexists. split; [reflexivity |]. split; reflexivity.
Qed.

Lemma driver_resolution_witness :
  (exists p,
     creation_parameters None (desktop "OpenGL") initial_world =
       Done p initial_world /\ DriverType p = EDT_OPENGL) /\
  (exists p,
     creation_parameters None (desktop "not-a-driver") initial_world =
       Done p (set_errorstream [invalid_driver_message] initial_world) /\
     DriverType p = EDT_OPENGL).
Proof.
  split.
  - refine (proj1 (proj2 (proj2
      (driver_resolution (desktop "OpenGL") None initial_world)))
      [EDT_NULL; EDT_SOFTWARE; EDT_BURNINGSVIDEO] EDT_OPENGL [] _ _ _).
    + reflexivity.
    + intros x Hx Hsame. vm_compute in Hsame.
      rewrite !elem_of_cons in Hx.
      destruct Hx as [-> | [-> | [-> | Hx]]];
        [discriminate.. | inversion Hx].
    + reflexivity.
  - destruct (proj2 (proj2 (proj2
      (driver_resolution (desktop "not-a-driver") None initial_world))))
      as (p & Hp & Hty & _).
    + intros x Hx Hsame.
      change (getSupportedVideoDrivers (desktop "not-a-driver"))
        with [EDT_NULL; EDT_SOFTWARE; EDT_BURNINGSVIDEO; EDT_OPENGL] in Hx.
      rewrite !elem_of_cons in Hx.
      destruct Hx as [-> | [-> | [-> | [-> | Hx]]]];
        [discriminate.. | inversion Hx].
    + exists p. split; assumption.
Defined.

(** C5.  With a strategy in [core], [_draw_scene] passes its five arguments
    unchanged to the strategy's [draw].  It contains no assertion: without a
    strategy it goes through the null [core] pointer, a null dereference and
    not a failed [sanity_check]. *)
Theorem draw_scene_forwards env w this e skycolor show_hud show_minimap
    draw_wield_tool draw_crosshair :
  engines w !! this = Some e ->
  (forall c, core e = Some c ->
     _draw_scene (Some this) skycolor show_hud show_minimap draw_wield_tool
         draw_crosshair env w =
       Done tt
         (set_video_log
            (video_log w ++
             [CoreDraw c skycolor show_hud show_minimap draw_wield_tool
                draw_crosshair]) w)) /\
  (core e = None ->
     _draw_scene (Some this) skycolor show_hud show_minimap draw_wield_tool
         draw_crosshair env w =
       Fatal (NullDereference "core") w).
Proof.
  intros He.
  split; [intros c Hc | intros Hc];
    rewrite (draw_scene_run _ _ _ _ _ _ _ _ _ He), Hc; reflexivity.
Qed.

Lemma draw_scene_forwards_witness :
  let c := mk_core "mono" (Some 0%nat) 1%nat 2%nat (mk_v2 800 600) in
  _draw_scene (Some 0%nat) (mk_SColor 255 0 0 0) true false true false
      (desktop "opengl") world_in_session =
    Done tt
      (set_video_log
         (video_log world_in_session ++
          [CoreDraw c (mk_SColor 255 0 0 0) true false true false])
         world_in_session).
Proof.
  intros c.
  apply (proj1 (draw_scene_forwards (desktop "opengl") world_in_session 0%nat
                  (mk_engine (Some 0%nat) (Some 0%nat) (Some c))
                  (mk_SColor 255 0 0 0) true false true false eq_refl)
           c eq_refl).
Defined.

(** C5, as stated, fails: on an engine without a strategy no assertion
    catches the call. *)
Lemma draw_scene_no_assertion :
  (exists e, engines world_with_engine !! 0%nat = Some e /\ core e = None) /\
  _draw_scene (Some 0%nat) (mk_SColor 255 0 0 0) true true true true
      (desktop "opengl") world_with_engine =
    Fatal (NullDereference "core") world_with_engine /\
  ~ (exists assertion w',
       _draw_scene (Some 0%nat) (mk_SColor 255 0 0 0) true true true true
           (desktop "opengl") world_with_engine =
         Fatal (SanityCheckFailed assertion) w').
Proof.
  split; [eexists; split; reflexivity |].
  split; [reflexivity |].
  intros (assertion & w' & H). vm_compute in H. discriminate.
Qed.

Lemma world_with_engine_ready :
  engine_ready world_with_engine 0%nat
    (mk_engine (Some 0%nat) (Some 0%nat) None) 0%nat
    (mk_device (mk_driver EDT_OPENGL (mk_dim 800 600)) (Some example_modes) 1).
Proof. repeat split. Defined.

(** C6.  With [percent = 50] and both textures present, the loading screen
    draws the background layer and then the filled layer, and no other
    image.  The background is drawn [imgW] pixels wide and the filled layer
    [(50 * imgW) / 100] pixels wide: half of the background's width, the
    division truncating, so exactly half when that width is even and half a
    pixel less than half when it is odd.  The source rectangle of the filled
    layer is cut by the same rule, [(50 * img_size.Width) / 100] in [u32]
    arithmetic. *)
Theorem half_filled_bar env w a e da d text tsrc dtime clouds img img_bg :
  engine_ready w a e da d ->
  tsrc "progress_bar.png"%string = Some img ->
  tsrc "progress_bar_bg.png"%string = Some img_bg ->
  exists w' before dest_bg src_bg dest src after,
    _draw_load_screen text tsrc dtime 50 clouds env w = Done tt w' /\
    video_log w' =
      video_log w ++ before ++
      [Draw2DImageFilterScaled img_bg dest_bg src_bg true;
       Draw2DImageFilterScaled img dest src true] ++ after /\
    Forall (fun c => is_draw_image c = false) (before ++ after) /\
    UpperLeftCorner dest = UpperLeftCorner dest_bg /\
    getWidth dest_bg = rangelim (Width (getSize img_bg)) 200 600 /\
    getWidth dest = (50 * getWidth dest_bg) / 100 /\
    getWidth dest = getWidth dest_bg / 2 /\
    (Z.even (getWidth dest_bg) = true -> 2 * getWidth dest = getWidth dest_bg) /\
    (Z.odd (getWidth dest_bg) = true ->
     2 * getWidth dest = getWidth dest_bg - 1) /\
    X (LowerRightCorner src_bg) = wrap_s32 (Width (getSize img_bg)) /\
    X (LowerRightCorner src) =
      wrap_s32 (wrap_u32 (50 * Width (getSize img_bg)) / 100) /\
    (0 <= Width (getSize img_bg) -> 50 * Width (getSize img_bg) < 2 ^ 32 ->
     X (LowerRightCorner src) = Width (getSize img_bg) / 2).
Proof.
  intros H Himg Hbg.
  destruct (draw_load_screen_run env w a e da d text tsrc dtime 50 clouds H)
    as (textrect & bar & Hrun & Hbar).
  rewrite Himg, Hbg in Hbar. cbn [Z.geb Z.leb Z.compare Pos.compare
    Pos.compare_cont andb] in Hbar.
  destruct Hbar as (dest_bg & dest & -> & Hul & Hwbg & Hw).
  eexists _, _, dest_bg, _, dest, _, _.
  split; [exact Hrun |].
  split; [reflexivity |].
  split.
  { apply Forall_app. split.
    - destruct (clouds && getBool (g_settings env) "menu_clouds");
        repeat constructor.
    - repeat constructor. }
  split; [exact Hul |]. split; [exact Hwbg |].
  rewrite Hw, Hwbg.
  set (imgW := rangelim (Width (getSize img_bg)) 200 600).
  assert (Hhalf : (50 * imgW) / 100 = imgW / 2).
  { replace 100 with (50 * 2) by reflexivity.
    apply Z.div_mul_cancel_l; lia. }
  split; [reflexivity |]. split; [exact Hhalf |].
  split.
  { intros Heven. rewrite Hhalf.
    apply Z.even_spec in Heven as [k Hk]. rewrite Hk.
    rewrite (Z.mul_comm 2 k), Z.div_mul by lia. lia. }
  split.
  { intros Hodd. rewrite Hhalf.
    apply Z.odd_spec in Hodd as [k Hk]. rewrite Hk.
    replace (2 * k + 1) with (1 + k * 2) by lia.
    rewrite Z.div_add by lia. change (1 / 2) with 0. lia. }
  split; [reflexivity |]. split; [reflexivity |].
  intros Hpos Hsmall. cbn.
  rewrite wrap_u32_small by (unfold in_u32; lia).
  replace 100 with (50 * 2) by reflexivity.
  rewrite Z.div_mul_cancel_l by lia.
  apply wrap_s32_small. unfold in_s32.
  pose proof (Z.div_pos (Width (getSize img_bg)) 2 Hpos ltac:(lia)).
  assert (Width (getSize img_bg) / 2 <= Width (getSize img_bg))
    by (apply Z.div_le_upper_bound; lia).
  lia.
Qed.

Lemma half_filled_bar_witness :
  exists w' before dest_bg src_bg dest src after,
    _draw_load_screen [76; 111; 97; 100] example_textures float_of_3 50 true
        (desktop "opengl") world_with_engine = Done tt w' /\
    video_log w' =
      video_log world_with_engine ++ before ++
      [Draw2DImageFilterScaled
         (mk_texture "progress_bar_bg.png" (mk_dim 201 30)) dest_bg src_bg true;
       Draw2DImageFilterScaled
         (mk_texture "progress_bar.png" (mk_dim 201 30)) dest src true] ++
      after /\
    getWidth dest_bg = 201 /\ getWidth dest = 100.
Proof.
  destruct (half_filled_bar (desktop "opengl") world_with_engine _ _ _ _
              [76; 111; 97; 100] example_textures float_of_3 true _ _
              world_with_engine_ready eq_refl eq_refl)
    as (w' & before & dest_bg & src_bg & dest & src & after
        & Hrun & Hlog & _ & _ & Hbg & _ & Hhalf & _).
  exists w', before, dest_bg, src_bg, dest, src, after.
  split; [exact Hrun |]. split; [exact Hlog |].
  split; [exact Hbg |]. rewrite Hhalf, Hbg. reflexivity.
Defined.

(** C6, as stated, fails for a bar of odd width: with textures 201 pixels
    wide in a window of 800 x 600 the background is drawn from 299 to 500 and
    the filled layer from 299 to 399, 100 pixels of 201, which is not half. *)
Lemma half_filled_bar_odd_width :
  let run :=
    _draw_load_screen [76; 111; 97; 100] example_textures float_of_3 50 false
      (desktop "opengl") world_with_engine in
  let dest_bg := rect_xyxy 299 285 500 315 in
  let dest := rect_xyxy 299 285 399 315 in
  is_done run = true /\
  filter (fun c => is_draw_image c) (video_log (final_world run)) =
    [Draw2DImageFilterScaled (mk_texture "progress_bar_bg.png" (mk_dim 201 30))
       dest_bg (rect_xyxy 0 0 201 30) true;
     Draw2DImageFilterScaled (mk_texture "progress_bar.png" (mk_dim 201 30))
       dest (rect_xyxy 0 0 100 30) true] /\
  getWidth dest_bg = 201 /\ getWidth dest = 100 /\
  2 * getWidth dest <> getWidth dest_bg.
Proof.
  vm_compute. repeat split; congruence.
Qed.

(** C7.  Every frame of the loading screen consists of the backdrop (with
    the cloud scene when it is enabled), the progress bar, the UI layer with
    the text in it, and [endScene].  The bar is drawn, as the background
    layer followed by the filled layer, exactly when [percent] is between 0
    and 100 and the texture source supplies both "progress_bar.png" and
    "progress_bar_bg.png"; otherwise nothing is drawn for it and the rest of
    the frame is the same. *)
Theorem progress_bar_gating env w a e da d text tsrc dtime percent clouds :
  engine_ready w a e da d ->
  exists w' backdrop bar textrect,
    _draw_load_screen text tsrc dtime percent clouds env w = Done tt w' /\
    video_log w' =
      video_log w ++ backdrop ++ bar ++
      [GuiDrawAll
         (guienv w ++
          [(fresh ((guienv w).*1),
            StaticText (c_wstr text) textrect false false
              EGUIA_CENTER EGUIA_UPPERLEFT)]);
       EndScene] /\
    Forall (fun c => is_backdrop_call c = true) backdrop /\
    (exists color, BeginScene true true color ∈ backdrop) /\
    (clouds && getBool (g_settings env) "menu_clouds" = true ->
     CloudsRender ∈ backdrop /\ CloudsMgrDrawAll ∈ backdrop) /\
    (bar <> [] <->
     0 <= percent <= 100 /\
     is_Some (tsrc "progress_bar.png"%string) /\
     is_Some (tsrc "progress_bar_bg.png"%string)) /\
    (bar <> [] ->
     exists img img_bg dest_bg src_bg dest src,
       tsrc "progress_bar.png"%string = Some img /\
       tsrc "progress_bar_bg.png"%string = Some img_bg /\
       bar = [Draw2DImageFilterScaled img_bg dest_bg src_bg true;
              Draw2DImageFilterScaled img dest src true]).
Proof.
  intros H.
  destruct (draw_load_screen_run env w a e da d text tsrc dtime percent clouds H)
    as (textrect & bar & Hrun & Hbar).
  eexists _, _, bar, textrect.
  split; [exact Hrun |]. split; [reflexivity |].
  split.
  { destruct (clouds && getBool (g_settings env) "menu_clouds");
      repeat constructor. }
  split.
  { destruct (clouds && getBool (g_settings env) "menu_clouds");
      eexists; rewrite !elem_of_cons; eauto. }
  split.
  { intros ->. rewrite !elem_of_cons. tauto. }
  destruct ((percent >=? 0) && (percent <=? 100)) eqn:Hp.
  - apply percent_range in Hp.
    destruct (tsrc "progress_bar.png"%string) as [img |];
      [destruct (tsrc "progress_bar_bg.png"%string) as [img_bg |] |].
    + destruct Hbar as (dest_bg & dest & -> & _). split.
      * split; [eauto | discriminate].
      * intros _. eexists _, _, _, _, _, _. eauto.
    + subst bar. split; [split; [congruence |] | congruence].
      intros (_ & _ & [x Hx]). discriminate.
    + subst bar. split; [split; [congruence |] | congruence].
      intros (_ & [x Hx] & _). discriminate.
  - assert (~ 0 <= percent <= 100).
    { intros Hr. apply percent_range in Hr. congruence. }
    subst bar.
    split; [split; [congruence | tauto] | congruence].
Qed.

Lemma progress_bar_gating_witness :
  exists w' backdrop bar textrect,
    _draw_load_screen [76; 111; 97; 100] (fun _ => None) float_of_3 50 true
        (desktop "opengl") world_with_engine = Done tt w' /\
    video_log w' =
      video_log world_with_engine ++ backdrop ++ bar ++
      [GuiDrawAll
         [(0%nat, StaticText [76; 111; 97; 100] textrect false false
                    EGUIA_CENTER EGUIA_UPPERLEFT)];
       EndScene] /\
    bar = [] /\ CloudsMgrDrawAll ∈ backdrop.
Proof.
  destruct (progress_bar_gating (desktop "opengl") world_with_engine _ _ _ _
              [76; 111; 97; 100] (fun _ => None) float_of_3 50 true
              world_with_engine_ready)
    as (w' & backdrop & bar & textrect & Hrun & Hlog & _ & _ & Hclouds
        & Hiff & _).
  exists w', backdrop, bar, textrect.
  split; [exact Hrun |]. split; [exact Hlog |].
  split; [| apply Hclouds; reflexivity].
  destruct bar as [| c bar]; [reflexivity |].
  assert (Hne : c :: bar <> []) by discriminate.
  apply Hiff in Hne as (_ & [x Hx] & _). discriminate.
Defined.

(** C8.  A call of the loading screen adds one static text to the UI layer,
    which is in the layer when it is drawn, and removes it after [endScene]:
    the layer is afterwards what it was before.  After two calls in
    succession the layer still is what it was before the first, so no text
    of either call is left in it. *)
Theorem transient_text_node env w a e da d
    text tsrc dtime percent clouds text' tsrc' dtime' percent' clouds' :
  engine_ready w a e da d ->
  exists w1 w2 node rect1 rect2,
    _draw_load_screen text tsrc dtime percent clouds env w = Done tt w1 /\
    _draw_load_screen text' tsrc' dtime' percent' clouds' env w1 = Done tt w2 /\
    (node ∉ (guienv w).*1) /\
    GuiDrawAll
      (guienv w ++
       [(node, StaticText (c_wstr text) rect1 false false
                 EGUIA_CENTER EGUIA_UPPERLEFT)]) ∈ video_log w1 /\
    GuiDrawAll
      (guienv w ++
       [(node, StaticText (c_wstr text') rect2 false false
                 EGUIA_CENTER EGUIA_UPPERLEFT)]) ∈ video_log w2 /\
    guienv w1 = guienv w /\
    guienv w2 = guienv w /\
    static_texts w2 = static_texts w /\
    (length (static_texts w2) <= length (static_texts w) + 1)%nat.
Proof.
  intros H.
  destruct (draw_load_screen_run env w a e da d text tsrc dtime percent clouds H)
    as (rect1 & bar1 & Hrun1 & _).
  match type of Hrun1 with _ = Done tt ?w => set (w1 := w) in * end.
  assert (H1 : engine_ready w1 a e da d) by exact H.
  destruct (draw_load_screen_run env w1 a e da d text' tsrc' dtime' percent'
              clouds' H1) as (rect2 & bar2 & Hrun2 & _).
  match type of Hrun2 with _ = Done tt ?w => set (w2 := w) in * end.
  exists w1, w2, (fresh ((guienv w).*1)), rect1, rect2.
  split; [exact Hrun1 |]. split; [exact Hrun2 |].
  split; [apply infinite_is_fresh |].
  split.
  { subst w1. cbn. rewrite !elem_of_app, !elem_of_cons. auto. }
  split.
  { subst w2 w1. cbn. rewrite !elem_of_app, !elem_of_cons. auto. }
  split; [reflexivity |]. split; [reflexivity |].
  split; [reflexivity |].
  change (static_texts w2) with (static_texts w). lia.
Qed.

Lemma transient_text_node_witness :
  exists w1 w2,
    _draw_load_screen [76; 111; 97; 100] example_textures float_of_3 10 true
        (desktop "opengl") world_with_engine = Done tt w1 /\
    _draw_load_screen [68; 111; 110; 101] example_textures float_of_3 100 false
        (desktop "opengl") w1 = Done tt w2 /\
    guienv w1 = [] /\ guienv w2 = [].
Proof.
  destruct (transient_text_node (desktop "opengl") world_with_engine _ _ _ _
              [76; 111; 97; 100] example_textures float_of_3 10 true
              [68; 111; 110; 101] example_textures float_of_3 100 false
              world_with_engine_ready)
    as (w1 & w2 & node & rect1 & rect2 & Hrun1 & Hrun2 & _ & _ & _ & Hg1 & Hg2
        & _).
  exists w1, w2. auto.
Defined.

(** C9, as stated, fails: when the probe device cannot be created,
    [getSupportedVideoModes] stops at [sanity_check(nulldevice)]. *)
Lemma video_modes_probe_is_asserted :
  createDevice (headless "opengl") EDT_NULL = None /\
  getSupportedVideoModes (headless "opengl") initial_world =
    Fatal (SanityCheckFailed "nulldevice") initial_world /\
  is_done (getSupportedVideoModes (headless "opengl") initial_world) = false.
Proof. repeat split. Qed.

(** C9, amended.  [print_video_modes], [getSupportedVideoModes] and
    [getDisplaySize] create a null device and drop it before they return:
    when they return, the devices, the engines and the singleton pointer of
    the process are what they were, so the probe never is the active device.
    [print_video_modes] always returns, with [false] and nothing changed when
    the probe cannot be created; [getSupportedVideoModes] asserts that the
    probe exists, so there the failure stops the process. *)
Theorem probe_devices env w :
  (exists params b w',
     DriverType params = EDT_NULL /\
     print_video_modes env w = Done b w' /\
     same_process w w' /\ receivers w' = receivers w /\
     (createDeviceEx env params = None -> b = false /\ w' = w) /\
     (forall dev, createDeviceEx env params = Some dev ->
        b = bool_decide (getVideoModeList dev <> None))) /\
  (forall modes w', getSupportedVideoModes env w = Done modes w' -> w' = w) /\
  (forall size w', getDisplaySize env w = Done size w' -> w' = w) /\
  (forall dev l,
     createDevice env EDT_NULL = Some dev -> getVideoModeList dev = Some l ->
     getSupportedVideoModes env w =
       Done (map (fun m => (Width m.1, Height m.1, wrap_u32 m.2)) (VideoModes l)) w /\
     getDisplaySize env w = Done (v2u32_of_dimension (getDesktopResolution l)) w) /\
  (createDevice env EDT_NULL = None ->
     getSupportedVideoModes env w = Fatal (SanityCheckFailed "nulldevice") w).
Proof.
  split; [| split; [| split; [| split]]].
  - destruct (print_video_modes_run env w) as (params & Hty & Hcase).
    exists params.
    destruct (createDeviceEx env params) as [dev |] eqn:Hdev.
    + eexists _, _. split; [exact Hty |]. split; [exact Hcase |].
      split; [apply same_process_cout |]. split; [reflexivity |].
      split; [discriminate |]. intros dev' [= <-]. reflexivity.
    + exists false, w. split; [exact Hty |]. split; [exact Hcase |].
      split; [apply same_process_refl |]. split; [reflexivity |].
      split; [auto | discriminate].
  - intros modes w' Hrun.
    pose proof (getSupportedVideoModes_run env w) as Hcase.
    destruct (createDevice env EDT_NULL) as [dev |]; [| congruence].
    destruct (getVideoModeList dev); [| destruct Hcase; congruence].
    congruence.
  - intros size w' Hrun.
    pose proof (getDisplaySize_run env w) as Hcase.
    destruct (createDevice env EDT_NULL) as [dev |]; [| congruence].
    destruct (getVideoModeList dev); [| destruct Hcase; congruence].
    congruence.
  - intros dev l Hdev Hl.
    pose proof (getSupportedVideoModes_run env w) as Hm.
    pose proof (getDisplaySize_run env w) as Hs.
    rewrite Hdev, Hl in Hm, Hs. split; assumption.
  - intros Hdev.
    pose proof (getSupportedVideoModes_run env w) as Hm.
    now rewrite Hdev in Hm.
Qed.

Lemma probe_devices_witness :
  getSupportedVideoModes (desktop "opengl") world_with_engine =
    Done [(640, 480, 24); (800, 600, 32)] world_with_engine /\
  getDisplaySize (desktop "opengl") world_with_engine =
    Done (mk_v2 1920 1080) world_with_engine.
Proof.
  apply (proj1 (proj2 (proj2 (proj2
    (probe_devices (desktop "opengl") world_with_engine))))
    (mk_device (mk_driver EDT_NULL (mk_dim 800 600)) (Some example_modes) 1)
    example_modes eq_refl eq_refl).
Defined.

(** C10.  The loading screen and the menu scene open their frame in the same
    way.  When the [clouds] argument and the "menu_clouds" setting are both
    true, the cloud scene is stepped by [dtime * 3] and rendered, the frame
    begins cleared to the colour (255, 140, 186, 250), and the cloud scene
    manager draws; otherwise the frame begins cleared to (255, 0, 0, 0) and
    no cloud call is made.  Nothing else in either frame touches the clouds
    or begins a scene. *)
Theorem cloud_backdrop env w a e da d text tsrc dtime percent clouds :
  engine_ready w a e da d ->
  let enabled := clouds && getBool (g_settings env) "menu_clouds" in
  let backdrop :=
    if enabled
    then [CloudsStep (float_mul dtime float_of_3); CloudsRender;
          BeginScene true true (mk_SColor 255 140 186 250); CloudsMgrDrawAll]
    else [BeginScene true true (mk_SColor 255 0 0 0)] in
  exists w1 w2 rest1 rest2,
    _draw_load_screen text tsrc dtime percent clouds env w = Done tt w1 /\
    video_log w1 = video_log w ++ backdrop ++ rest1 /\
    _draw_menu_scene dtime clouds env w = Done tt w2 /\
    video_log w2 = video_log w ++ backdrop ++ rest2 /\
    Forall (fun c => is_backdrop_call c = false) rest1 /\
    Forall (fun c => is_backdrop_call c = false) rest2 /\
    (enabled = true <->
     clouds = true /\ getBool (g_settings env) "menu_clouds" = true) /\
    (CloudsMgrDrawAll ∈ backdrop ++ rest1 <-> enabled = true) /\
    (CloudsMgrDrawAll ∈ backdrop ++ rest2 <-> enabled = true).
Proof.
  intros H enabled backdrop.
  destruct (draw_load_screen_run env w a e da d text tsrc dtime percent clouds H)
    as (textrect & bar & Hrun & Hbar).
  pose proof (draw_menu_scene_run env w a e da d dtime clouds H) as Hmenu.
  fold enabled in Hrun, Hmenu. fold backdrop in Hrun, Hmenu.
  assert (Hbarcalls : Forall (fun c => is_backdrop_call c = false) bar).
  { destruct ((percent >=? 0) && (percent <=? 100)),
      (tsrc "progress_bar.png"%string), (tsrc "progress_bar_bg.png"%string);
      try (subst bar; constructor).
    destruct Hbar as (? & ? & -> & _). repeat constructor. }
  eexists _, _, _, _.
  split; [exact Hrun |]. split; [reflexivity |].
  split; [exact Hmenu |]. split; [reflexivity |].
  split; [apply Forall_app; split; [exact Hbarcalls | repeat constructor] |].
  split; [repeat constructor |].
  split; [apply andb_true_iff |].
  assert (Hin : forall rest,
    Forall (fun c => is_backdrop_call c = false) rest ->
    CloudsMgrDrawAll ∈ backdrop ++ rest <-> enabled = true).
  { intros rest Hrest. rewrite elem_of_app. subst backdrop.
    split.
    - intros [Hb | Hr].
      + destruct enabled; [reflexivity |].
        rewrite !elem_of_cons in Hb. destruct Hb as [Hb | Hb];
          [discriminate | inversion Hb].
      + rewrite Forall_forall in Hrest. apply Hrest in Hr. discriminate.
    - intros ->. left. rewrite !elem_of_cons. tauto. }
  split; apply Hin.
  - apply Forall_app; split; [exact Hbarcalls | repeat constructor].
  - repeat constructor.
Qed.

Lemma cloud_backdrop_witness :
  exists w1 w2 rest1 rest2,
    _draw_load_screen [76; 111; 97; 100] example_textures float_of_3 50 true
        (desktop "opengl") world_with_engine = Done tt w1 /\
    video_log w1 =
      [CloudsStep (S754_finite false 9437184 (-20)); CloudsRender;
       BeginScene true true (mk_SColor 255 140 186 250); CloudsMgrDrawAll] ++
      rest1 /\
    _draw_menu_scene float_of_3 true (desktop "opengl") world_with_engine =
      Done tt w2 /\
    video_log w2 =
      [CloudsStep (S754_finite false 9437184 (-20)); CloudsRender;
       BeginScene true true (mk_SColor 255 140 186 250); CloudsMgrDrawAll] ++
      rest2.
Proof.
  destruct (cloud_backdrop (desktop "opengl") world_with_engine _ _ _ _
              [76; 111; 97; 100] example_textures float_of_3 50 true
              world_with_engine_ready)
    as (w1 & w2 & rest1 & rest2 & Hrun1 & Hlog1 & Hrun2 & Hlog2 & _).
  exists w1, w2, rest1, rest2. auto.
Defined.

(** * Further properties of the code *)

(** ** The driver catalogue *)

Lemma lower_driver_name_inj d1 d2 :
  lower (getVideoDriverName d1) = lower (getVideoDriverName d2) -> d1 = d2.
Proof. destruct d1, d2; intros H; try reflexivity; vm_compute in H; discriminate. Qed.

(** The loop either stops at the first supported driver that matches, or
    runs to the end without a match. *)
Lemma find_driver_cases s def : forall drivers i,
  (exists pre d post,
     drivers = pre ++ d :: post /\
     (forall x, x ∈ pre -> ~ same_name s x) /\ same_name s d /\
     find_driver s drivers i def = (d, (i + length pre)%nat)) \/
  ((forall x, x ∈ drivers -> ~ same_name s x) /\
   find_driver s drivers i def = (def, (i + length drivers)%nat)).
Proof.
  induction drivers as [| d rest IH]; intros i.
  - right. split; [intros x Hx; inversion Hx |].
    now rewrite (find_driver_none s def [] i) by (intros x Hx; inversion Hx).
  - destruct (Z.eqb_spec (strcasecmp (c_str s) (c_str (getVideoDriverName d))) 0)
      as [E | E].
    + left. exists [], d, rest. apply strcasecmp_same_name in E.
      split; [reflexivity |]. split; [intros x Hx; inversion Hx |].
      split; [exact E |]. apply (find_driver_first s def d rest []); auto.
      intros x Hx; inversion Hx.
    + assert (Hd : ~ same_name s d)
        by (intros Hd; apply E; now apply strcasecmp_same_name).
      destruct (IH (S i)) as [(pre & d' & post & -> & Hpre & Hd' & Hfind) | [Hno Hfind]].
      * left. exists (d :: pre), d', post.
        split; [reflexivity |].
        assert (Hpre' : forall x, x ∈ d :: pre -> ~ same_name s x).
        { intros x Hx. apply elem_of_cons in Hx as [-> | Hx]; auto. }
        split; [exact Hpre' |]. split; [exact Hd' |].
        apply (find_driver_first s def d' post (d :: pre) i Hpre' Hd').
      * right.
        assert (Hno' : forall x, x ∈ d :: rest -> ~ same_name s x).
        { intros x Hx. apply elem_of_cons in Hx as [-> | Hx]; auto. }
        split; [exact Hno' |]. now apply find_driver_none.
Qed.

Lemma driver_name_unambiguous_helper s d1 d2 :
  same_name s d1 -> same_name s d2 -> d1 = d2.
Proof.
  unfold same_name. intros H1 H2. apply lower_driver_name_inj. congruence.
Qed.

(** X1.  No two drivers have names that are equal up to the case of their
    letters: a configured name matches at most one driver, so the first
    match of the constructor's loop is the only one. *)
Theorem driver_name_unambiguous s d1 d2 :
  same_name s d1 -> same_name s d2 -> d1 = d2.
Proof.
  intros H1 H2.
  assert (Hl : lower (getVideoDriverName d1) = lower (getVideoDriverName d2))
    by (unfold same_name in *; congruence).
  destruct d1, d2; try reflexivity; vm_compute in Hl; discriminate.
Qed.

Lemma driver_name_unambiguous_witness : EDT_OGLES1 = EDT_OGLES1.
Proof.
  apply (driver_name_unambiguous "OGLes1" EDT_OGLES1 EDT_OGLES1); reflexivity.
Defined.

(** X2.  Naming and resolving are a round trip: when the configured name is
    the name of a supported driver, in any mix of upper and lower case, the
    constructor asks for exactly that driver and writes nothing to
    [errorstream]. *)
Theorem driver_name_round_trip env receiver w d :
  isDriverSupported env d = true ->
  lower (c_str (get (g_settings env) "video_driver")) =
    lower (getVideoDriverName d) ->
  exists p,
    creation_parameters receiver env w = Done p w /\ DriverType p = d.
Proof.
  intros Hsup Hname.
  set (s := get (g_settings env) "video_driver") in *.
  assert (Hsame : same_name s d) by exact Hname.
  destruct (creation_parameters_total receiver env w) as (p & Hty & _ & Hp).
  cbv zeta in Hty, Hp. fold s in Hty, Hp.
  assert (Hin : d ∈ getSupportedVideoDrivers env).
  { rewrite getSupportedVideoDrivers_filter. apply list_elem_of_filter.
    split; [exact Hsup |]. destruct d; unfold driver_types;
      rewrite !elem_of_cons; tauto. }
  destruct (find_driver_cases s EDT_OPENGL (getSupportedVideoDrivers env) 0)
    as [(pre & d' & post & Hsplit & Hpre & Hd' & Hfind) | [Hno _]].
  - rewrite Hfind in Hty, Hp. cbn [fst snd] in Hty, Hp.
    rewrite Hsplit in Hp.
    replace ((0 + length pre)%nat =? length (pre ++ d' :: post))%nat
      with false in Hp
      by (symmetry; apply Nat.eqb_neq; rewrite length_app; cbn; lia).
    exists p. split; [exact Hp |].
    rewrite Hty. apply (driver_name_unambiguous_helper s).
    + exact Hd'.
    + exact Hsame.
  - exfalso. exact (Hno d Hin Hsame).
Qed.

Lemma driver_name_round_trip_witness :
  exists p,
    creation_parameters None (desktop "oPeNgL") initial_world =
      Done p initial_world /\
    DriverType p = EDT_OPENGL.
Proof.
  apply (driver_name_round_trip (desktop "oPeNgL") None initial_world EDT_OPENGL);
    reflexivity.
Defined.

(** X3.  [getSupportedVideoDrivers] lists exactly the driver types the
    platform supports, each once, in the order of the enumeration. *)
Theorem supported_drivers_listed env :
  (forall t, t ∈ getSupportedVideoDrivers env <-> isDriverSupported env t = true) /\
  NoDup (getSupportedVideoDrivers env) /\
  getSupportedVideoDrivers env `sublist_of` driver_types.
Proof.
  rewrite getSupportedVideoDrivers_filter. split; [| split].
  - intros t. rewrite list_elem_of_filter. split; [tauto |].
    intros Ht. split; [exact Ht |].
    destruct t; unfold driver_types; rewrite !elem_of_cons; tauto.
  - apply NoDup_filter. unfold driver_types.
    repeat (apply NoDup_cons; split;
            [rewrite ?elem_of_cons, elem_of_nil; intuition discriminate |]).
    apply NoDup_nil_2.
  - apply sublist_filter.
Qed.

(** X4.  The driver the constructor asks for is never an unsupported one
    other than the OpenGL default: either it is a supported driver whose name
    matches the configured one, and nothing is written, or no supported
    driver matches, the message is written once and the driver is OpenGL,
    whether the platform supports OpenGL or not. *)
Theorem driver_supported_or_default env receiver w :
  let s := get (g_settings env) "video_driver" in
  exists p w1,
    creation_parameters receiver env w = Done p w1 /\
    ((w1 = w /\ isDriverSupported env (DriverType p) = true /\
      same_name s (DriverType p)) \/
     (w1 = set_errorstream (errorstream w ++ [invalid_driver_message]) w /\
      DriverType p = EDT_OPENGL /\
      forall x, isDriverSupported env x = true -> ~ same_name s x)).
Proof.
  intros s.
  destruct (creation_parameters_total receiver env w) as (p & Hty & _ & Hp).
  cbv zeta in Hty, Hp. fold s in Hty, Hp.
  exists p. eexists. split; [exact Hp |].
  destruct (find_driver_cases s EDT_OPENGL (getSupportedVideoDrivers env) 0)
    as [(pre & d & post & Hsplit & Hpre & Hd & Hfind) | [Hno Hfind]];
    rewrite Hfind in *; cbn [fst snd] in *.
  - left. rewrite Hsplit at 1.
    replace ((0 + length pre)%nat =? length (pre ++ d :: post))%nat with false
      by (symmetry; apply Nat.eqb_neq; rewrite length_app; cbn; lia).
    split; [reflexivity |]. rewrite Hty. split; [| exact Hd].
    assert (Hin : d ∈ getSupportedVideoDrivers env)
      by (rewrite Hsplit, elem_of_app, elem_of_cons; auto).
    rewrite getSupportedVideoDrivers_filter in Hin.
    now apply list_elem_of_filter in Hin.
  - right. rewrite Nat.add_0_l, Nat.eqb_refl.
    split; [reflexivity |]. split; [exact Hty |].
    intros x Hx. apply Hno.
    rewrite getSupportedVideoDrivers_filter. apply list_elem_of_filter.
    split; [exact Hx |].
    destruct x; unfold driver_types; rewrite !elem_of_cons; tauto.
Qed.

(** ** The life of the process *)

Lemma dtor_exact env w a e da d :
  engine_ready w a e da d ->
  RenderingEngine_dtor a env w =
    Done tt
      (set_s_singleton None
         (set_engines ∅
            (set_devices
               (if (ReferenceCounter d <=? 1)%nat
                then delete da (devices w)
                else <[da := mk_device (getVideoDriver d) (getVideoModeList d)
                               (ReferenceCounter d - 1)]> (devices w)) w))).
Proof.
  intros H. destruct H as (Hs & He & Hm & Hd).
  destruct w as [sing es ds rs gui vlog co err]. cbn in *. subst sing es.
  unfold RenderingEngine_dtor, deref_engine, drop, deref_device.
  unfold_monad. cbn. rewrite lookup_singleton_eq. cbn.
  rewrite Hm. cbn. rewrite Hd. cbn.
  destruct (ReferenceCounter d <=? 1)%nat; cbn;
    rewrite insert_singleton_eq, delete_singleton_eq; reflexivity.
Qed.

Lemma scan_app calls1 : forall open calls2,
  scan open (calls1 ++ calls2) =
    match scan open calls1 with
    | Some open' => scan open' calls2
    | None => None
    end.
Proof.
  induction calls1 as [| c calls1 IH]; intros open calls2; [reflexivity |].
  cbn. destruct (scan_call open c); [apply IH | reflexivity].
Qed.

(** What an action that returns has done to the process. *)
Lemma perform_effect env w a w' :
  singleton_inv w ->
  perform a env w = Done tt w' ->
  receivers w' = receivers w /\
  (exists calls,
     video_log w' = video_log w ++ calls /\ scan false calls = Some false) /\
  match a with
  | Construct _ =>
      s_singleton w = None /\
      exists d,
        let da := fresh (dom (devices w)) in
        s_singleton w' = Some (fresh (dom (engines w))) /\
        engines w' =
          <[fresh (dom (engines w)) := mk_engine (Some da) (Some da) None]>
            (engines w) /\
        devices w' =
          <[da := mk_device (getVideoDriver d) (getVideoModeList d) 1]>
            (devices w)
  | Destroy this =>
      exists e da d,
        engine_ready w this e da d /\
        s_singleton w' = None /\ engines w' = ∅ /\
        devices w' =
          if (ReferenceCounter d <=? 1)%nat
          then delete da (devices w)
          else <[da := mk_device (getVideoDriver d) (getVideoModeList d)
                         (ReferenceCounter d - 1)]> (devices w)
  | Initialize _ _ | Finalize =>
      s_singleton w' = s_singleton w /\ devices w' = devices w /\
      exists a0 e c,
        s_singleton w = Some a0 /\ engines w = {[a0 := e]} /\
        engines w' = {[a0 := mk_engine (m_device e) (driver e) c]}
  | _ => same_process w w'
  end.
Proof.
  intros Hinv Hrun. destruct a; cbn [perform] in Hrun.
  - (* Construct *)
    apply bind_inv in Hrun as (this & w1 & Hnew & Hret).
    inversion Hret; subst; clear Hret.
    unfold new_RenderingEngine in Hnew.
    erewrite bind_done in Hnew by reflexivity.
    apply bind_inv in Hnew as ([] & w1 & Hctor & Hret).
    inversion Hret; subst; clear Hret.
    destruct (ctor_cases (fresh (dom (engines w))) receiver env w)
      as (p & w0 & Hp & Hcase).
    destruct (creation_parameters_total receiver env w) as (p' & _ & _ & Hp').
    rewrite Hp in Hp'. inversion Hp'; subst p'; clear Hp'.
    destruct (s_singleton w) as [x |] eqn:Hs; [congruence |].
    destruct (createDeviceEx env p) as [d |]; [| congruence].
    rewrite Hcase in Hctor. inversion Hctor; subst w'; clear Hctor.
    rewrite H1. cbn.
    destruct (_ =? _)%nat; cbn;
      (split; [reflexivity |];
       split; [exists []; rewrite app_nil_r; split; reflexivity |];
       split; [reflexivity |]; exists d; repeat split).
  - (* Destroy *)
    destruct (dtor_needs_engine _ _ _ _ Hrun) as (e & He).
    unfold singleton_inv in Hinv.
    destruct (s_singleton w) as [a |] eqn:Hs.
    + destruct Hinv as (e0 & da & d & H).
      assert (this = a) as ->.
      { destruct H as (_ & Hes & _). rewrite Hes in He.
        apply lookup_singleton_Some in He. symmetry. apply He. }
      rewrite (dtor_exact env _ _ _ _ _ H) in Hrun.
      inversion Hrun; subst. cbn.
      split; [reflexivity |].
      split; [exists []; rewrite app_nil_r; split; reflexivity |].
      exists e0, da, d. repeat split; try apply H.
    + rewrite Hinv in He. rewrite lookup_empty in He. discriminate.
  - (* Initialize *)
    erewrite bind_done in Hrun by reflexivity.
    unfold singleton_inv in Hinv.
    destruct (s_singleton w) as [a |] eqn:Hs; [| discriminate].
    destruct Hinv as (e & da & d & H).
    rewrite (initialize_run _ _ _ _ _ _ (engine_ready_lookup _ _ _ _ _ H)) in Hrun.
    inversion Hrun; subst; clear Hrun.
    destruct H as (_ & Hes & Hm & Hd). cbn.
    split; [reflexivity |].
    split; [eexists [_]; split; reflexivity |].
    split; [exact Hs |]. split; [reflexivity |].
    eexists a, e, _. split; [reflexivity |]. split; [exact Hes |].
    rewrite Hes, insert_singleton_eq. reflexivity.
  - (* Finalize *)
    erewrite bind_done in Hrun by reflexivity.
    unfold singleton_inv in Hinv.
    destruct (s_singleton w) as [a |] eqn:Hs; [| discriminate].
    destruct Hinv as (e & da & d & H).
    rewrite (finalize_run _ _ _ _ (engine_ready_lookup _ _ _ _ _ H)) in Hrun.
    inversion Hrun; subst; clear Hrun.
    destruct H as (_ & Hes & Hm & Hd). cbn.
    split; [reflexivity |].
    split; [exists []; rewrite app_nil_r; split; reflexivity |].
    split; [exact Hs |]. split; [reflexivity |].
    eexists a, e, _. split; [reflexivity |]. split; [exact Hes |].
    rewrite Hes, insert_singleton_eq. reflexivity.
  - (* DrawScene *)
    erewrite bind_done in Hrun by reflexivity.
    unfold singleton_inv in Hinv.
    destruct (s_singleton w) as [a |] eqn:Hs; [| discriminate].
    destruct Hinv as (e & da & d & H).
    rewrite (draw_scene_run _ _ _ _ _ _ _ _ _ (engine_ready_lookup _ _ _ _ _ H))
      in Hrun.
    destruct (core e); inversion Hrun; subst.
    split; [reflexivity |].
    split; [eexists [_]; split; reflexivity |].
    apply same_process_video_log.
  - (* DrawLoadScreen *)
    unfold singleton_inv in Hinv.
    destruct (s_singleton w) as [a |] eqn:Hs.
    + destruct Hinv as (e & da & d & H).
      destruct (draw_load_screen_run env w a e da d text tsrc dtime percent
                  clouds H) as (r & bar & Hd & Hbar).
      rewrite Hd in Hrun. inversion Hrun; subst.
      split; [reflexivity |]. split; [| apply same_process_video_log].
      eexists. split; [reflexivity |].
      assert (Hb : scan true bar = Some true).
      { destruct ((percent >=? 0) && (percent <=? 100)),
          (tsrc "progress_bar.png"%string), (tsrc "progress_bar_bg.png"%string);
          try (subst bar; reflexivity).
        destruct Hbar as (? & ? & -> & _). reflexivity. }
      destruct (clouds && getBool (g_settings env) "menu_clouds"); cbn;
        rewrite scan_app, Hb; reflexivity.
    + rewrite without_singleton_load_screen in Hrun by exact Hs. discriminate.
  - (* DrawMenuScene *)
    unfold singleton_inv in Hinv.
    destruct (s_singleton w) as [a |] eqn:Hs.
    + destruct Hinv as (e & da & d & H).
      rewrite (draw_menu_scene_run env w a e da d dtime clouds H) in Hrun.
      inversion Hrun; subst.
      split; [reflexivity |]. split; [| apply same_process_video_log].
      eexists. split; [reflexivity |].
      destruct (clouds && getBool (g_settings env) "menu_clouds"); reflexivity.
    + pose proof (without_singleton_menu_scene env w dtime clouds Hs) as Hf.
      rewrite Hrun in Hf. discriminate.
  - (* PrintVideoModes *)
    apply bind_inv in Hrun as (b & w1 & Hp & Hret).
    inversion Hret; subst; clear Hret.
    destruct (print_video_modes_run env w) as (params & _ & Hcase).
    destruct (createDeviceEx env params); rewrite Hcase in Hp;
      inversion Hp; subst;
      (split; [reflexivity |];
       split; [exists []; rewrite app_nil_r; split; reflexivity |]).
    + apply same_process_cout.
    + apply same_process_refl.
  - (* GetSupportedVideoModes *)
    apply bind_inv in Hrun as (b & w1 & Hp & Hret).
    inversion Hret; subst; clear Hret.
    pose proof (getSupportedVideoModes_run env w) as Hcase.
    destruct (createDevice env EDT_NULL) as [dev |]; [| congruence].
    destruct (getVideoModeList dev); [| destruct Hcase; congruence].
    rewrite Hcase in Hp. inversion Hp; subst.
    split; [reflexivity |].
    split; [exists []; rewrite app_nil_r; split; reflexivity |].
    apply same_process_refl.
  - (* GetDisplaySize *)
    apply bind_inv in Hrun as (b & w1 & Hp & Hret).
    inversion Hret; subst; clear Hret.
    pose proof (getDisplaySize_run env w) as Hcase.
    destruct (createDevice env EDT_NULL) as [dev |]; [| congruence].
    destruct (getVideoModeList dev); [| destruct Hcase; congruence].
    rewrite Hcase in Hp. inversion Hp; subst.
    split; [reflexivity |].
    split; [exists []; rewrite app_nil_r; split; reflexivity |].
    apply same_process_refl.
Qed.

Lemma tidy_step env w a w' :
  singleton_inv w -> tidy w -> perform a env w = Done tt w' -> tidy w'.
Proof.
  intros Hinv [Hrec Htidy] Hrun.
  destruct (perform_effect env w a w' Hinv Hrun) as (Hrec' & _ & Heff).
  split; [congruence |].
  destruct a.
  - cbv zeta in Heff. destruct Heff as (Hs & d & Hs' & He' & Hd').
    rewrite Hs in Htidy. destruct Htidy as [He Hd].
    set (k := fresh (dom (engines w))) in *.
    set (kd := fresh (dom (devices w))) in *.
    rewrite He in He'. rewrite Hd in Hd'. rewrite Hs'.
    eexists _, _, _. split; [exact He' |]. split; [reflexivity |].
    split; [reflexivity |]. split; [exact Hd' |]. reflexivity.
  - destruct Heff as (e & da & d & (Hs & He & Hm & Hd) & Hs' & He' & Hd').
    rewrite Hs in Htidy.
    destruct Htidy as (e0 & da0 & d0 & He0 & Hm0 & _ & Hd0 & Hcount).
    rewrite Hs'. split; [exact He' |].
    assert (e = e0) as ->.
    { rewrite He in He0. apply (f_equal (fun m => m !! this)) in He0.
      rewrite !lookup_singleton_eq in He0. congruence. }
    assert (da = da0) as -> by congruence.
    rewrite Hd0, lookup_singleton_eq in Hd. inversion Hd; subst d0.
    rewrite Hd', Hcount, Hd0. apply delete_singleton_eq.
  - destruct Heff as (Hs' & Hd' & a0 & e & c & Hs & He & He').
    rewrite Hs', Hs. rewrite Hs in Htidy.
    destruct Htidy as (e0 & da0 & d0 & He0 & Hm0 & Hdr0 & Hd0 & Hcount).
    assert (e = e0) as ->.
    { rewrite He in He0. apply (f_equal (fun m => m !! a0)) in He0.
      rewrite !lookup_singleton_eq in He0. congruence. }
    eexists _, da0, d0. split; [exact He' |]. cbn.
    repeat split; congruence.
  - destruct Heff as (Hs' & Hd' & a0 & e & c & Hs & He & He').
    rewrite Hs', Hs. rewrite Hs in Htidy.
    destruct Htidy as (e0 & da0 & d0 & He0 & Hm0 & Hdr0 & Hd0 & Hcount).
    assert (e = e0) as ->.
    { rewrite He in He0. apply (f_equal (fun m => m !! a0)) in He0.
      rewrite !lookup_singleton_eq in He0. congruence. }
    eexists _, da0, d0. split; [exact He' |]. cbn.
    repeat split; congruence.
  - destruct Heff as (Hs & He & Hd). now rewrite Hs, He, Hd.
  - destruct Heff as (Hs & He & Hd). now rewrite Hs, He, Hd.
  - destruct Heff as (Hs & He & Hd). now rewrite Hs, He, Hd.
  - destruct Heff as (Hs & He & Hd). now rewrite Hs, He, Hd.
  - destruct Heff as (Hs & He & Hd). now rewrite Hs, He, Hd.
  - destruct Heff as (Hs & He & Hd). now rewrite Hs, He, Hd.
Qed.

(** X5.  Nothing leaks over the life of the process: in every state it
    reaches, no event receiver of a probe is alive, and the only device
    alive is the one of the engine, held by one reference, whose driver is
    the one the engine cached; without an engine no device is alive. *)
Theorem no_leak env w : reachable env w -> tidy w.
Proof.
  induction 1 as [| w a w' Hreach IH Hstep].
  - repeat split.
  - apply (tidy_step env w a w'); [now apply reachable_singleton_inv with env | |];
      assumption.
Qed.

Lemma no_leak_witness :
  devices world_in_session =
    {[0%nat := mk_device (mk_driver EDT_OPENGL (mk_dim 800 600))
                 (Some example_modes) 1]} /\
  receivers world_in_session = ∅.
Proof.
  assert (Hreach : reachable (desktop "opengl") world_in_session).
  { apply (reachable_step _ world_with_engine (Initialize 1%nat 2%nat));
      [apply reachable_world_with_engine | reflexivity]. }
  destruct (no_leak _ _ Hreach) as [Hrec Htidy].
  split; [| exact Hrec].
  change (s_singleton world_in_session) with (Some 0%nat) in Htidy.
  destruct Htidy as (e & da & d & He & Hm & _ & Hd & Hcount).
  reflexivity.
Defined.

(** The creation parameters depend on the settings and the platform, not on
    the state of the process. *)
Lemma creation_parameters_same receiver env w w' p p' w1 w1' :
  creation_parameters receiver env w = Done p w1 ->
  creation_parameters receiver env w' = Done p' w1' ->
  p = p'.
Proof.
  unfold creation_parameters. unfold_monad. cbn.
  destruct (_ =? _)%nat; cbn; intros H H'; inversion H; inversion H';
    reflexivity.
Qed.

(** X6.  Construction and teardown are a round trip: the engine a
    construction built can be torn down; afterwards no engine is alive, the
    singleton pointer is null and the devices are those that were alive
    before the construction, the engine's device being destroyed with the
    drop of its only reference; and a new engine can then be constructed. *)
Theorem construct_then_destroy env receiver w this w1 :
  singleton_inv w ->
  new_RenderingEngine receiver env w = Done this w1 ->
  exists w2,
    RenderingEngine_dtor this env w1 = Done tt w2 /\
    s_singleton w2 = None /\ engines w2 = ∅ /\
    devices w2 = devices w /\ receivers w2 = receivers w /\
    is_done (new_RenderingEngine receiver env w2) = true.
Proof.
  intros Hinv Hnew.
  assert (Hperf : perform (Construct receiver) env w = Done tt w1).
  { cbn [perform]. erewrite bind_done by exact Hnew. reflexivity. }
  pose proof (perform_effect env w _ w1 Hinv Hperf) as Heff.
  cbv zeta in Heff. destruct Heff as (Hrec & _ & Hs & d & Hs1 & He1 & Hd1).
  pose proof Hinv as He. unfold singleton_inv in He. rewrite Hs in He.
  assert (this = fresh (dom (engines w))) as Hthis.
  { destruct (new_RenderingEngine_inv _ _ _ _ _ Hinv Hnew)
      as (e & da & d' & (Hs' & _) & _).
    rewrite Hs1 in Hs'. now inversion Hs'. }
  rewrite <- Hthis in *.
  rewrite He in He1.
  set (da := fresh (dom (devices w))) in *.
  set (dev := mk_device (getVideoDriver d) (getVideoModeList d) 1) in *.
  assert (Hready : engine_ready w1 this (mk_engine (Some da) (Some da) None) da dev).
  { split; [exact Hs1 |]. split; [exact He1 |]. split; [reflexivity |].
    rewrite Hd1. apply lookup_insert_eq. }
  rewrite (dtor_exact env w1 this _ da dev Hready).
  eexists. split; [reflexivity |]. cbn.
  split; [reflexivity |]. split; [reflexivity |].
  split; [rewrite Hd1; apply create_then_drop |].
  split; [exact Hrec |].
  (* a second construction *)
  unfold new_RenderingEngine. erewrite bind_done by reflexivity.
  match goal with |- is_done ((?m ≫= _) env ?w2) = true =>
    destruct (ctor_cases (fresh (dom (engines w2))) receiver env w2)
      as (p2 & w3 & Hp2 & Hcase2)
  end.
  cbn [s_singleton set_s_singleton set_engines set_devices engines] in Hcase2, Hp2.
  destruct (ctor_cases (fresh (dom (engines w))) receiver env w)
    as (p & w0 & Hp & Hcase).
  rewrite Hs in Hcase.
  assert (Hpp : p2 = p).
  { exact (creation_parameters_same _ _ _ _ _ _ _ _ Hp2 Hp). }
  subst p2.
  destruct (createDeviceEx env p) as [d0 |] eqn:Hdev.
  - cbn [engines set_s_singleton set_engines set_devices] .
    erewrite bind_done by exact Hcase2. reflexivity.
  - exfalso. unfold new_RenderingEngine in Hnew.
    erewrite bind_done in Hnew by reflexivity.
    erewrite bind_fatal in Hnew by exact Hcase. discriminate.
Qed.

Lemma construct_then_destroy_witness :
  exists w2,
    RenderingEngine_dtor 0%nat (desktop "opengl") world_with_engine = Done tt w2 /\
    s_singleton w2 = None /\ engines w2 = ∅ /\ devices w2 = ∅.
Proof.
  destruct (construct_then_destroy (desktop "opengl") None initial_world 0%nat
              world_with_engine singleton_inv_initial eq_refl)
    as (w2 & Hrun & Hs & He & Hd & _).
  exists w2. auto.
Defined.

(** X7.  A session: after [_initialize] the engine holds the strategy the
    factory built for the "3d_mode" setting, bound to the engine's device and
    to the client and HUD passed in; the strategy was initialised once;
    [_draw_scene] then reaches it, and [getWindowSize] reports its virtual
    size.  A second [_initialize] replaces the strategy. *)
Theorem session_begins env w a e da d client hud skycolor show_hud
    show_minimap draw_wield_tool draw_crosshair client' hud' :
  engine_ready w a e da d ->
  let c := createRenderingCore env (get (g_settings env) "3d_mode")
             (Some da) client hud in
  let c' := createRenderingCore env (get (g_settings env) "3d_mode")
              (Some da) client' hud' in
  exists w1 w2 w3,
    _initialize (Some a) client hud env w = Done tt w1 /\
    engine_ready w1 a (mk_engine (m_device e) (driver e) (Some c)) da d /\
    getWindowSize (Some a) env w1 = Done (getVirtualSize c) w1 /\
    _draw_scene (Some a) skycolor show_hud show_minimap draw_wield_tool
        draw_crosshair env w1 = Done tt w2 /\
    video_log w2 =
      video_log w ++
      [CoreInitialize c;
       CoreDraw c skycolor show_hud show_minimap draw_wield_tool draw_crosshair] /\
    _initialize (Some a) client' hud' env w1 = Done tt w3 /\
    engine_ready w3 a (mk_engine (m_device e) (driver e) (Some c')) da d.
Proof.
  intros H c c'.
  pose proof (engine_ready_lookup _ _ _ _ _ H) as Hl.
  pose proof H as (Hs & He & Hm & Hd).
  rewrite (initialize_run env w a e client hud Hl). cbv zeta.
  rewrite Hm. fold c.
  set (w1 := set_video_log _ _).
  assert (H1 : engine_ready w1 a (mk_engine (Some da) (driver e) (Some c)) da d).
  { unfold engine_ready. subst w1. cbn. rewrite He, insert_singleton_eq. auto. }
  pose proof (engine_ready_lookup _ _ _ _ _ H1) as Hl1.
  eexists w1, _, _. split; [reflexivity |]. split; [exact H1 |].
  split; [exact (getWindowSize_ready env w1 a _ da d H1) |].
  rewrite (draw_scene_run env w1 a _ skycolor show_hud show_minimap
             draw_wield_tool draw_crosshair Hl1). cbn [core].
  split; [reflexivity |]. split.
  { subst w1. cbn. now rewrite <- app_assoc. }
  rewrite (initialize_run env w1 a _ client' hud' Hl1). cbv zeta.
  cbn [m_device driver]. fold c'.
  split; [reflexivity |].
  unfold engine_ready. subst w1. cbn.
  rewrite He, !insert_singleton_eq. auto.
Qed.

Lemma session_begins_witness :
  getWindowSize (Some 0%nat) (desktop "opengl") world_in_session =
    Done (mk_v2 800 600) world_in_session.
Proof.
  destruct (session_begins (desktop "opengl") world_with_engine _ _ _ _
              1%nat 2%nat (mk_SColor 255 0 0 0) true true true true 3%nat 4%nat
              world_with_engine_ready)
    as (w1 & w2 & w3 & Hinit & _ & Hsize & _).
  change (_initialize (Some 0%nat) 1%nat 2%nat (desktop "opengl")
            world_with_engine) with (Done tt world_in_session) in Hinit.
  inversion Hinit; subst w1. exact Hsize.
Defined.

(** X8.  The end of a session: after [_finalize] the engine holds no
    strategy whatever it held before, so [_draw_scene] stops at the null
    [core] and [getWindowSize] reports the screen size of the device's
    driver; the device stays alive.  [_finalize] after [_initialize] gives
    back the engine as it was when it had no strategy, and a second
    [_finalize] changes nothing. *)
Theorem session_ends env w a e da d client hud skycolor show_hud show_minimap
    draw_wield_tool draw_crosshair :
  engine_ready w a e da d ->
  exists w1,
    _finalize (Some a) env w = Done tt w1 /\
    engine_ready w1 a (mk_engine (m_device e) (driver e) None) da d /\
    _finalize (Some a) env w1 = Done tt w1 /\
    _draw_scene (Some a) skycolor show_hud show_minimap draw_wield_tool
        draw_crosshair env w1 = Fatal (NullDereference "core") w1 /\
    getWindowSize (Some a) env w1 =
      Done (v2u32_of_dimension (getScreenSize (getVideoDriver d))) w1 /\
    (core e = None ->
     exists w2 w3,
       _initialize (Some a) client hud env w = Done tt w2 /\
       _finalize (Some a) env w2 = Done tt w3 /\
       engines w3 = engines w /\ devices w3 = devices w /\
       s_singleton w3 = s_singleton w).
Proof.
  intros H.
  pose proof (engine_ready_lookup _ _ _ _ _ H) as Hl.
  pose proof H as (Hs & He & Hm & Hd).
  rewrite (finalize_run env w a e Hl).
  set (w1 := set_engines _ _).
  assert (H1 : engine_ready w1 a (mk_engine (m_device e) (driver e) None) da d).
  { unfold engine_ready. subst w1. cbn. rewrite He, insert_singleton_eq. auto. }
  pose proof (engine_ready_lookup _ _ _ _ _ H1) as Hl1.
  exists w1. split; [reflexivity |]. split; [exact H1 |].
  split.
  { rewrite (finalize_run env w1 a _ Hl1). f_equal. subst w1.
    unfold set_engines. cbn. f_equal. apply insert_insert_eq. }
  split.
  { now rewrite (draw_scene_run env w1 a _ skycolor show_hud show_minimap
                   draw_wield_tool draw_crosshair Hl1). }
  split; [exact (getWindowSize_ready env w1 a _ da d H1) |].
  intros Hcore.
  rewrite (initialize_run env w a e client hud Hl). cbv zeta.
  set (w2 := set_video_log _ _).
  assert (Hl2 : engines w2 !! a =
                Some (mk_engine (m_device e) (driver e)
                        (Some (createRenderingCore env
                                 (get (g_settings env) "3d_mode") (m_device e)
                                 client hud)))).
  { subst w2. cbn. apply lookup_insert_eq. }
  eexists w2, _. split; [reflexivity |].
  rewrite (finalize_run env w2 a _ Hl2).
  split; [reflexivity |]. subst w2. cbn.
  split; [| split; reflexivity].
  rewrite He, !insert_singleton_eq. destruct e; cbn in *. now subst.
Qed.

Lemma session_ends_witness :
  exists w1,
    _finalize (Some 0%nat) (desktop "opengl") world_in_session = Done tt w1 /\
    _draw_scene (Some 0%nat) (mk_SColor 255 0 0 0) true true true true
        (desktop "opengl") w1 = Fatal (NullDereference "core") w1.
Proof.
  pose (c := mk_core "mono" (Some 0%nat) 1%nat 2%nat (mk_v2 800 600)).
  assert (H : engine_ready world_in_session 0%nat
                (mk_engine (Some 0%nat) (Some 0%nat) (Some c)) 0%nat
                (mk_device (mk_driver EDT_OPENGL (mk_dim 800 600))
                   (Some example_modes) 1)) by (repeat split).
  destruct (session_ends (desktop "opengl") world_in_session _ _ _ _
              1%nat 2%nat (mk_SColor 255 0 0 0) true true true true H)
    as (w1 & Hfin & _ & _ & Hdraw & _).
  exists w1. auto.
Defined.

(** X9.  The calls the process makes over its life form well-bracketed
    scenes: no scene is begun while one is open, every scene begun is ended
    within the same call, every 2D image, the UI layer and the cloud scene
    manager draw inside a scene, and the rendering strategy is called only
    while no scene is open. *)
Theorem scenes_bracketed env w :
  reachable env w -> scan false (video_log w) = Some false.
Proof.
  induction 1 as [| w a w' Hreach IH Hstep]; [reflexivity |].
  destruct (perform_effect env w a w' (reachable_singleton_inv _ _ Hreach) Hstep)
    as (_ & (calls & Hlog & Hscan) & _).
  rewrite Hlog, scan_app, IH. exact Hscan.
Qed.

Lemma scenes_bracketed_witness :
  scan false
    (video_log
       (final_world
          (_draw_menu_scene float_of_3 false (desktop "opengl")
             world_with_engine))) = Some false.
Proof.
  apply (scenes_bracketed (desktop "opengl")).
  apply (reachable_step _ world_with_engine (DrawMenuScene float_of_3 false));
    [apply reachable_world_with_engine | reflexivity].
Defined.

(** ** The layout of the loading screen *)

(** The loading screen with its rectangles written out. *)
Lemma draw_load_screen_layout env w a e da d text tsrc dtime percent clouds :
  engine_ready w a e da d ->
  let screensize := window_size e d in
  let textsize := mk_v2 (wrap_s32 (getTextWidth (g_fontengine env) text))
                        (wrap_s32 (getLineHeight (g_fontengine env))) in
  let center := mk_v2 (wrap_s32 (X screensize / 2))
                      (wrap_s32 (Y screensize / 2)) in
  let textrect := mk_rect (v2s32_sub center (v2s32_div textsize 2))
                          (v2s32_add center (v2s32_div textsize 2)) in
  exists backdrop bar,
    _draw_load_screen text tsrc dtime percent clouds env w =
      Done tt
        (set_video_log
           (video_log w ++ backdrop ++ bar ++
            [GuiDrawAll
               (guienv w ++
                [(fresh ((guienv w).*1),
                  StaticText (c_wstr text) textrect false false
                    EGUIA_CENTER EGUIA_UPPERLEFT)]);
             EndScene]) w) /\
    image_rects backdrop = [] /\ text_rects backdrop = [] /\
    text_rects bar = [] /\
    match (percent >=? 0) && (percent <=? 100),
          tsrc "progress_bar.png"%string, tsrc "progress_bar_bg.png"%string with
    | true, Some img, Some img_bg =>
        let imgW := rangelim (Width (getSize img_bg)) 200 600 in
        let imgH := rangelim (Height (getSize img_bg)) 24 72 in
        let x := wrap_s32 (wrap_u32 (X screensize - imgW) / 2) in
        let y := wrap_s32 (wrap_u32 (Y screensize - imgH) / 2) in
        image_rects bar =
          [rect_xyxy x y (wrap_s32 (wrap_u32 (wrap_u32 x + imgW)))
             (wrap_s32 (wrap_u32 (wrap_u32 y + imgH)));
           rect_xyxy x y
             (wrap_s32 (wrap_u32 (wrap_u32 x
                + wrap_u32 (wrap_u32 percent * imgW) / 100)))
             (wrap_s32 (wrap_u32 (wrap_u32 y + imgH)))]
    | _, _, _ => image_rects bar = []
    end.
Proof.
  intros H. cbv zeta. unfold _draw_load_screen.
  destruct w as [sing es ds rs gui vlog co err].
  pose proof (proj1 H) as Hs. cbn in Hs. subst sing.
  exists (if clouds && getBool (g_settings env) "menu_clouds"
          then [CloudsStep (float_mul dtime float_of_3); CloudsRender;
                BeginScene true true (mk_SColor 255 140 186 250);
                CloudsMgrDrawAll]
          else [BeginScene true true (mk_SColor 255 0 0 0)]).
  assert (Hb1 : forall b : bool,
    image_rects (if b
          then [CloudsStep (float_mul dtime float_of_3); CloudsRender;
                BeginScene true true (mk_SColor 255 140 186 250);
                CloudsMgrDrawAll]
          else [BeginScene true true (mk_SColor 255 0 0 0)]) = [] /\
    text_rects (if b
          then [CloudsStep (float_mul dtime float_of_3); CloudsRender;
                BeginScene true true (mk_SColor 255 140 186 250);
                CloudsMgrDrawAll]
          else [BeginScene true true (mk_SColor 255 0 0 0)]) = [])
    by (intros []; split; reflexivity).
  destruct ((percent >=? 0) && (percent <=? 100)) eqn:Hp;
    try (destruct (tsrc "progress_bar.png"%string) as [img |] eqn:Himg;
         [destruct (tsrc "progress_bar_bg.png"%string) as [img_bg |] eqn:Hbg |]).
  all: try (exists [];
            split; [apply wp_done; repeat wp_step; finish_frame |];
            split; [apply Hb1 |]; split; [apply Hb1 |];
            split; reflexivity).
  eexists [Draw2DImageFilterScaled _ _ _ _; Draw2DImageFilterScaled _ _ _ _].
  split; [apply wp_done; repeat wp_step; finish_frame |].
  split; [apply Hb1 |]. split; [apply Hb1 |].
  split; reflexivity.
Qed.

Lemma dest_height x x2 p k :
  in_s32 k ->
  getHeight (rect_xyxy x p x2 (wrap_s32 (wrap_u32 (wrap_u32 p + k)))) = k.
Proof.
  intros Hk.
  change (getHeight (rect_xyxy x p x2 (wrap_s32 (wrap_u32 (wrap_u32 p + k)))))
    with (getWidth (rect_xyxy p x (wrap_s32 (wrap_u32 (wrap_u32 p + k))) x2)).
  now apply dest_width.
Qed.

Lemma image_rects_app l1 l2 :
  image_rects (l1 ++ l2) = image_rects l1 ++ image_rects l2.
Proof. apply omap_app. Qed.

Lemma text_rects_app l1 l2 :
  text_rects (l1 ++ l2) = text_rects l1 ++ text_rects l2.
Proof. unfold text_rects. now rewrite omap_app, join_app. Qed.

(** The images and the texts of a frame of the loading screen, read from the
    log after the call. *)
Lemma load_screen_rects env w a e da d text tsrc dtime percent clouds img img_bg :
  engine_ready w a e da d ->
  0 <= percent <= 100 ->
  tsrc "progress_bar.png"%string = Some img ->
  tsrc "progress_bar_bg.png"%string = Some img_bg ->
  let screensize := window_size e d in
  let imgW := rangelim (Width (getSize img_bg)) 200 600 in
  let imgH := rangelim (Height (getSize img_bg)) 24 72 in
  let x := wrap_s32 (wrap_u32 (X screensize - imgW) / 2) in
  let y := wrap_s32 (wrap_u32 (Y screensize - imgH) / 2) in
  image_rects
    (video_log (final_world
       (_draw_load_screen text tsrc dtime percent clouds env w))) =
  image_rects (video_log w) ++
  [rect_xyxy x y (wrap_s32 (wrap_u32 (wrap_u32 x + imgW)))
     (wrap_s32 (wrap_u32 (wrap_u32 y + imgH)));
   rect_xyxy x y
     (wrap_s32 (wrap_u32 (wrap_u32 x + wrap_u32 (wrap_u32 percent * imgW) / 100)))
     (wrap_s32 (wrap_u32 (wrap_u32 y + imgH)))].
Proof.
  intros H Hp Himg Hbg. cbv zeta.
  destruct (draw_load_screen_layout env w a e da d text tsrc dtime percent
              clouds H) as (backdrop & bar & Hrun & Hi & _ & _ & Hbar).
  apply percent_range in Hp. rewrite Hp, Himg, Hbg in Hbar. cbv zeta in Hbar.
  rewrite Hrun. cbn [final_world video_log set_video_log].
  rewrite !image_rects_app, Hi, Hbar. reflexivity.
Qed.

(** X10.  The filled layer of the progress bar grows with [percent]: drawn
    at the same corner and with the same height as the background layer,
    which is 200 to 600 pixels wide and 24 to 72 high, it is empty at 0,
    as wide as the background at 100, and never narrower for a larger
    percentage. *)
Theorem filled_layer_grows env w a e da d text tsrc dtime clouds img img_bg p q :
  engine_ready w a e da d ->
  tsrc "progress_bar.png"%string = Some img ->
  tsrc "progress_bar_bg.png"%string = Some img_bg ->
  0 <= p <= q -> q <= 100 ->
  exists bg fill_p fill_q,
    image_rects
      (video_log (final_world (_draw_load_screen text tsrc dtime p clouds env w)))
      = image_rects (video_log w) ++ [bg; fill_p] /\
    image_rects
      (video_log (final_world (_draw_load_screen text tsrc dtime q clouds env w)))
      = image_rects (video_log w) ++ [bg; fill_q] /\
    UpperLeftCorner fill_p = UpperLeftCorner bg /\
    UpperLeftCorner fill_q = UpperLeftCorner bg /\
    getHeight fill_p = getHeight bg /\ getHeight fill_q = getHeight bg /\
    200 <= getWidth bg <= 600 /\ 24 <= getHeight bg <= 72 /\
    0 <= getWidth fill_p <= getWidth fill_q /\
    getWidth fill_q <= getWidth bg /\
    (p = 0 -> getWidth fill_p = 0) /\
    (q = 100 -> getWidth fill_q = getWidth bg).
Proof.
  intros H Himg Hbg Hpq Hq.
  pose proof (load_screen_rects env w a e da d text tsrc dtime p clouds img
                img_bg H ltac:(lia) Himg Hbg) as Hp'.
  pose proof (load_screen_rects env w a e da d text tsrc dtime q clouds img
                img_bg H ltac:(lia) Himg Hbg) as Hq'.
  cbv zeta in Hp', Hq'.
  pose proof (rangelim_bounds (Width (getSize img_bg)) 200 600 ltac:(lia)) as Hw.
  pose proof (rangelim_bounds (Height (getSize img_bg)) 24 72 ltac:(lia)) as Hh.
  set (imgW := rangelim (Width (getSize img_bg)) 200 600) in *.
  set (imgH := rangelim (Height (getSize img_bg)) 24 72) in *.
  destruct (filled_width p imgW ltac:(lia) Hw) as [Ep Hfp].
  destruct (filled_width q imgW ltac:(lia) Hw) as [Eq Hfq].
  rewrite Ep in Hp'. rewrite Eq in Hq'.
  eexists _, _, _. split; [exact Hp' |]. split; [exact Hq' |].
  split; [reflexivity |]. split; [reflexivity |].
  rewrite !dest_height by (unfold in_s32; lia).
  rewrite !dest_width by (unfold in_s32; lia).
  split; [reflexivity |]. split; [reflexivity |].
  split; [exact Hw |]. split; [exact Hh |].
  split.
  { split; [lia |]. apply Z.div_le_mono; [lia | nia]. }
  split; [lia |]. split.
  - intros ->. reflexivity.
  - intros ->. rewrite Z.mul_comm. apply Z.div_mul. lia.
Qed.

Lemma filled_layer_grows_witness :
  exists bg fill_p fill_q,
    image_rects
      (video_log (final_world
         (_draw_load_screen [76; 111] example_textures float_of_3 0 false
            (desktop "opengl") world_with_engine))) = [bg; fill_p] /\
    image_rects
      (video_log (final_world
         (_draw_load_screen [76; 111] example_textures float_of_3 100 false
            (desktop "opengl") world_with_engine))) = [bg; fill_q] /\
    getWidth fill_p = 0 /\ getWidth fill_q = getWidth bg.
Proof.
  destruct (filled_layer_grows (desktop "opengl") world_with_engine _ _ _ _
              [76; 111] example_textures float_of_3 false _ _ 0 100
              world_with_engine_ready eq_refl eq_refl)
    as (bg & fp & fq & H0 & H100 & _ & _ & _ & _ & _ & _ & _ & _ & Hz & Hfull);
    [lia | lia |].
  exists bg, fp, fq. auto.
Defined.

(** X11.  In a window at least as large as the bar, the progress bar lies
    inside the window and is centred in it: its margins on the left and the
    right, and above and below, differ by at most one pixel. *)
Theorem bar_centred env w a e da d text tsrc dtime clouds img img_bg percent :
  engine_ready w a e da d ->
  tsrc "progress_bar.png"%string = Some img ->
  tsrc "progress_bar_bg.png"%string = Some img_bg ->
  0 <= percent <= 100 ->
  let sx := X (window_size e d) in
  let sy := Y (window_size e d) in
  let imgW := rangelim (Width (getSize img_bg)) 200 600 in
  let imgH := rangelim (Height (getSize img_bg)) 24 72 in
  imgW <= sx < 2 ^ 31 -> imgH <= sy < 2 ^ 31 ->
  exists left top,
    image_rects
      (video_log (final_world
         (_draw_load_screen text tsrc dtime percent clouds env w))) =
    image_rects (video_log w) ++
    [rect_xyxy left top (left + imgW) (top + imgH);
     rect_xyxy left top (left + (percent * imgW) / 100) (top + imgH)] /\
    left = (sx - imgW) / 2 /\ top = (sy - imgH) / 2 /\
    0 <= left /\ left + imgW <= sx /\ 0 <= top /\ top + imgH <= sy /\
    0 <= (sx - (left + imgW)) - left <= 1 /\
    0 <= (sy - (top + imgH)) - top <= 1.
Proof.
  intros H Himg Hbg Hp sx sy imgW imgH Hsx Hsy.
  pose proof (load_screen_rects env w a e da d text tsrc dtime percent clouds
                img img_bg H Hp Himg Hbg) as Hr.
  cbv zeta in Hr. fold sx sy imgW imgH in Hr.
  pose proof (rangelim_bounds (Width (getSize img_bg)) 200 600 ltac:(lia)) as Hw.
  pose proof (rangelim_bounds (Height (getSize img_bg)) 24 72 ltac:(lia)) as Hh.
  fold imgW in Hw. fold imgH in Hh.
  destruct (filled_width percent imgW Hp Hw) as [Ef Hfb].
  rewrite Ef in Hr.
  assert (Hx : wrap_s32 (wrap_u32 (sx - imgW) / 2) = (sx - imgW) / 2).
  { rewrite wrap_u32_small by (unfold in_u32; lia).
    apply wrap_s32_small. unfold in_s32.
    pose proof (Z.div_pos (sx - imgW) 2 ltac:(lia) ltac:(lia)).
    assert ((sx - imgW) / 2 <= sx - imgW) by (apply Z.div_le_upper_bound; lia).
    lia. }
  assert (Hy : wrap_s32 (wrap_u32 (sy - imgH) / 2) = (sy - imgH) / 2).
  { rewrite wrap_u32_small by (unfold in_u32; lia).
    apply wrap_s32_small. unfold in_s32.
    pose proof (Z.div_pos (sy - imgH) 2 ltac:(lia) ltac:(lia)).
    assert ((sy - imgH) / 2 <= sy - imgH) by (apply Z.div_le_upper_bound; lia).
    lia. }
  rewrite Hx, Hy in Hr.
  set (left := (sx - imgW) / 2) in *. set (top := (sy - imgH) / 2) in *.
  assert (Hl : 0 <= left /\ 0 <= (sx - imgW) - 2 * left <= 1)
    by (subst left; split; [apply Z.div_pos; lia |];
        pose proof (Z.div_mod (sx - imgW) 2 ltac:(lia));
        pose proof (Z.mod_pos_bound (sx - imgW) 2 ltac:(lia)); lia).
  assert (Ht : 0 <= top /\ 0 <= (sy - imgH) - 2 * top <= 1)
    by (subst top; split; [apply Z.div_pos; lia |];
        pose proof (Z.div_mod (sy - imgH) 2 ltac:(lia));
        pose proof (Z.mod_pos_bound (sy - imgH) 2 ltac:(lia)); lia).
  assert (Hwrap : forall p k, 0 <= p -> 0 <= k -> p + k < 2 ^ 31 ->
            wrap_s32 (wrap_u32 (wrap_u32 p + k)) = p + k).
  { intros p0 k Hp0 Hk Hsum.
    rewrite (wrap_u32_small p0) by (unfold in_u32; lia).
    rewrite wrap_u32_small by (unfold in_u32; lia).
    apply wrap_s32_small. unfold in_s32. lia. }
  rewrite !Hwrap in Hr by lia.
  exists left, top. split; [exact Hr |].
  split; [reflexivity |]. split; [reflexivity |]. lia.
Qed.

Lemma bar_centred_witness :
  image_rects
    (video_log (final_world
       (_draw_load_screen [76; 111] example_textures float_of_3 25 false
          (desktop "opengl") world_with_engine))) =
  [rect_xyxy 299 285 500 315; rect_xyxy 299 285 349 315].
Proof.
  destruct (bar_centred (desktop "opengl") world_with_engine _ _ _ _
              [76; 111] example_textures float_of_3 false _ _ 25
              world_with_engine_ready eq_refl eq_refl)
    as (left & top & Hr & -> & -> & _); [lia | vm_compute; split; congruence
                                         | vm_compute; split; congruence |].
  exact Hr.
Defined.

(** X12.  In a window narrower than the bar the unsigned subtraction
    [screensize.X - imgW] wraps around: the left edge of both layers lands
    just below 2^31, far outside the window, and the right edge of the
    background becomes negative, so the rectangle is inverted. *)
Theorem bar_in_narrow_window env w a e da d text tsrc dtime clouds img img_bg
    percent :
  engine_ready w a e da d ->
  tsrc "progress_bar.png"%string = Some img ->
  tsrc "progress_bar_bg.png"%string = Some img_bg ->
  0 <= percent <= 100 ->
  let sx := X (window_size e d) in
  let imgW := rangelim (Width (getSize img_bg)) 200 600 in
  0 <= sx < imgW ->
  exists bg fill,
    image_rects
      (video_log (final_world
         (_draw_load_screen text tsrc dtime percent clouds env w))) =
    image_rects (video_log w) ++ [bg; fill] /\
    X (UpperLeftCorner bg) = 2 ^ 31 + (sx - imgW) / 2 /\
    X (UpperLeftCorner fill) = X (UpperLeftCorner bg) /\
    2 ^ 31 - 300 <= X (UpperLeftCorner bg) < 2 ^ 31 /\
    sx < X (UpperLeftCorner bg) /\
    X (LowerRightCorner bg) < 0.
Proof.
  intros H Himg Hbg Hp sx imgW Hsx.
  pose proof (load_screen_rects env w a e da d text tsrc dtime percent clouds
                img img_bg H Hp Himg Hbg) as Hr.
  cbv zeta in Hr. fold sx imgW in Hr.
  pose proof (rangelim_bounds (Width (getSize img_bg)) 200 600 ltac:(lia)) as Hw.
  fold imgW in Hw.
  assert (Hx : wrap_s32 (wrap_u32 (sx - imgW) / 2) = 2 ^ 31 + (sx - imgW) / 2
               /\ - 300 <= (sx - imgW) / 2 < 0).
  { assert (Hu : wrap_u32 (sx - imgW) = sx - imgW + 1 * 2 ^ 32).
    { unfold wrap_u32. rewrite <- (Z.mod_add (sx - imgW) 1 (2 ^ 32)) by lia.
      apply Z.mod_small. lia. }
    rewrite Hu.
    replace (sx - imgW + 1 * 2 ^ 32) with (sx - imgW + 2 ^ 31 * 2) by lia.
    rewrite Z.div_add by lia.
    assert (- 300 <= (sx - imgW) / 2 < 0).
    { split; [apply Z.div_le_lower_bound; lia
             | apply Z.div_lt_upper_bound; lia]. }
    split; [| assumption].
    rewrite wrap_s32_small by (unfold in_s32; lia). lia. }
  destruct Hx as [Hx Hhalf].
  assert (Hrem : sx - imgW - 1 <= 2 * ((sx - imgW) / 2)).
  { pose proof (Z.div_mod (sx - imgW) 2 ltac:(lia)).
    pose proof (Z.mod_pos_bound (sx - imgW) 2 ltac:(lia)). lia. }
  set (x := wrap_s32 (wrap_u32 (sx - imgW) / 2)) in *.
  eexists _, _. split; [exact Hr |]. cbn.
  split; [exact Hx |]. split; [reflexivity |].
  split; [lia |]. split; [lia |].
  rewrite wrap_s32_u32.
  rewrite (wrap_u32_small x) by (unfold in_u32; lia).
  unfold wrap_s32.
  replace (x + imgW + 2 ^ 31) with (x + imgW - 2 ^ 31 + 1 * 2 ^ 32) by lia.
  rewrite Z.mod_add by lia. rewrite Z.mod_small by lia. lia.
Qed.

Lemma bar_in_narrow_window_witness :
  exists bg fill,
    image_rects
      (video_log (final_world
         (_draw_load_screen [76; 111] example_textures float_of_3 25 false
            (desktop "opengl")
            (final_world
               (_initialize (Some 0%nat) 1%nat 2%nat
                  (mk_env (example_settings "opengl") example_font
                     (fun _ => true) (fun _ => None) (fun _ => None)
                     (fun mode device client hud =>
                        mk_core mode device client hud (mk_v2 100 600)))
                  world_with_engine))))) =
    [bg; fill] /\
    X (UpperLeftCorner bg) = 2147483597 /\ X (LowerRightCorner bg) < 0.
Proof.
  pose (c := mk_core "mono" (Some 0%nat) 1%nat 2%nat (mk_v2 100 600)).
  match goal with
  | |- context [_draw_load_screen _ _ _ _ _ _ ?w0] => set (w := w0)
  end.
  assert (H : engine_ready w 0%nat
                (mk_engine (Some 0%nat) (Some 0%nat) (Some c)) 0%nat
                (mk_device (mk_driver EDT_OPENGL (mk_dim 800 600))
                   (Some example_modes) 1)) by (repeat split).
  destruct (bar_in_narrow_window (desktop "opengl") w _ _ _ _
              [76; 111] example_textures float_of_3 false _ _ 25
              H eq_refl eq_refl)
    as (bg & fill & Hr & Hx & _ & _ & _ & Hneg);
    [lia | vm_compute; split; congruence |].
  exists bg, fill. split; [exact Hr |]. split; [exact Hx | exact Hneg].
Defined.

(** X13.  The text of the loading screen is laid out around the centre of
    the window: its rectangle reaches half the measured text size, rounded
    down, to each side of the centre, so it is as wide (and as high) as the
    text measured, or one pixel less when that size is odd. *)
Theorem text_centred env w a e da d text tsrc dtime percent clouds :
  engine_ready w a e da d ->
  let sx := X (window_size e d) in
  let sy := Y (window_size e d) in
  let tw := getTextWidth (g_fontengine env) text in
  let th := getLineHeight (g_fontengine env) in
  0 <= sx < 2 ^ 31 -> 0 <= sy < 2 ^ 31 ->
  0 <= tw < 2 ^ 31 -> 0 <= th < 2 ^ 31 ->
  exists r,
    last (text_rects
            (video_log (final_world
               (_draw_load_screen text tsrc dtime percent clouds env w)))) =
      Some r /\
    r = rect_xyxy (sx / 2 - tw / 2) (sy / 2 - th / 2)
          (sx / 2 + tw / 2) (sy / 2 + th / 2) /\
    getWidth r = 2 * (tw / 2) /\ tw - 1 <= getWidth r <= tw /\
    getHeight r = 2 * (th / 2) /\ th - 1 <= getHeight r <= th.
Proof.
  intros H sx sy tw th Hsx Hsy Htw Hth.
  destruct (draw_load_screen_layout env w a e da d text tsrc dtime percent
              clouds H) as (backdrop & bar & Hrun & _ & Hb & Hbar & _).
  cbv zeta in Hrun. fold sx sy tw th in Hrun.
  assert (Hhalf : forall z, 0 <= z < 2 ^ 31 ->
            0 <= z / 2 < 2 ^ 30 /\ 0 <= z - 2 * (z / 2) <= 1).
  { intros z Hz. pose proof (Z.div_mod z 2 ltac:(lia)).
    pose proof (Z.mod_pos_bound z 2 ltac:(lia)). lia. }
  pose proof (Hhalf sx Hsx). pose proof (Hhalf sy Hsy).
  pose proof (Hhalf tw Htw). pose proof (Hhalf th Hth).
  exists (rect_xyxy (sx / 2 - tw / 2) (sy / 2 - th / 2)
            (sx / 2 + tw / 2) (sy / 2 + th / 2)).
  split.
  - rewrite Hrun. cbn [final_world video_log set_video_log].
    rewrite !text_rects_app, Hb, Hbar. cbn [app].
    unfold text_rects at 2. cbn [omap mjoin]. unfold text_rects at 1.
    cbn. rewrite app_nil_r, omap_app. cbn.
    rewrite app_assoc, last_snoc. f_equal.
    unfold v2s32_sub, v2s32_add, v2s32_div, rect_xyxy. cbn.
    rewrite (wrap_s32_small tw), (wrap_s32_small th) by (unfold in_s32; lia).
    rewrite !Z.quot_div_nonneg by lia.
    rewrite (wrap_s32_small (sx / 2)), (wrap_s32_small (sy / 2)),
      (wrap_s32_small (tw / 2)), (wrap_s32_small (th / 2))
      by (unfold in_s32; lia).
    rewrite !wrap_s32_small by (unfold in_s32; lia). reflexivity.
  - split; [reflexivity |].
    unfold getWidth, getHeight, rect_xyxy. cbn.
    rewrite !wrap_s32_small by (unfold in_s32; lia). lia.
Qed.

Lemma text_centred_witness :
  last (text_rects
          (video_log (final_world
             (_draw_load_screen [76; 111; 97] example_textures float_of_3 (-1)
                false (desktop "opengl") world_with_engine)))) =
    Some (rect_xyxy 388 292 412 308).
Proof.
  destruct (text_centred (desktop "opengl") world_with_engine _ _ _ _
              [76; 111; 97] example_textures float_of_3 (-1) false
              world_with_engine_ready
              ltac:(vm_compute; split; congruence)
              ltac:(vm_compute; split; congruence)
              ltac:(vm_compute; split; congruence)
              ltac:(vm_compute; split; congruence))
    as (r & Hlast & -> & _).
  exact Hlast.
Defined.

(** ** The window icon *)

Lemma land_shifted_low hi lo n :
  0 <= n -> 0 <= lo < 2 ^ n -> Z.land (hi * 2 ^ n) lo = 0.
Proof.
  intros Hn Hlo. apply Z.bits_inj'. intros k Hk.
  rewrite Z.land_spec, Z.bits_0.
  destruct (Z.lt_ge_cases k n) as [Hlt | Hge].
  - rewrite Z.mul_pow2_bits_low by lia. reflexivity.
  - assert (Z.testbit lo k = false) as ->; [| apply andb_false_r].
    destruct (Z.eq_dec lo 0) as [-> | Hne]; [apply Z.bits_0 |].
    apply Z.bits_above_log2; [lia |].
    apply Z.log2_lt_pow2; [lia |].
    apply Z.lt_le_trans with (2 ^ n); [lia |].
    apply Z.pow_le_mono_r; lia.
Qed.

(** Or-ing a value below 2^n into a multiple of 2^n adds it. *)
Lemma lor_shifted_low hi lo n :
  0 <= n -> 0 <= lo < 2 ^ n -> Z.lor (hi * 2 ^ n) lo = hi * 2 ^ n + lo.
Proof.
  intros Hn Hlo. symmetry. apply Z.add_nocarry_lor.
  now apply land_shifted_low.
Qed.

Lemma pixel_value_sum col :
  let a := alpha col mod 256 in
  let r := red col mod 256 in
  let g := green col mod 256 in
  let b := blue col mod 256 in
  pixel_value col = signed_alpha a * 2 ^ 24 + r * 2 ^ 16 + g * 2 ^ 8 + b.
Proof.
  intros a r g b. unfold pixel_value. cbv zeta. fold a r g b.
  assert (Ha : 0 <= a < 256) by (apply Z.mod_pos_bound; lia).
  assert (Hr : 0 <= r < 256) by (apply Z.mod_pos_bound; lia).
  assert (Hg : 0 <= g < 256) by (apply Z.mod_pos_bound; lia).
  assert (Hb : 0 <= b < 256) by (apply Z.mod_pos_bound; lia).
  rewrite !Z.shiftl_mul_pow2 by lia.
  rewrite (wrap_s32_small (r * 2 ^ 16)), (wrap_s32_small (g * 2 ^ 8))
    by (unfold in_s32; lia).
  assert (Hwa : wrap_s32 (a * 2 ^ 24) = signed_alpha a * 2 ^ 24).
  { unfold signed_alpha. destruct (Z.ltb_spec a 128).
    - apply wrap_s32_small. unfold in_s32. lia.
    - unfold wrap_s32.
      replace (a * 2 ^ 24 + 2 ^ 31)
        with ((a - 256) * 2 ^ 24 + 2 ^ 31 + 1 * 2 ^ 32) by lia.
      rewrite Z.mod_add by lia. rewrite Z.mod_small by lia. lia. }
  rewrite Hwa, Z.lor_0_l.
  set (sa := signed_alpha a).
  rewrite (lor_shifted_low sa (r * 2 ^ 16) 24) by lia.
  replace (sa * 2 ^ 24 + r * 2 ^ 16) with ((sa * 2 ^ 8 + r) * 2 ^ 16) by lia.
  rewrite (lor_shifted_low _ (g * 2 ^ 8) 16) by lia.
  replace ((sa * 2 ^ 8 + r) * 2 ^ 16 + g * 2 ^ 8)
    with ((sa * 2 ^ 16 + r * 2 ^ 8 + g) * 2 ^ 8) by lia.
  rewrite (lor_shifted_low _ b 8) by lia. lia.
Qed.

(** X14.  The [long] the icon code builds from a pixel holds the four
    channels in its low 32 bits, alpha first: they are read back by shifting
    and masking.  From alpha 128 on, the shift of the [int] overflows and the
    value is negative, its upper bits all set; the low 32 bits are the same
    ARGB word. *)
Theorem pixel_packing col :
  let a := alpha col mod 256 in
  let r := red col mod 256 in
  let g := green col mod 256 in
  let b := blue col mod 256 in
  let pv := pixel_value col in
  pv mod 2 ^ 32 = a * 2 ^ 24 + r * 2 ^ 16 + g * 2 ^ 8 + b /\
  Z.land (Z.shiftr pv 24) 255 = a /\
  Z.land (Z.shiftr pv 16) 255 = r /\
  Z.land (Z.shiftr pv 8) 255 = g /\
  Z.land pv 255 = b /\
  in_s32 pv /\
  (pv < 0 <-> 128 <= a).
Proof.
  intros a r g b pv. subst pv. rewrite (pixel_value_sum col). cbv zeta.
  fold a r g b.
  assert (Ha : 0 <= a < 256) by (apply Z.mod_pos_bound; lia).
  assert (Hr : 0 <= r < 256) by (apply Z.mod_pos_bound; lia).
  assert (Hg : 0 <= g < 256) by (apply Z.mod_pos_bound; lia).
  assert (Hb : 0 <= b < 256) by (apply Z.mod_pos_bound; lia).
  change 255 with (Z.ones 8).
  rewrite !Z.land_ones, !Z.shiftr_div_pow2 by lia.
  unfold in_s32, signed_alpha.
  destruct (Z.ltb_spec a 128);
    repeat split; try (Z.div_mod_to_equations; lia).
Qed.

(** *** Filling the buffer *)

Lemma store_inv buf i v buf' :
  store buf i v = Some buf' ->
  0 <= i < Z.of_nat (length buf) /\ buf' = <[Z.to_nat i := Some v]> buf.
Proof.
  unfold store.
  destruct (Z.leb_spec 0 i), (Z.ltb_spec i (Z.of_nat (length buf)));
    cbn; intros [= <-]; auto.
Qed.

Lemma store_in_bounds buf i v :
  0 <= i < Z.of_nat (length buf) ->
  store buf i v = Some (<[Z.to_nat i := Some v]> buf).
Proof.
  intros Hi. unfold store.
  destruct (Z.leb_spec 0 i), (Z.ltb_spec i (Z.of_nat (length buf)));
    cbn; auto; lia.
Qed.

Lemma store_all_app writes1 : forall buf writes2,
  store_all buf (writes1 ++ writes2) =
    match store_all buf writes1 with
    | Some buf' => store_all buf' writes2
    | None => None
    end.
Proof.
  induction writes1 as [| iv writes1 IH]; intros buf writes2; [reflexivity |].
  cbn. destruct (store buf iv.1 iv.2); [apply IH | reflexivity].
Qed.

Lemma fill_column_writes img width x ys : forall buf,
  fill_column img width x ys buf = store_all buf (column_writes img width x ys).
Proof.
  induction ys as [| y ys IH]; intros buf; [reflexivity |].
  cbn. destruct (store buf _ _); [apply IH | reflexivity].
Qed.

Lemma fill_columns_writes img width height xs : forall buf,
  fill_columns img width height xs buf =
    store_all buf (icon_writes img width height xs).
Proof.
  induction xs as [| x xs IH]; intros buf; [reflexivity |].
  cbn [fill_columns icon_writes flat_map].
  rewrite store_all_app, fill_column_writes.
  destruct (store_all buf _); [apply IH | reflexivity].
Qed.

(** Writes at distinct places inside the buffer all take place, each cell
    written holds its value afterwards, and the other cells are untouched. *)
Lemma store_all_spec writes : forall buf,
  (forall iv, iv ∈ writes -> 0 <= iv.1 < Z.of_nat (length buf)) ->
  NoDup (writes.*1) ->
  exists buf',
    store_all buf writes = Some buf' /\
    length buf' = length buf /\
    (forall iv, iv ∈ writes -> buf' !! Z.to_nat iv.1 = Some (Some iv.2)) /\
    (forall j, (forall iv, iv ∈ writes -> Z.to_nat iv.1 <> j) ->
               buf' !! j = buf !! j).
Proof.
  induction writes as [| [i v] writes IH]; intros buf Hin Hnd.
  - exists buf. repeat split; auto. intros iv Hiv. inversion Hiv.
  - cbn in Hnd. apply NoDup_cons in Hnd as [Hi Hnd].
    assert (Hb : 0 <= i < Z.of_nat (length buf)) by (apply (Hin (i, v)); left).
    cbn [store_all fst snd]. rewrite (store_in_bounds buf i v Hb).
    destruct (IH (<[Z.to_nat i := Some v]> buf)) as (buf' & Hrun & Hlen & Hset & Hkeep).
    { intros iv Hiv. rewrite length_insert. apply Hin. now right. }
    { exact Hnd. }
    rewrite length_insert in Hlen.
    exists buf'. split; [exact Hrun |]. split; [exact Hlen |]. split.
    + intros iv Hiv. apply elem_of_cons in Hiv as [-> | Hiv]; [| now apply Hset].
      cbn. rewrite Hkeep.
      * apply list_lookup_insert_eq. lia.
      * intros iv Hiv Heq. apply Hi.
        assert (iv.1 = i) as <-.
        { pose proof (Hin iv ltac:(now right)). lia. }
        apply list_elem_of_fmap. now exists iv.
    + intros j Hj. rewrite Hkeep.
      * apply list_lookup_insert_ne. apply (Hj (i, v)). left.
      * intros iv Hiv. apply Hj. now right.
Qed.

(** Within the bounds of the image the subscript does not wrap. *)
Lemma icon_index_exact width height x y :
  2 + width * height < 2 ^ 32 ->
  0 <= x < width -> 0 <= y < height ->
  icon_index x y width = 2 + x + y * width /\
  2 <= icon_index x y width < 2 + width * height.
Proof.
  intros Hsize Hx Hy.
  assert (0 <= y * width) by nia.
  assert (x + y * width < width * height) by nia.
  unfold icon_index.
  rewrite (wrap_u32_small (2 + x)), (wrap_u32_small (y * width))
    by (unfold in_u32; lia).
  rewrite wrap_u32_small by (unfold in_u32; lia). lia.
Qed.

Lemma elem_of_icon_writes img width height xs iv :
  iv ∈ icon_writes img width height xs <->
  exists x y, x ∈ xs /\ 0 <= y < height /\
    iv = (icon_index x y width, pixel_value (getPixel img x y)).
Proof.
  unfold icon_writes, column_writes. rewrite list_elem_of_In, in_flat_map.
  split.
  - intros (x & Hx & Hiv). apply in_map_iff in Hiv as (y & <- & Hy).
    apply list_elem_of_In in Hx, Hy. apply elem_of_seqZ in Hy.
    exists x, y. split; [exact Hx |]. split; [lia | reflexivity].
  - intros (x & y & Hx & Hy & ->). exists x.
    split; [now apply list_elem_of_In |].
    apply in_map_iff. exists y. split; [reflexivity |].
    apply list_elem_of_In, elem_of_seqZ. lia.
Qed.

Lemma icon_index_inj width height x y x' y' :
  2 + width * height < 2 ^ 32 ->
  0 <= x < width -> 0 <= y < height ->
  0 <= x' < width -> 0 <= y' < height ->
  icon_index x y width = icon_index x' y' width -> x = x' /\ y = y'.
Proof.
  intros Hsize Hx Hy Hx' Hy' Heq.
  destruct (icon_index_exact width height x y Hsize Hx Hy) as [E _].
  destruct (icon_index_exact width height x' y' Hsize Hx' Hy') as [E' _].
  rewrite E, E' in Heq.
  assert (y = y') by nia. subst. split; [lia | reflexivity].
Qed.

Lemma icon_writes_NoDup img width height :
  2 + width * height < 2 ^ 32 ->
  forall xs, NoDup xs -> (forall x, x ∈ xs -> 0 <= x < width) ->
  NoDup ((icon_writes img width height xs).*1).
Proof.
  intros Hsize. induction xs as [| x xs IH]; intros Hnd Hxs; [constructor |].
  apply NoDup_cons in Hnd as [Hx Hnd].
  cbn [icon_writes flat_map]. rewrite fmap_app. apply NoDup_app.
  split; [| split].
  - unfold column_writes. rewrite <- list_fmap_compose.
    apply NoDup_fmap_2_strong; [| apply NoDup_seqZ].
    intros y y' Hy Hy' Heq. cbn in Heq.
    apply elem_of_seqZ in Hy, Hy'.
    eapply (icon_index_inj width height x y x y'); eauto; try lia;
      apply Hxs; left.
  - intros i Hi Hi'.
    apply list_elem_of_fmap in Hi as (iv & -> & Hiv).
    apply list_elem_of_fmap in Hi' as (iv' & Heq & Hiv').
    assert (Hcol : iv ∈ icon_writes img width height [x])
      by (cbn [icon_writes flat_map]; now rewrite app_nil_r).
    apply elem_of_icon_writes in Hcol as (x0 & y & Hx0 & Hy & ->).
    apply list_elem_of_singleton in Hx0 as ->.
    apply elem_of_icon_writes in Hiv' as (x' & y' & Hx' & Hy' & ->).
    cbn in Heq.
    destruct (icon_index_inj width height x y x' y' Hsize) as [-> _]; auto.
    + apply Hxs. left.
    + apply Hxs. now right.
  - apply IH; [exact Hnd |]. intros x0 Hx0. apply Hxs. now right.
Qed.

Lemma icon_buffer_len_exact width height :
  0 <= width -> 0 <= height -> 2 + width * height < 2 ^ 32 ->
  wrap_u32 (2 + wrap_u32 (height * width)) = 2 + width * height.
Proof.
  intros Hw Hh Hsize. assert (0 <= width * height) by nia.
  rewrite (Z.mul_comm height width).
  rewrite (wrap_u32_small (width * height)) by (unfold in_u32; lia).
  apply wrap_u32_small. unfold in_u32. lia.
Qed.

(** The two loops stay inside the buffer of an image that fits, and leave
    it as the [_NET_WM_ICON] layout of the image. *)
Lemma fill_icon_buffer_spec img :
  let width := Width (getDimension img) in
  let height := Height (getDimension img) in
  icon_fits img ->
  exists buf,
    fill_icon_buffer img = Some buf /\
    length buf = Z.to_nat (2 + width * height) /\
    buf !! 0%nat = Some (Some width) /\
    buf !! 1%nat = Some (Some height) /\
    (forall x y, 0 <= x < width -> 0 <= y < height ->
       buf !! Z.to_nat (2 + x + y * width) =
         Some (Some (pixel_value (getPixel img x y)))) /\
    Forall is_Some buf.
Proof.
  intros width height (Hw & Hh & Hsize). fold width height in Hw, Hh, Hsize.
  assert (Hwh : 0 <= width * height) by nia.
  unfold fill_icon_buffer. fold width height.
  rewrite (icon_buffer_len_exact width height Hw Hh Hsize).
  set (buf0 := replicate (Z.to_nat (2 + width * height)) None : buffer).
  assert (Hlen0 : length buf0 = Z.to_nat (2 + width * height))
    by apply length_replicate.
  rewrite (store_in_bounds buf0 0 width) by lia. cbv beta iota.
  match goal with |- context [store ?b 1 height] => set (buf1 := b) end.
  assert (Hlen1 : length buf1 = Z.to_nat (2 + width * height))
    by (rewrite <- Hlen0; apply length_insert).
  rewrite (store_in_bounds buf1 1 height) by lia. cbv beta iota.
  match goal with
  | |- context [fill_columns _ _ _ _ ?b] => set (buf2 := b)
  end.
  assert (Hlen2 : length buf2 = Z.to_nat (2 + width * height))
    by (rewrite <- Hlen1; apply length_insert).
  rewrite fill_columns_writes.
  destruct (store_all_spec (icon_writes img width height (seqZ 0 width)) buf2)
    as (buf & Hrun & Hlen & Hset & Hkeep).
  { intros iv Hiv.
    apply elem_of_icon_writes in Hiv as (x & y & Hx & Hy & ->).
    apply elem_of_seqZ in Hx. cbn [fst].
    destruct (icon_index_exact width height x y Hsize) as [_ Hr]; lia. }
  { apply icon_writes_NoDup; [exact Hsize | apply NoDup_seqZ |].
    intros x Hx. apply elem_of_seqZ in Hx. lia. }
  assert (Hlow : forall j, (j < 2)%nat -> buf !! j = buf2 !! j).
  { intros j Hj. apply Hkeep. intros iv Hiv.
    apply elem_of_icon_writes in Hiv as (x & y & Hx & Hy & ->).
    apply elem_of_seqZ in Hx. cbn [fst].
    destruct (icon_index_exact width height x y Hsize) as [_ Hr]; lia. }
  assert (H0 : buf !! 0%nat = Some (Some width)).
  { rewrite Hlow by lia. unfold buf2.
    rewrite list_lookup_insert_ne by (change (Z.to_nat 1) with 1%nat; lia).
    unfold buf1. apply list_lookup_insert_eq. lia. }
  assert (H1 : buf !! 1%nat = Some (Some height)).
  { rewrite Hlow by lia. unfold buf2.
    apply (list_lookup_insert_eq buf1 (Z.to_nat 1)). lia. }
  assert (Hpix : forall x y, 0 <= x < width -> 0 <= y < height ->
            buf !! Z.to_nat (2 + x + y * width) =
              Some (Some (pixel_value (getPixel img x y)))).
  { intros x y Hx Hy.
    destruct (icon_index_exact width height x y Hsize Hx Hy) as [<- _].
    apply (Hset (icon_index x y width, pixel_value (getPixel img x y))).
    apply elem_of_icon_writes. exists x, y.
    split; [apply elem_of_seqZ; lia | split; [exact Hy | reflexivity]]. }
  exists buf. split; [exact Hrun |]. split; [congruence |].
  split; [exact H0 |]. split; [exact H1 |]. split; [exact Hpix |].
  apply Forall_lookup. intros j c Hj.
  assert (Hjlen : (j < length buf)%nat) by (eapply lookup_lt_Some; eauto).
  destruct (decide (j = 0%nat)) as [-> | Hj0].
  { assert (Some c = Some (Some width)) as [= ->] by (rewrite <- Hj; exact H0).
    eauto. }
  destruct (decide (j = 1%nat)) as [-> | Hj1].
  { assert (Some c = Some (Some height)) as [= ->] by (rewrite <- Hj; exact H1).
    eauto. }
  assert (Hpos : 0 < width) by nia.
  set (k := Z.of_nat j - 2).
  assert (Hk : 0 <= k < width * height) by lia.
  pose proof (Z.mod_pos_bound k width Hpos) as Hx.
  pose proof (Z.div_mod k width ltac:(lia)) as Hdm.
  assert (Hy : 0 <= k / width < height).
  { split; [apply Z.div_pos; lia |]. apply Z.div_lt_upper_bound; lia. }
  specialize (Hpix (k mod width) (k / width) Hx Hy).
  replace (Z.to_nat (2 + k mod width + k / width * width)) with j in Hpix by lia.
  assert (Some c = Some (Some (pixel_value (getPixel img (k mod width) (k / width)))))
    as [= ->] by (rewrite <- Hj; exact Hpix).
  eauto.
Qed.

(** *** Resources, warnings and the property set *)

Lemma remove_first_head r l : remove_first r (r :: l) = l.
Proof. cbn. now rewrite decide_True. Qed.

Lemma remove_first_skip r x l :
  x <> r -> remove_first r (x :: l) = x :: remove_first r l.
Proof. intros H. cbn. now rewrite decide_False. Qed.

(** How a call of [setXorgWindowIconFromPath] can end. *)
Lemma icon_from_path_cases P icon_file s :
  match setXorgWindowIconFromPath P icon_file s with
  | Returned b s' =>
      live s' = live s /\
      (file_opens s' = file_opens s \/
       file_opens s' = file_opens s ++ [icon_file]) /\
      if b then
        warningstream s' = warningstream s /\
        file_opens s' = file_opens s ++ [icon_file] /\
        exists img buf dpl,
          icon_image P icon_file = Some img /\
          fill_icon_buffer img = Some buf /\
          X11Display P = Some dpl /\
          x_properties s' =
            x_properties s ++
              [mk_xproperty dpl (X11Window P) "_NET_WM_ICON" "CARDINAL" 32 buf
                 (wrap_s32 (wrap_u32 (2 + wrap_u32
                    (Height (getDimension img) * Width (getDimension img)))))]
      else
        (exists msg, warningstream s' = warningstream s ++ [msg]) /\
        x_properties s' = x_properties s /\
        (icon_image P icon_file = None \/ X11Display P = None)
  | BufferOverrun s' =>
      exists img, icon_image P icon_file = Some img /\ fill_icon_buffer img = None
  end.
Proof.
  unfold setXorgWindowIconFromPath, icon_image.
  destruct (find_image_loader (ImageLoaders P) icon_file) as [image_loader |].
  2: { cbn. repeat split; eauto. }
  destruct (createAndOpenFile P icon_file) as [icon_f |].
  2: { cbn. repeat split; eauto. }
  destruct (loadImage image_loader icon_f) as [img |].
  2: { cbn. rewrite decide_True by reflexivity. repeat split; eauto. }
  cbv zeta.
  destruct (fill_icon_buffer img) as [buf |] eqn:Hfill; [| eauto].
  assert (Hlive : forall len (l : list Resource),
            remove_first (IconBuffer len)
              (remove_first (FileObject (getFileName icon_f))
                 (remove_first (ImageObject (getFileName icon_f))
                    (IconBuffer len :: ImageObject (getFileName icon_f)
                       :: FileObject (getFileName icon_f) :: l))) = l).
  { intros len l.
    rewrite (remove_first_skip (ImageObject _) (IconBuffer len)) by discriminate.
    rewrite remove_first_head.
    rewrite (remove_first_skip (FileObject _) (IconBuffer len)) by discriminate.
    rewrite remove_first_head. apply remove_first_head. }
  destruct (X11Display P) as [dpl |].
  - cbn [live file_opens warningstream x_properties release XChangeProperty
         acquire note_open warn].
    split; [apply Hlive |]. split; [now right |]. split; [reflexivity |].
    split; [reflexivity |]. exists img, buf, dpl. auto.
  - cbn [live file_opens warningstream x_properties release XChangeProperty
         acquire note_open warn].
    split; [apply Hlive |]. split; [now right |]. split; [eauto |]. auto.
Qed.

Lemma store_out_of_bounds buf i v :
  ~ (0 <= i < Z.of_nat (length buf)) -> store buf i v = None.
Proof.
  intros Hi. unfold store.
  destruct (Z.leb_spec 0 i), (Z.ltb_spec i (Z.of_nat (length buf)));
    cbn; auto; lia.
Qed.

Lemma store_length buf i v buf' :
  store buf i v = Some buf' -> length buf' = length buf.
Proof. intros H. apply store_inv in H as [_ ->]. apply length_insert. Qed.

(** One write outside the buffer makes the whole sequence of writes fail. *)
Lemma store_all_fails writes : forall buf iv,
  iv ∈ writes -> ~ (0 <= iv.1 < Z.of_nat (length buf)) ->
  store_all buf writes = None.
Proof.
  induction writes as [| jw writes IH]; intros buf iv Hiv Hout.
  - inversion Hiv.
  - cbn [store_all]. destruct (store buf jw.1 jw.2) as [buf' |] eqn:Hst;
      [| reflexivity].
    apply elem_of_cons in Hiv as [-> | Hiv].
    + now rewrite (store_out_of_bounds buf jw.1 jw.2 Hout) in Hst.
    + apply (IH buf' iv Hiv). now rewrite (store_length _ _ _ _ Hst).
Qed.

Lemma fill_icon_buffer_overrun img :
  let width := Width (getDimension img) in
  let height := Height (getDimension img) in
  in_u32 width -> in_u32 height -> 2 ^ 32 <= 2 + width * height ->
  fill_icon_buffer img = None.
Proof.
  intros width height Hw Hh Hsize. unfold in_u32 in Hw, Hh.
  unfold fill_icon_buffer. fold width height.
  set (len := wrap_u32 (2 + wrap_u32 (height * width))).
  assert (Hlen : 0 <= len < 2 ^ 32) by apply wrap_u32_range.
  set (buf0 := replicate (Z.to_nat len) None : buffer).
  assert (Hlen0 : length buf0 = Z.to_nat len) by apply length_replicate.
  destruct (store buf0 0 width) as [buf1 |] eqn:H1; [| reflexivity].
  destruct (store buf1 1 height) as [buf2 |] eqn:H2; [| reflexivity].
  apply store_length in H1, H2.
  rewrite fill_columns_writes.
  assert (Hpos : 0 < width) by nia.
  set (k := 2 ^ 32 - 3).
  pose proof (Z.mod_pos_bound k width Hpos) as Hx.
  pose proof (Z.div_mod k width ltac:(lia)) as Hdm.
  assert (Hy : 0 <= k / width < height).
  { split; [apply Z.div_pos; lia |]. apply Z.div_lt_upper_bound; lia. }
  apply (store_all_fails _ buf2
           (icon_index (k mod width) (k / width) width,
            pixel_value (getPixel img (k mod width) (k / width)))).
  - apply elem_of_icon_writes. exists (k mod width), (k / width).
    split; [apply elem_of_seqZ; lia | split; [exact Hy | reflexivity]].
  - cbn [fst].
    assert (Hidx : icon_index (k mod width) (k / width) width = 2 ^ 32 - 1).
    { unfold icon_index, wrap_u32. rewrite <- Zplus_mod.
      replace (2 + k mod width + k / width * width) with (2 ^ 32 - 1) by lia.
      apply Z.mod_small. lia. }
    rewrite Hidx, H2, H1, Hlen0. lia.
Qed.

(** On an image that fits and a display that is there, the call returns
    true. *)
Lemma icon_from_path_succeeds P icon_file s img dpl :
  icon_image P icon_file = Some img -> icon_fits img ->
  X11Display P = Some dpl ->
  exists s' buf,
    setXorgWindowIconFromPath P icon_file s = Returned true s' /\
    fill_icon_buffer img = Some buf /\
    x_properties s' =
      x_properties s ++
        [mk_xproperty dpl (X11Window P) "_NET_WM_ICON" "CARDINAL" 32 buf
           (wrap_s32 (wrap_u32 (2 + wrap_u32
              (Height (getDimension img) * Width (getDimension img)))))].
Proof.
  intros Himg Hfits Hdpl.
  destruct (fill_icon_buffer_spec img Hfits) as (buf & Hfill & _).
  pose proof (icon_from_path_cases P icon_file s) as H.
  destruct (setXorgWindowIconFromPath P icon_file s) as [[|] s' | s'].
  - destruct H as (_ & _ & _ & _ & img' & buf' & dpl' & Himg' & Hfill' & Hdpl' & Hp).
    assert (img' = img) as -> by congruence.
    assert (buf' = buf) as -> by congruence.
    assert (dpl' = dpl) as -> by congruence.
    exists s', buf. auto.
  - destruct H as (_ & _ & _ & _ & [Hnone | Hnone]); congruence.
  - destruct H as (img' & Himg' & Hfill'). congruence.
Qed.

(** Whether the call returns, when the images of the file fit. *)
Lemma icon_from_path_returns P icon_file s :
  (forall img, icon_image P icon_file = Some img -> icon_fits img) ->
  exists b s', setXorgWindowIconFromPath P icon_file s = Returned b s'.
Proof.
  intros Hfits.
  pose proof (icon_from_path_cases P icon_file s) as H.
  destruct (setXorgWindowIconFromPath P icon_file s) as [b s' | s']; [eauto |].
  destruct H as (img & Himg & Hfill).
  destruct (fill_icon_buffer_spec img (Hfits img Himg)) as (buf & Hfill' & _).
  congruence.
Qed.

(** X15.  For an icon file that decodes to an image whose cell count fits
    32 bits, on a display that is there, [setXorgWindowIconFromPath] returns
    true and hands the X server the image in the layout of [_NET_WM_ICON]:
    a property of that name, of type [CARDINAL] and format 32, whose data
    are [2 + width * height] cells, the width, the height, then the packed
    pixel [(x, y)] at the cell [2 + x + y * width], no cell left
    uninitialised.  The element count passed is the number of cells while
    that is below 2^31, and negative from there on. *)
Theorem icon_property_layout P icon_file s img dpl :
  let width := Width (getDimension img) in
  let height := Height (getDimension img) in
  icon_image P icon_file = Some img -> icon_fits img ->
  X11Display P = Some dpl ->
  exists s' p,
    setXorgWindowIconFromPath P icon_file s = Returned true s' /\
    x_properties s' = x_properties s ++ [p] /\
    xp_display p = dpl /\ xp_window p = X11Window P /\
    xp_property p = "_NET_WM_ICON"%string /\ xp_type p = "CARDINAL"%string /\
    xp_format p = 32 /\
    length (xp_data p) = Z.to_nat (2 + width * height) /\
    xp_data p !! 0%nat = Some (Some width) /\
    xp_data p !! 1%nat = Some (Some height) /\
    (forall x y, 0 <= x < width -> 0 <= y < height ->
       xp_data p !! Z.to_nat (2 + x + y * width) =
         Some (Some (pixel_value (getPixel img x y)))) /\
    Forall is_Some (xp_data p) /\
    (2 + width * height < 2 ^ 31 -> xp_nelements p = 2 + width * height) /\
    (2 ^ 31 <= 2 + width * height -> xp_nelements p < 0).
Proof.
  intros width height Himg Hfits Hdpl.
  destruct (icon_from_path_succeeds P icon_file s img dpl Himg Hfits Hdpl)
    as (s' & buf & Hrun & Hfill & Hprop).
  destruct (fill_icon_buffer_spec img Hfits)
    as (buf' & Hfill' & Hlen & H0 & H1 & Hpix & Hinit).
  assert (buf' = buf) as -> by congruence.
  destruct Hfits as (Hw & Hh & Hsize). fold width height in Hw, Hh, Hsize.
  fold width height in Hprop.
  rewrite (icon_buffer_len_exact width height Hw Hh Hsize) in Hprop.
  assert (0 <= width * height) by nia.
  eexists s', _. split; [exact Hrun |]. split; [exact Hprop |]. cbn.
  repeat split; auto.
  - intros Hsmall. apply wrap_s32_small. unfold in_s32. lia.
  - intros Hlarge. unfold wrap_s32.
    replace (2 + width * height + 2 ^ 31)
      with (2 + width * height - 2 ^ 31 + 1 * 2 ^ 32) by lia.
    rewrite Z.mod_add by lia. rewrite Z.mod_small by lia. lia.
Qed.

Lemma icon_property_layout_witness :
  exists s' p,
    setXorgWindowIconFromPath example_icon_platform
      "/usr/share/minetest/misc/minetest-xorg-icon-128.png" empty_icon_state =
      Returned true s' /\
    x_properties s' = [p] /\
    length (xp_data p) = 8%nat /\ xp_nelements p = 8.
Proof.
  destruct (icon_property_layout example_icon_platform
              "/usr/share/minetest/misc/minetest-xorg-icon-128.png"
              empty_icon_state example_image 7%nat)
    as (s' & p & Hrun & Hprop & _ & _ & _ & _ & _ & Hlen & _ & _ & _ & _ & Hn & _).
  - reflexivity.
  - unfold icon_fits. cbn. lia.
  - reflexivity.
  - exists s', p. split; [exact Hrun |]. split; [exact Hprop |].
    split; [exact Hlen |]. apply Hn. cbn. lia.
Defined.

(** X16.  An image whose cell count does not fit 32 bits is not rejected:
    the count wraps around, the buffer is allocated too small, and once the
    image is decoded [setXorgWindowIconFromPath] writes outside the buffer. *)
Theorem icon_buffer_overrun P icon_file s img :
  icon_image P icon_file = Some img ->
  in_u32 (Width (getDimension img)) ->
  in_u32 (Height (getDimension img)) ->
  2 ^ 32 <= 2 + Width (getDimension img) * Height (getDimension img) ->
  exists s', setXorgWindowIconFromPath P icon_file s = BufferOverrun s'.
Proof.
  intros Himg Hw Hh Hsize.
  pose proof (fill_icon_buffer_overrun img Hw Hh Hsize) as Hfill.
  unfold icon_image in Himg. unfold setXorgWindowIconFromPath.
  destruct (find_image_loader (ImageLoaders P) icon_file); [| discriminate].
  destruct (createAndOpenFile P icon_file); [| discriminate].
  rewrite Himg. cbv zeta. rewrite Hfill. eauto.
Qed.

Lemma icon_buffer_overrun_witness :
  exists s',
    setXorgWindowIconFromPath huge_icon_platform "icon.png" empty_icon_state =
      BufferOverrun s'.
Proof.
  apply (icon_buffer_overrun huge_icon_platform "icon.png" empty_icon_state
           huge_image);
    [reflexivity | unfold in_u32; cbn; lia | unfold in_u32; cbn; lia | cbn; lia].
Defined.

(** X17.  When the image of the file, if there is one, fits,
    [setXorgWindowIconFromPath] returns, and the file, the image and the
    buffer it acquired are released again on every path.  It returns true
    exactly when the file decodes to an image and the X11 display is not
    null; then it sets the window property once and warns of nothing; when
    it returns false it sets no property and writes one warning. *)
Theorem icon_from_path_outcome P icon_file s :
  (forall img, icon_image P icon_file = Some img -> icon_fits img) ->
  exists b s',
    setXorgWindowIconFromPath P icon_file s = Returned b s' /\
    live s' = live s /\
    (b = true <-> is_Some (icon_image P icon_file) /\ is_Some (X11Display P)) /\
    length (warningstream s') =
      (length (warningstream s) + if b then 0 else 1)%nat /\
    length (x_properties s') =
      (length (x_properties s) + if b then 1 else 0)%nat.
Proof.
  intros Hfits.
  destruct (icon_from_path_returns P icon_file s Hfits) as (b & s' & Hrun).
  exists b, s'. split; [exact Hrun |].
  pose proof (icon_from_path_cases P icon_file s) as H.
  rewrite Hrun in H. destruct H as (Hlive & _ & H).
  split; [exact Hlive |]. destruct b.
  - destruct H as (Hwarn & _ & img & buf & dpl & Himg & _ & Hdpl & Hprop).
    rewrite Hwarn, Hprop, Himg, Hdpl, length_app. cbn.
    repeat split; eauto; lia.
  - destruct H as ((msg & Hwarn) & Hprop & Hnone).
    rewrite Hwarn, Hprop, length_app. cbn.
    split; [| split; lia].
    split; [discriminate |]. intros [[img Himg] [dpl Hdpl]].
    destruct Hnone; congruence.
Qed.

Lemma icon_from_path_outcome_witness :
  exists b s',
    setXorgWindowIconFromPath example_icon_platform
      "/usr/share/minetest/misc/minetest-xorg-icon-128.png" empty_icon_state =
      Returned b s' /\
    live s' = [] /\
    length (warningstream s') = (0 + if b then 0 else 1)%nat /\
    length (x_properties s') = (0 + if b then 1 else 0)%nat.
Proof.
  destruct (icon_from_path_outcome example_icon_platform
              "/usr/share/minetest/misc/minetest-xorg-icon-128.png"
              empty_icon_state)
    as (b & s' & Hrun & Hlive & _ & Hwarn & Hprop).
  - intros img Himg. vm_compute in Himg. injection Himg as <-.
    unfold icon_fits. cbn. lia.
  - exists b, s'. auto.
Defined.

(** X18.  Without [RUN_IN_PLACE], [setWindowIcon] tries the icon installed
    under [ICON_DIR] first and the one under [path_share] only when the first
    attempt returned false.  When the images of the two files fit, it
    returns with nothing it acquired still held; it returns true exactly
    when one of the two files decodes and the display is there, and the
    window property is then set once, otherwise not at all and two warnings
    are written; when the installed icon is usable, the file under
    [path_share] is not opened. *)
Theorem window_icon_fallback P s :
  let installed :=
    (ICON_DIR P ++ "/hicolor/128x128/apps/" ++ PROJECT_NAME P ++ ".png")%string in
  let shared :=
    (path_share P ++ "/misc/" ++ PROJECT_NAME P ++ "-xorg-icon-128.png")%string in
  let usable f := is_Some (icon_image P f) /\ is_Some (X11Display P) in
  (forall img, icon_image P installed = Some img -> icon_fits img) ->
  (forall img, icon_image P shared = Some img -> icon_fits img) ->
  exists b s',
    setWindowIcon false P s = Returned b s' /\
    live s' = live s /\
    (b = true <-> usable installed \/ usable shared) /\
    length (x_properties s') =
      (length (x_properties s) + if b then 1 else 0)%nat /\
    (usable installed -> file_opens s' = file_opens s ++ [installed]) /\
    (b = false ->
     length (warningstream s') = (length (warningstream s) + 2)%nat).
Proof.
  intros installed shared usable Hfits1 Hfits2.
  unfold setWindowIcon. fold installed shared.
  destruct (icon_from_path_returns P installed s Hfits1) as (b1 & s1 & Hrun1).
  pose proof (icon_from_path_cases P installed s) as H1.
  rewrite Hrun1 in *. destruct H1 as (Hlive1 & Hopens1 & H1). destruct b1.
  - exists true, s1. split; [reflexivity |].
    destruct H1 as (Hwarn & Hopen & img & buf & dpl & Himg & _ & Hdpl & Hprop).
    assert (Hok : usable installed) by (unfold usable; rewrite Himg, Hdpl; eauto).
    rewrite Hprop, length_app. cbn.
    repeat split; auto; try lia; discriminate.
  - destruct H1 as ((msg1 & Hwarn1) & Hprop1 & Hnone1).
    assert (Hno1 : ~ usable installed).
    { intros [[img Himg] [dpl Hdpl]]. destruct Hnone1; congruence. }
    destruct (icon_from_path_returns P shared s1 Hfits2) as (b & s' & Hrun2).
    pose proof (icon_from_path_cases P shared s1) as H2.
    rewrite Hrun2 in *. destruct H2 as (Hlive2 & Hopens2 & H2).
    exists b, s'. split; [reflexivity |].
    split; [congruence |]. destruct b.
    + destruct H2 as (Hwarn & Hopen & img & buf & dpl & Himg & _ & Hdpl & Hprop).
      assert (Hok : usable shared) by (unfold usable; rewrite Himg, Hdpl; eauto).
      rewrite Hprop, Hprop1, length_app. cbn.
      repeat split; auto; try lia; try discriminate. tauto.
    + destruct H2 as ((msg2 & Hwarn2) & Hprop2 & Hnone2).
      assert (Hno2 : ~ usable shared).
      { intros [[img Himg] [dpl Hdpl]]. destruct Hnone2; congruence. }
      rewrite Hprop2, Hprop1, Hwarn2, Hwarn1, !length_app. cbn.
      repeat split; try lia; try tauto; try discriminate.
Qed.

Lemma window_icon_fallback_witness :
  exists b s',
    setWindowIcon false example_icon_platform empty_icon_state =
      Returned b s' /\
    live s' = [] /\
    length (x_properties s') = (0 + if b then 1 else 0)%nat.
Proof.
  destruct (window_icon_fallback example_icon_platform empty_icon_state)
    as (b & s' & Hrun & Hlive & _ & Hprop & _).
  - intros img Himg. vm_compute in Himg. discriminate.
  - intros img Himg. vm_compute in Himg. injection Himg as <-.
    unfold icon_fits. cbn. lia.
  - exists b, s'. auto.
Defined.
